(** * Filey: a shallow embedding of [filey.py]

    The development follows the Python source top-down: the Python and
    [os.path] primitives the program calls, the settings store, the size
    formatter, the directory scanner ([Worker.run]), the list widget
    ([Filey]) with its navigation history, file operations and search filter,
    and the window ([FileyWindow]) with its back and forward buttons.

    Conventions of the model.
    - A Python [str] is a [string]: the bytes of its UTF-8 encoding, so that
      the order of two strings, the substring test and the search for an
      ASCII character are those of Python.  What [str.lower] and [str.strip]
      return is decided by the Unicode tables of the interpreter and not by
      the program: the two methods are parameters of the development (the
      class [Py.Unicode]), of which only the values on ASCII text are
      fixed.
    - Python [int] values are [Z].
    - A Python [dict] with dynamic keys (the settings document, a theme) is a
      [gmap string json]; a dict literal with fixed keys (a scan entry) is a
      record.
    - What a handler does to the outside world is recorded as a trace of
      [effect]s; what the outside world answers (a dialog's input, the
      outcome of an OS call, the state of the file system) is an argument of
      the handler.
    - An uncaught Python exception is the [Raise] result. *)

From stdpp Require Import base list strings gmap sorting.
From Stdlib Require Import ZArith Lia Ascii DecimalString DecimalZ.

#[local] Set Warnings "-register-all".
#[local] Open Scope Z_scope.

(** ** Python built-ins used by the program *)

Module Py.

(** [l[:k]]: a negative [k] counts from the end, and the bound is clipped
    to the list. *)
Definition slice_to {A} (l : list A) (k : Z) : list A :=
  if k <? 0 then take (Z.to_nat (Z.of_nat (length l) + k)) l
  else take (Z.to_nat k) l.

(** [l[i]]: a negative [i] counts from the end; [None] is [IndexError]. *)
Definition index {A} (l : list A) (i : Z) : option A :=
  let n := Z.of_nat (length l) in
  if i <? 0 then (if i + n <? 0 then None else l !! Z.to_nat (i + n))
  else l !! Z.to_nat i.

(** A [str] of ASCII characters only: every byte is below 128. *)
Fixpoint is_ascii (s : string) : bool :=
  match s with
  | EmptyString => true
  | String c s' => (N_of_ascii c <? 128)%N && is_ascii s'
  end.

(** [c.lower()] on one ASCII character. *)
Definition ascii_lower_char (c : ascii) : ascii :=
  let n := N_of_ascii c in
  if ((65 <=? n) && (n <=? 90))%N then ascii_of_N (n + 32) else c.

(** [s.lower()] on ASCII text. *)
Fixpoint ascii_lower (s : string) : string :=
  match s with
  | EmptyString => EmptyString
  | String c s' => String (ascii_lower_char c) (ascii_lower s')
  end.

(** [c.isspace()] for a [str] character in the ASCII range: tab, line feed,
    vertical tab, form feed, carriage return, the four separators
    0x1c-0x1f and the space. *)
Definition ascii_isspace (c : ascii) : bool :=
  let n := N_of_ascii c in
  (((9 <=? n) && (n <=? 13)) || ((28 <=? n) && (n <=? 32)))%N.

(** [s.lstrip()] on ASCII text. *)
Fixpoint ascii_lstrip (s : string) : string :=
  match s with
  | EmptyString => EmptyString
  | String c s' => if ascii_isspace c then ascii_lstrip s' else s
  end.

(** [s.rstrip()] on ASCII text. *)
Fixpoint ascii_rstrip (s : string) : string :=
  match s with
  | EmptyString => EmptyString
  | String c s' =>
      match ascii_rstrip s' with
      | EmptyString =>
          if ascii_isspace c then EmptyString else String c EmptyString
      | r => String c r
      end
  end.

(** [s.strip()] on ASCII text. *)
Definition ascii_strip (s : string) : string := ascii_rstrip (ascii_lstrip s).

(** [s.lower()] and [s.strip()] on any text.  The case mapping (with its
    rules that look at the neighbours of a character) and the set of
    whitespace characters are tables of the interpreter; the program is
    verified for whatever they hold.  On ASCII text the two methods are the
    functions above. *)
Class Unicode := {
  lower : string → string;
  strip : string → string;
  lower_ascii : ∀ s, is_ascii s = true → lower s = ascii_lower s;
  strip_ascii : ∀ s, is_ascii s = true → strip s = ascii_strip s;
}.

(** The tables that map the ASCII characters only: the examples, all of
    them on ASCII text, are evaluated with these. *)
#[global] Instance ascii_tables : Unicode :=
  {| lower := ascii_lower;
     strip := ascii_strip;
     lower_ascii := λ _ _, eq_refl;
     strip_ascii := λ _ _, eq_refl |}.

(** [sub in s] on strings. *)
Fixpoint contains (sub s : string) : bool :=
  String.prefix sub s ||
  match s with
  | EmptyString => false
  | String _ s' => contains sub s'
  end.

(** [bool(s)] for a string. *)
Definition truthy_str (s : string) : bool :=
  match s with EmptyString => false | _ => true end.

(** [str(n)] for an integer. *)
Definition str_of_int (n : Z) : string :=
  NilEmpty.string_of_int (Z.to_int n).

(** [s.rfind(c)] for a one-character [c]: the index of the last
    occurrence, or [-1]. *)
Fixpoint rfind_from (c : ascii) (s : string) (i : Z) (last : Z) : Z :=
  match s with
  | EmptyString => last
  | String d s' => rfind_from c s' (i + 1) (if Ascii.eqb d c then i else last)
  end.

Definition rfind (c : ascii) (s : string) : Z := rfind_from c s 0 (-1).

(** [s[:k]] and [s[k:]] for [0 <= k]. *)
Definition str_take (k : Z) (s : string) : string :=
  String.substring 0 (Z.to_nat k) s.

Definition str_drop (k : Z) (s : string) : string :=
  String.substring (Z.to_nat k) (String.length s - Z.to_nat k) s.

End Py.

(** ** [os.path] (the POSIX flavour, [posixpath]) *)

Module OsPath.

Definition sep : ascii := "/"%char.
Definition extsep : ascii := "."%char.

Definition startswith_sep (s : string) : bool :=
  match s with String c _ => Ascii.eqb c sep | EmptyString => false end.

Fixpoint endswith_sep (s : string) : bool :=
  match s with
  | EmptyString => false
  | String c EmptyString => Ascii.eqb c sep
  | String _ s' => endswith_sep s'
  end.

(** [os.path.join(a, b)] *)
Definition join (a b : string) : string :=
  if startswith_sep b then b
  else if negb (Py.truthy_str a) || endswith_sep a then a +:+ b
  else a +:+ String sep b.

(** [os.path.basename(p)]: what follows the last separator. *)
Definition basename (p : string) : string :=
  Py.str_drop (Py.rfind sep p + 1) p.

Fixpoint all_sep (s : string) : bool :=
  match s with
  | EmptyString => true
  | String c s' => Ascii.eqb c sep && all_sep s'
  end.

(** [head.rstrip('/')] *)
Fixpoint rstrip_sep (s : string) : string :=
  match s with
  | EmptyString => EmptyString
  | String c s' =>
      match rstrip_sep s' with
      | EmptyString =>
          if Ascii.eqb c sep then EmptyString else String c EmptyString
      | r => String c r
      end
  end.

(** [os.path.dirname(p)] *)
Definition dirname (p : string) : string :=
  let head := Py.str_take (Py.rfind sep p + 1) p in
  if Py.truthy_str head && negb (all_sep head) then rstrip_sep head
  else head.

(** The loop of [genericpath._splitext] that skips the leading dots of the
    file name: [true] when a character other than the dot occurs in
    [p[filenameIndex:dotIndex]]. *)
Fixpoint has_non_dot (s : string) : bool :=
  match s with
  | EmptyString => false
  | String c s' => negb (Ascii.eqb c extsep) || has_non_dot s'
  end.

(** [os.path.splitext(p)] *)
Definition splitext (p : string) : string * string :=
  let sepIndex := Py.rfind sep p in
  let dotIndex := Py.rfind extsep p in
  if (sepIndex <? dotIndex) &&
     has_non_dot (Py.str_take (dotIndex - (sepIndex + 1))
                              (Py.str_drop (sepIndex + 1) p))
  then (Py.str_take dotIndex p, Py.str_drop dotIndex p)
  else (p, EmptyString).

End OsPath.

(** ** [list.sort(key=...)] on strings

    Python's sort is stable and compares the keys with [<] only.  The model
    is the stable insertion sort: an element is placed before the first
    element whose key is not smaller. *)

Section SortBy.
Variable key : string → string.

Fixpoint insert_by (x : string) (l : list string) : list string :=
  match l with
  | [] => [x]
  | y :: l' =>
      if String.leb (key x) (key y) then x :: l else y :: insert_by x l'
  end.

Fixpoint sort_by (l : list string) : list string :=
  match l with
  | [] => []
  | x :: l' => insert_by x (sort_by l')
  end.
End SortBy.

(** The order in which [list.sort(key=key)] leaves two elements. *)
Definition le_key (key : string → string) (a b : string) : Prop :=
  String.leb (key a) (key b) = true.

(** The order of [list.sort(key=str.lower)]: case-insensitive, by name. *)
Definition le_lower {U : Py.Unicode} : string → string → Prop :=
  le_key Py.lower.

(** ** JSON documents, as [json.load] returns them

    Numbers with a fraction or an exponent are left out: a document that
    holds one is not among the documents of the statements below. *)

Inductive json :=
| JNull
| JBool (b : bool)
| JInt (n : Z)
| JStr (s : string)
| JList (l : list json)
| JObj (m : gmap string json).

(** [bool(v)] *)
Definition truthy (v : json) : bool :=
  match v with
  | JNull => false
  | JBool b => b
  | JInt n => negb (n =? 0)
  | JStr s => Py.truthy_str s
  | JList l => match l with [] => false | _ => true end
  | JObj m => negb (bool_decide (m = ∅))
  end.

(** Uncaught exceptions that the modelled paths can raise. *)
Inductive exn :=
  IndexError | KeyError | TypeError | AttributeError | OverflowError.

(** [k in v] for a string [k]; [None] is the [TypeError] of a value that is
    not a container. *)
Definition json_contains (k : string) (v : json) : option bool :=
  match v with
  | JObj m => Some (bool_decide (is_Some (m !! k)))
  | JList l =>
      Some (existsb (λ x, match x with JStr s => String.eqb s k | _ => false end) l)
  | JStr s => Some (Py.contains k s)
  | JNull | JBool _ | JInt _ => None
  end.

(** ** [sizeof_fmt] *)

(** A Python number as the function sees it: the [int] it is called with, or
    the [float] [m / 2^e] it holds after a division by [1024.0]. *)
Inductive num :=
| Int (n : Z)
| Float (m : Z) (e : Z).

(** [a / b] rounded to the nearest integer, ties to the even one
    ([0 <= a], [0 < b]). *)
Definition round_half_even (a b : Z) : Z :=
  let q := a / b in
  let r := a mod b in
  if 2 * r <? b then q
  else if b <? 2 * r then q + 1
  else if Z.even q then q else q + 1.

(** [float(n)]: the nearest number with 53 significant bits, ties to even;
    [None] is the [OverflowError] of an [int] too large for a [float]. *)
Definition float_of_int (n : Z) : option Z :=
  let a := Z.abs n in
  let bits := if a =? 0 then 0 else Z.log2 a + 1 in
  let r :=
    if bits <=? 53 then a
    else let sh := bits - 53 in round_half_even a (2 ^ sh) * 2 ^ sh in
  if r <? 2 ^ 1024 then Some (Z.sgn n * r) else None.

(** [num /= 1024.0], exact on a [float] that is at least [1024] in absolute
    value. *)
Definition div_1024 (x : num) : option num :=
  match x with
  | Int n => m ← float_of_int n; Some (Float m 10)
  | Float m e => Some (Float m (e + 10))
  end.

(** [abs(num) < 1024.0] *)
Definition abs_lt_1024 (x : num) : bool :=
  match x with
  | Int n => Z.abs n <? 1024
  | Float m e => Z.abs m <? 1024 * 2 ^ e
  end.

(** The format [.1f] (and [3.1f]: one digit, a point and one digit already
    fill the width of three): the decimal expansion of the number rounded to
    one digit after the point, ties to even. *)
Definition format_1f (x : num) : option string :=
  match x with
  | Int n =>
      m ← float_of_int n;
      Some ((if m <? 0 then "-" else "") +:+
            Py.str_of_int (Z.abs m) +:+ ".0")
  | Float m e =>
      let tenths := round_half_even (10 * Z.abs m) (2 ^ e) in
      Some ((if m <? 0 then "-" else "") +:+
            Py.str_of_int (tenths / 10) +:+ "." +:+
            Py.str_of_int (tenths mod 10))
  end.

Definition units : list string := [""; "K"; "M"; "G"; "T"; "P"; "E"; "Z"].

Fixpoint sizeof_loop (us : list string) (x : num) (suffix : string)
  : option string :=
  match us with
  | [] => t ← format_1f x; Some (t +:+ " Y" +:+ suffix)
  | unit :: us' =>
      if abs_lt_1024 x
      then t ← format_1f x; Some (t +:+ " " +:+ unit +:+ suffix)
      else x' ← div_1024 x; sizeof_loop us' x' suffix
  end.

(** [sizeof_fmt(num)] with the default suffix; [None] is [OverflowError]. *)
Definition sizeof_fmt (n : Z) : option string := sizeof_loop units (Int n) "B".

(** ** The file system, as the program observes it

    Each field is the answer of one [os] call.  [None] is an exception of
    the call ([OSError] and the like); [os.path.isdir], [os.path.isfile] and
    [os.path.exists] answer [False] instead of raising. *)


Record FS := mkFS {
  listdir : string → option (list string);
  isdir : string → bool;
  isfile : string → bool;
  getsize : string → option Z;
  exists_ : string → bool;
  abspath : string → string;   (* [os.path.abspath], relative to the working
                                  directory of the process *)
}.

(** ** The directory scanner: [Worker.run] *)

(** One element of the result list (the dict literal of [Worker.run]). *)
Record Entry := mkEntry {
  name : string;
  full_path : string;
  is_folder : bool;
  size_text : string;
}.

Module Worker.
Section Run.
Context {U : Py.Unicode}.
Variable fs : FS.
Variable path : string.

(** The first loop: the names that are directories. *)
Definition folders_of (entries : list string) : list string :=
  filter (λ e, isdir fs (OsPath.join path e) = true) entries.

(** The first loop: the names that are not directories and are regular
    files. *)
Definition files_of (entries : list string) : list string :=
  filter (λ e, isdir fs (OsPath.join path e) = false ∧
               isfile fs (OsPath.join path e) = true) entries.

Definition folder_entry (folder : string) : Entry :=
  {| name := folder; full_path := OsPath.join path folder;
     is_folder := true; size_text := "" |}.

(** The inner [try]: a failure of [os.path.getsize] or of [sizeof_fmt]
    leaves the size text empty. *)
Definition size_text_of (full_path : string) : string :=
  match getsize fs full_path with
  | Some size_bytes => default "" (sizeof_fmt size_bytes)
  | None => ""
  end.

Definition file_entry (file : string) : Entry :=
  {| name := file; full_path := OsPath.join path file;
     is_folder := false; size_text := size_text_of (OsPath.join path file) |}.

(** The list that [run] passes to [finished.emit]. *)
Definition run : list Entry :=
  match listdir fs path with
  | Some entries =>
      let folders := sort_by Py.lower (folders_of entries) in
      let files := sort_by Py.lower (files_of entries) in
      (folder_entry <$> folders) ++ (file_entry <$> files)
  | None => []
  end.
End Run.
End Worker.

(** ** The list widget: [Filey] *)

(** One row of the list widget, as [_rebuild_file_list] fills it. *)
Record Item := mkItem {
  text : string;        (* the display name *)
  folder_icon : bool;   (* the folder icon, or else the file icon *)
  data256 : string;     (* [item.data(256)]: the full path *)
  data257 : bool;       (* [item.data(257)]: the folder flag *)
}.

Inductive os_call :=
| Mkdir (p : string)
| CreateFile (p : string)
| Rmtree (p : string)
| Remove (p : string)
| Rename (old new : string)
| Copytree (src dst : string)
| Copy2 (src dst : string)
| Move (src dst : string).

Inductive box := Information | Warning | Question.

(** What a handler does to the outside world. *)
Inductive effect :=
| PathChanged (p : string)                  (* [path_changed.emit(p)] *)
| UpdateNavButtons (back forward : bool)    (* the two [setEnabled] calls *)
| StartScan (p : string) (animate : bool)   (* a [Worker(p)] started on a new
                                               thread, its result bound to
                                               [_on_load_finished(_, animate)] *)
| SaveSettings (data : json)                (* [save_settings(data)] *)
| Os (c : os_call)                          (* a mutating [os]/[shutil] call *)
| OpenExternal (p : string)                 (* the file handed to the desktop *)
| MessageBox (kind : box) (title body : string)
| SetStyleSheet (colors : list json)        (* [setStyleSheet], with the values
                                               the style sheet is built from *)
| StartAnimation (property : string) (entries : list Entry)
                                            (* the first phase of a transition;
                                               [_after_fade_out(entries)] or
                                               [_after_slide_out(entries)] runs
                                               when it ends *)
| FinishAnimation (property : string).      (* the second phase, back to the
                                               normal state *)

Record Filey := mkFiley {
  current_path : string;
  anim_duration : json;
  anim_type : json;
  current_theme : json;
  history : list string;
  history_index : Z;
  clipboard_path : option string;
  full_entry_list : list Entry;
  items : list Item;
  has_parent : bool;    (* [self.parent()] is the window *)
}.

Definition set_current_path (p : string) (s : Filey) : Filey :=
  mkFiley p (anim_duration s) (anim_type s) (current_theme s) (history s)
    (history_index s) (clipboard_path s) (full_entry_list s) (items s)
    (has_parent s).

Definition set_history (h : list string) (i : Z) (s : Filey) : Filey :=
  mkFiley (current_path s) (anim_duration s) (anim_type s) (current_theme s)
    h i (clipboard_path s) (full_entry_list s) (items s) (has_parent s).

Definition set_history_index (i : Z) (s : Filey) : Filey :=
  set_history (history s) i s.

Definition set_clipboard_path (c : option string) (s : Filey) : Filey :=
  mkFiley (current_path s) (anim_duration s) (anim_type s) (current_theme s)
    (history s) (history_index s) c (full_entry_list s) (items s)
    (has_parent s).

Definition set_full_entry_list (l : list Entry) (s : Filey) : Filey :=
  mkFiley (current_path s) (anim_duration s) (anim_type s) (current_theme s)
    (history s) (history_index s) (clipboard_path s) l (items s)
    (has_parent s).

Definition set_items (l : list Item) (s : Filey) : Filey :=
  mkFiley (current_path s) (anim_duration s) (anim_type s) (current_theme s)
    (history s) (history_index s) (clipboard_path s) (full_entry_list s) l
    (has_parent s).

Definition set_current_theme (t : json) (s : Filey) : Filey :=
  mkFiley (current_path s) (anim_duration s) (anim_type s) t (history s)
    (history_index s) (clipboard_path s) (full_entry_list s) (items s)
    (has_parent s).

(** The result of a handler: the state it leaves and what it did, and the
    exception when one escapes. *)
Inductive result :=
| Ok (s : Filey) (tr : list effect)
| Raise (e : exn) (s : Filey) (tr : list effect).

Definition state_of (r : result) : Filey :=
  match r with Ok s _ | Raise _ s _ => s end.

Definition trace_of (r : result) : list effect :=
  match r with Ok _ tr | Raise _ _ tr => tr end.

(** [FileyWindow.update_nav_buttons] *)
Definition update_nav_buttons (s : Filey) : effect :=
  let idx := history_index s in
  let history_len := Z.of_nat (length (history s)) in
  UpdateNavButtons (0 <? idx) (idx <? history_len - 1).

(** The document of [Filey.save_session]. *)
Definition session_data (s : Filey) : json :=
  JObj (<["last_path" := JStr (current_path s)]>
       (<["anim_duration" := anim_duration s]>
       (<["anim_type" := anim_type s]>
       (<["theme" := current_theme s]> ∅)))).

(** [Filey.load_path(path, add_history, animate)].  The hand-over from the
    previous worker thread to the new one is summarised by the [StartScan]
    effect. *)
Definition load_path (path : string) (add_history animate : bool) (s : Filey)
  : Filey * list effect :=
  let s1 := set_current_path path s in
  let s2 :=
    if add_history
    then set_history
           (Py.slice_to (history s1) (history_index s1 + 1) ++ [path])
           (history_index s1 + 1) s1
    else s1 in
  (s2,
   [PathChanged path] ++
   (if has_parent s2 then [update_nav_buttons s2] else []) ++
   [StartScan path animate; SaveSettings (session_data s2)]).

(** [FileyWindow.go_back] *)
Definition go_back (s : Filey) : result :=
  if 0 <? history_index s then
    let s1 := set_history_index (history_index s - 1) s in
    match Py.index (history s1) (history_index s1) with
    | None => Raise IndexError s1 []
    | Some path =>
        let '(s2, tr) := load_path path false false s1 in
        Ok s2 (tr ++ [update_nav_buttons s2])
    end
  else Ok s [].

(** [FileyWindow.go_forward] *)
Definition go_forward (s : Filey) : result :=
  if history_index s <? Z.of_nat (length (history s)) - 1 then
    let s1 := set_history_index (history_index s + 1) s in
    match Py.index (history s1) (history_index s1) with
    | None => Raise IndexError s1 []
    | Some path =>
        let '(s2, tr) := load_path path false false s1 in
        Ok s2 (tr ++ [update_nav_buttons s2])
    end
  else Ok s [].

(** [Filey._rebuild_file_list]: one row per entry. *)
Definition item_of (entry : Entry) : Item :=
  {| text :=
       if Py.truthy_str (size_text entry)
       then name entry +:+ " (" +:+ size_text entry +:+ ")"
       else name entry;
     folder_icon := is_folder entry;
     data256 := full_path entry;
     data257 := is_folder entry |}.

Definition _rebuild_file_list (entries : list Entry) (s : Filey) : Filey :=
  set_items (item_of <$> entries) s.

(** [QPropertyAnimation.setDuration(v)]: the binding converts the argument
    to a C [int] and raises [TypeError] when it is no [int] ([bool] is an
    [int]) and [OverflowError] when it is out of the range of one; the
    result is the exception raised, if any.  Nothing has checked
    [anim_duration] before: it is what the settings document held. *)
Definition setDuration (v : json) : option exn :=
  match v with
  | JInt n =>
      if (- 2 ^ 31 <=? n) && (n <? 2 ^ 31) then None else Some OverflowError
  | JBool _ => None
  | _ => Some TypeError
  end.

(** [QComboBox.setCurrentText(v)]: the argument must be a [str] or [None];
    the result is the exception raised, if any. *)
Definition setCurrentText (v : json) : option exn :=
  match v with
  | JStr _ | JNull => None
  | _ => Some TypeError
  end.

(** The start of one phase of a transition: [setDuration] raises, or the
    animation is started. *)
Definition start_phase (start : effect) (s : Filey) : result :=
  match setDuration (anim_duration s) with
  | Some e => Raise e s []
  | None => Ok s [start]
  end.

(** [Filey.animate_file_list_reload]: any other animation type than the
    three known ones falls through both tests and does nothing. *)
Definition animate_file_list_reload (entries : list Entry) (s : Filey)
  : result :=
  match anim_type s with
  | JStr "None" => Ok (_rebuild_file_list entries s) []
  | JStr "Fade" => start_phase (StartAnimation "windowOpacity" entries) s
  | JStr "Slide" => start_phase (StartAnimation "pos" entries) s
  | _ => Ok s []
  end.

(** [Filey._after_fade_out] and [Filey._after_slide_out]: the list is
    swapped, and the second phase is started. *)
Definition _after_fade_out (entries : list Entry) (s : Filey) : result :=
  start_phase (FinishAnimation "windowOpacity") (_rebuild_file_list entries s).

Definition _after_slide_out (entries : list Entry) (s : Filey) : result :=
  start_phase (FinishAnimation "pos") (_rebuild_file_list entries s).

(** [Filey._on_load_finished]: the slot that receives the list a worker
    emits. *)
Definition _on_load_finished (entries : list Entry) (animate : bool)
    (s : Filey) : result :=
  let s1 := set_full_entry_list entries s in
  if animate then animate_file_list_reload entries s1
  else Ok (_rebuild_file_list entries s1) [].

(** A scan from its start to the delivery of its result: the worker runs on
    the file system [fs], and its list reaches [_on_load_finished]. *)
Definition scan {U : Py.Unicode} (fs : FS) (path : string) (animate : bool)
    (s : Filey) : result :=
  _on_load_finished (Worker.run fs path) animate s.

(** [Filey.search_items] *)
Definition search_items {U : Py.Unicode} (text : string) (s : Filey)
  : Filey * list effect :=
  let text := Py.lower (Py.strip text) in
  if negb (Py.truthy_str text)
  then (_rebuild_file_list (full_entry_list s) s, [])
  else
    let filtered :=
      filter (λ e, Py.contains text (Py.lower (name e)) = true)
             (full_entry_list s) in
    (_rebuild_file_list filtered s, []).

(** [Filey.item_activated] *)
Definition item_activated (item : option Item) (s : Filey)
  : Filey * list effect :=
  match item with
  | None => (s, [])
  | Some it =>
      if data257 it then load_path (data256 it) true true s
      else (s, [OpenExternal (data256 it)])
  end.

(** ** File operations *)

(** The outcome of a mutating OS call: it returns, or it raises an exception
    whose text is [msg]. *)
Inductive os_result := Success | Failure (msg : string).

Definition nl : string := String "010"%char EmptyString.

(** [Filey.create_folder]; [name] and [ok] are the answer of the input
    dialog. *)
Definition create_folder {U : Py.Unicode} (name : string) (ok : bool)
    (mkdir : os_result) (s : Filey) : Filey * list effect :=
  if ok && Py.truthy_str (Py.strip name) then
    let new_path := OsPath.join (current_path s) (Py.strip name) in
    match mkdir with
    | Success =>
        let '(s', tr) := load_path (current_path s) false false s in
        (s', Os (Mkdir new_path) :: tr)
    | Failure e =>
        (s, [Os (Mkdir new_path);
             MessageBox Warning "Error" ("Could not create folder:" +:+ nl +:+ e)])
    end
  else (s, []).

(** [Filey.create_file] *)
Definition create_file {U : Py.Unicode} (fs : FS) (name : string) (ok : bool)
    (open_w : os_result) (s : Filey) : Filey * list effect :=
  if ok && Py.truthy_str (Py.strip name) then
    let new_path := OsPath.join (current_path s) (Py.strip name) in
    if exists_ fs new_path
    then (s, [MessageBox Warning "Error" "File already exists."])
    else
      match open_w with
      | Success =>
          let '(s', tr) := load_path (current_path s) false false s in
          (s', Os (CreateFile new_path) :: tr)
      | Failure e =>
          (s, [Os (CreateFile new_path);
               MessageBox Warning "Error" ("Could not create file:" +:+ nl +:+ e)])
      end
  else (s, []).

(** [Filey.delete_item]; [item] is the current row, [yes] the answer to the
    confirmation. *)
Definition delete_item (item : option Item) (yes : bool) (rm : os_result)
    (s : Filey) : Filey * list effect :=
  match item with
  | None => (s, [MessageBox Information "Delete" "No item selected."])
  | Some it =>
      let path := data256 it in
      let ask :=
        MessageBox Question "Confirm Delete"
          ("Are you sure you want to delete '" +:+ OsPath.basename path +:+ "'?") in
      if yes then
        let call := if data257 it then Rmtree path else Remove path in
        match rm with
        | Success =>
            let '(s', tr) := load_path (current_path s) false false s in
            (s', ask :: Os call :: tr)
        | Failure e =>
            (s, [ask; Os call;
                 MessageBox Warning "Error" ("Could not delete:" +:+ nl +:+ e)])
        end
      else (s, [ask])
  end.

(** [Filey.rename_item] *)
Definition rename_item {U : Py.Unicode} (fs : FS) (item : option Item)
    (new_name : string) (ok : bool) (rename : os_result) (s : Filey)
  : Filey * list effect :=
  match item with
  | None => (s, [MessageBox Information "Rename" "No item selected."])
  | Some it =>
      let old_path := data256 it in
      if ok && Py.truthy_str (Py.strip new_name) then
        let new_path := OsPath.join (current_path s) (Py.strip new_name) in
        if exists_ fs new_path
        then (s, [MessageBox Warning "Error" "Name already exists."])
        else
          match rename with
          | Success =>
              let '(s', tr) := load_path (current_path s) false false s in
              (s', Os (Rename old_path new_path) :: tr)
          | Failure e =>
              (s, [Os (Rename old_path new_path);
                   MessageBox Warning "Error" ("Could not rename:" +:+ nl +:+ e)])
          end
      else (s, [])
  end.

(** [Filey.copy_item] *)
Definition copy_item (item : option Item) (s : Filey) : Filey * list effect :=
  match item with
  | None => (s, [MessageBox Information "Copy" "No item selected."])
  | Some it => (set_clipboard_path (Some (data256 it)) s, [])
  end.

(** The closure [unique_path] of [paste_item].  Its [while True] loop ends
    only at an unused name, so the model counts the rounds it may take:
    [None] is a loop that has not ended within [fuel] rounds. *)
Definition copy_name (base ext : string) (i : Z) : string :=
  base +:+ " - Copy" +:+ Py.str_of_int i +:+ ext.

Fixpoint unique_loop (fs : FS) (fuel : nat) (base ext : string) (i : Z)
  : option string :=
  match fuel with
  | O => None
  | S fuel' =>
      let new_path := copy_name base ext i in
      if negb (exists_ fs new_path) then Some new_path
      else unique_loop fs fuel' base ext (i + 1)
  end.

Definition unique_path (fs : FS) (fuel : nat) (path : string) : option string :=
  if negb (exists_ fs path) then Some path
  else
    let '(base, ext) := OsPath.splitext path in
    unique_loop fs fuel base ext 1.

(** The destination that [paste_item] computes for the clipboard path. *)
Definition paste_dest (s : Filey) (src : string) : string :=
  OsPath.join (current_path s) (OsPath.basename src).

(** [Filey.paste_item]; [None] when [unique_path] has not ended within
    [fuel] rounds. *)
Definition paste_item (fs : FS) (fuel : nat) (copy : os_result) (s : Filey)
  : option (Filey * list effect) :=
  match clipboard_path s with
  | Some src =>
      if Py.truthy_str src && exists_ fs src then
        dest_unique ← unique_path fs fuel (paste_dest s src);
        let call :=
          if isdir fs src then Copytree src dest_unique
          else Copy2 src dest_unique in
        match copy with
        | Success =>
            let '(s', tr) := load_path (current_path s) false false s in
            Some (s', Os call :: tr)
        | Failure e =>
            Some (s, [Os call;
                      MessageBox Warning "Error" ("Could not paste:" +:+ nl +:+ e)])
        end
      else
        Some (s, [MessageBox Information "Paste"
                    "Nothing to paste or source no longer exists."])
  | None =>
      Some (s, [MessageBox Information "Paste"
                  "Nothing to paste or source no longer exists."])
  end.

(** The body of the loop of [Filey.dropEvent] for one dropped URL, whose
    move would have the outcome [move]. *)
Definition drop_one (fs : FS) (target_path : string)
    (url : string * os_result) : list effect :=
  let '(src_path, move) := url in
  let dest_path := OsPath.join target_path (OsPath.basename src_path) in
  if String.eqb (abspath fs src_path) (abspath fs dest_path) then []
  else
    match move with
    | Success => [Os (Move src_path dest_path)]
    | Failure e =>
        [Os (Move src_path dest_path);
         MessageBox Warning "Error" ("Could not move:" +:+ nl +:+ e)]
    end.

(** [Filey.dropEvent]; [target_item] is the row under the pointer. *)
Definition dropEvent (fs : FS) (urls : list (string * os_result))
    (target_item : option Item) (s : Filey) : Filey * list effect :=
  let target_path :=
    match target_item with
    | Some it =>
        if isdir fs (data256 it) then data256 it
        else OsPath.dirname (data256 it)
    | None => current_path s
    end in
  let moves := concat (drop_one fs target_path <$> urls) in
  let '(s', tr) := load_path (current_path s) false true s in
  (s', moves ++ tr).

(** ** The settings store *)

Definition theme_keys : list string :=
  ["background"; "text"; "selected_bg"; "hover_bg"; "tooltip_bg"].

Definition DEFAULT_THEMES_Light : json :=
  JObj (<["background" := JStr "#f0f0f0"]>
       (<["text" := JStr "#202020"]>
       (<["selected_bg" := JStr "#007acc"]>
       (<["hover_bg" := JStr "#cce4f7"]>
       (<["tooltip_bg" := JStr "#eeeeee"]> ∅))))).

Definition DEFAULT_THEMES_Dark : json :=
  JObj (<["background" := JStr "#1e1e1e"]>
       (<["text" := JStr "#dddddd"]>
       (<["selected_bg" := JStr "#007acc"]>
       (<["hover_bg" := JStr "#094771"]>
       (<["tooltip_bg" := JStr "#333333"]> ∅))))).

Section Settings.
(** The content of the settings file, the content that
    [json.dump(data, f, indent=2)] writes, and the document that
    [json.load] reads from a content ([None] when it raises). *)
Context {content : Type}.
Variable json_dump : json → content.
Variable json_load : content → option json.

(** What a failed write leaves of the settings file is not decided by the
    program: it is the [remains] of the outcome. *)
Inductive write_result := Written | WriteFailed (remains : option content).

(** [save_settings]: the content of the settings file afterwards; [None]
    is a file that does not exist. *)
Definition save_settings (data : json) (w : write_result) : option content :=
  match w with
  | Written => Some (json_dump data)
  | WriteFailed remains => remains
  end.

(** [load_settings]; the argument is the content of the settings file. *)
Definition load_settings (file : option content) : option json :=
  match file with
  | Some c => json_load c
  | None => None
  end.
End Settings.

(** [settings.get(key, default)]; [None] is the [AttributeError] of a value
    that has no [get]. *)
Definition json_get (key : string) (dflt : json) (v : json) : option json :=
  match v with
  | JObj m => Some (default dflt (m !! key))
  | _ => None
  end.

(** [theme[key]] for a string key. *)
Definition json_subscript (key : string) (v : json) : exn + json :=
  match v with
  | JObj m => match m !! key with Some x => inr x | None => inl KeyError end
  | _ => inl TypeError
  end.

(** [all(k in theme_loaded for k in DEFAULT_THEMES["Dark"])] *)
Fixpoint all_keys_in (keys : list string) (v : json) : option bool :=
  match keys with
  | [] => Some true
  | k :: keys' =>
      match json_contains k v with
      | None => None
      | Some false => Some false
      | Some true => all_keys_in keys' v
      end
  end.

(** The subscripts of the theme in [theme_to_stylesheet], in the order of
    the f-string. *)
Definition stylesheet_keys : list string :=
  ["background"; "text"; "background"; "selected_bg"; "hover_bg";
   "tooltip_bg"; "text"].

(** The values that [theme_to_stylesheet] reads from the theme, or the
    exception of the first failing subscript. *)
Fixpoint theme_colors (keys : list string) (theme : json) : exn + list json :=
  match keys with
  | [] => inr []
  | k :: keys' =>
      match json_subscript k theme with
      | inl e => inl e
      | inr c =>
          match theme_colors keys' theme with
          | inl e => inl e
          | inr cs => inr (c :: cs)
          end
      end
  end.

(** [Filey.__init__]: the widget after construction, or the exception that
    ends the program.  With a [last_path] that is [null] the widget is
    constructed with [current_path = None] ([path_changed.emit] takes
    [None] for a [str]): a widget without a path, which the states of
    [Filey] do not cover and of which nothing is stated. *)
Inductive init_result :=
| Created (s : Filey) (tr : list effect)
| Crashed (e : exn)
| Pathless.

(** The part of [__init__] after the settings are read: [apply_theme], which
    sets the style sheet and saves the session, and the first [load_path];
    [path] is the value of [self.current_path], which [path_changed.emit]
    accepts when it is a string or [None]. *)
Definition init_widget (path duration type theme : json) : init_result :=
  match theme_colors stylesheet_keys theme with
  | inl e => Crashed e
  | inr colors =>
      match path with
      | JStr p =>
          let s0 := mkFiley p duration type theme [] (-1) None [] [] false in
          let '(s1, tr) := load_path p true false s0 in
          Created s1
            (SetStyleSheet colors :: SaveSettings (session_data s0) :: tr)
      | JNull => Pathless
      | _ => Crashed TypeError
      end
  end.

(** [Filey.__init__]; [home] is [os.path.expanduser("~")] and [settings] is
    what [load_settings()] returned. *)
Definition init (home : string) (settings : option json) : init_result :=
  match settings with
  | Some doc =>
      if truthy doc then
        match json_get "last_path" (JStr home) doc,
              json_get "anim_duration" (JInt 200) doc,
              json_get "anim_type" (JStr "Fade") doc,
              json_get "theme" DEFAULT_THEMES_Dark doc with
        | Some path, Some duration, Some type, Some theme_loaded =>
            match all_keys_in theme_keys theme_loaded with
            | None => Crashed TypeError
            | Some true => init_widget path duration type theme_loaded
            | Some false => init_widget path duration type DEFAULT_THEMES_Dark
            end
        | _, _, _, _ => Crashed AttributeError
        end
      else init_widget (JStr home) (JInt 200) (JStr "Fade") DEFAULT_THEMES_Dark
  | None => init_widget (JStr home) (JInt 200) (JStr "Fade") DEFAULT_THEMES_Dark
  end.

(** ** Navigation as a sequence of operations

    A push is [load_path] with [add_history=True] (a folder is opened, or
    the widget is constructed); back and forward are the two buttons of the
    window. *)

Inductive nav_op :=
| Push (path : string) (animate : bool)
| Back
| Forward.

Definition nav_step (op : nav_op) (s : Filey) : result :=
  match op with
  | Push path animate =>
      let '(s', tr) := load_path path true animate s in Ok s' tr
  | Back => go_back s
  | Forward => go_forward s
  end.

(** The operations run in order; an exception ends the run. *)
Fixpoint nav_run (ops : list nav_op) (s : Filey) : result :=
  match ops with
  | [] => Ok s []
  | op :: ops' =>
      match nav_step op s with
      | Ok s' tr =>
          match nav_run ops' s' with
          | Ok s'' tr' => Ok s'' (tr ++ tr')
          | Raise e s'' tr' => Raise e s'' (tr ++ tr')
          end
      | Raise e s' tr => Raise e s' tr
      end
  end.

(** The history of a widget before its first [load_path]. *)
Definition empty_history (s : Filey) : Prop :=
  history s = [] ∧ history_index s = -1.

(** The cursor is an index into the entries. *)
Definition cursor_in_range (s : Filey) : Prop :=
  0 <= history_index s < Z.of_nat (length (history s)).

(** The cursor is an index into the entries, or the history is empty and
    the cursor is [-1]. *)
Definition history_wf (s : Filey) : Prop :=
  empty_history s ∨ cursor_in_range s.

Definition is_push (op : nav_op) : bool :=
  match op with Push _ _ => true | _ => false end.

(** ** Sample data for the examples *)

(** A widget as [__init__] has set it up just before its first
    [load_path]. *)
Definition fresh (path : string) : Filey :=
  mkFiley path (JInt 200) (JStr "Fade") DEFAULT_THEMES_Dark [] (-1) None [] []
    false.

(** The file system of the examples: the directory [/home/u] lists two
    folders, two regular files (the size of [b.txt] cannot be read) and a
    dangling link. *)
Definition sample_fs : FS :=
  {| listdir p :=
       if String.eqb p "/home/u"
       then Some ["b.txt"; "Docs"; "a.txt"; "link"; "apps"]
       else None;
     isdir p :=
       String.eqb p "/home/u" || String.eqb p "/home/u/Docs" ||
       String.eqb p "/home/u/apps";
     isfile p := String.eqb p "/home/u/a.txt" || String.eqb p "/home/u/b.txt";
     getsize p := if String.eqb p "/home/u/a.txt" then Some 1536 else None;
     exists_ p :=
       String.eqb p "/home/u" || String.eqb p "/home/u/Docs" ||
       String.eqb p "/home/u/apps" || String.eqb p "/home/u/a.txt" ||
       String.eqb p "/home/u/b.txt";
     abspath p := p |}.

(** A widget that shows the entries of a finished scan. *)
Definition listed (path : string) (entries : list Entry) : Filey :=
  _rebuild_file_list entries (set_full_entry_list entries (fresh path)).

(** The three entries of the search example, and two entries of which only
    one has a blank in its name. *)
Definition search_entries : list Entry :=
  [ mkEntry "Apps" "/home/u/Apps" true "";
    mkEntry "app.txt" "/home/u/app.txt" false "1.5 KB";
    mkEntry "readme.md" "/home/u/readme.md" false "2.0 KB" ].

Definition blank_entries : list Entry :=
  [ mkEntry "a b" "/home/u/a b" false "";
    mkEntry "ab" "/home/u/ab" false "" ].

(** The file system after a successful [shutil.copy2] to [dst]: [dst] exists
    and is a regular file. *)
Definition fs_with_file (dst : string) (fs : FS) : FS :=
  {| listdir := listdir fs;
     isdir := isdir fs;
     isfile p := String.eqb p dst || isfile fs p;
     getsize := getsize fs;
     exists_ p := String.eqb p dst || exists_ fs p;
     abspath := abspath fs |}.

(** A folder that holds [note.txt], and a widget that shows the folder with
    the file on its clipboard. *)
Definition note_fs : FS :=
  {| listdir p := if String.eqb p "/home/u" then Some ["note.txt"] else None;
     isdir p := String.eqb p "/home/u";
     isfile p := String.eqb p "/home/u/note.txt";
     getsize p := if String.eqb p "/home/u/note.txt" then Some 12 else None;
     exists_ p := String.eqb p "/home/u" || String.eqb p "/home/u/note.txt";
     abspath p := p |}.

Definition note_widget : Filey :=
  set_clipboard_path (Some "/home/u/note.txt") (fresh "/home/u").

(** The same folder once a folder [new] has been made in it. *)
Definition note_fs_new : FS :=
  {| listdir p :=
       if String.eqb p "/home/u" then Some ["note.txt"; "new"]
       else if String.eqb p "/home/u/new" then Some []
       else None;
     isdir p := String.eqb p "/home/u" || String.eqb p "/home/u/new";
     isfile p := String.eqb p "/home/u/note.txt";
     getsize p := if String.eqb p "/home/u/note.txt" then Some 12 else None;
     exists_ p :=
       String.eqb p "/home/u" || String.eqb p "/home/u/note.txt" ||
       String.eqb p "/home/u/new";
     abspath p := p |}.

(** The widget that shows the folder of [note.txt] after its scan. *)
Definition note_shown : Filey :=
  listed "/home/u" (Worker.run note_fs "/home/u").

(** ** The events of a session

    Each constructor is one slot of the widget or of the window, with the
    answers of the outside world that the slot reads: the row it is invoked
    on, the input of a dialog, the outcome of an OS call, the list a worker
    emits. *)

Definition set_has_parent (b : bool) (s : Filey) : Filey :=
  mkFiley (current_path s) (anim_duration s) (anim_type s) (current_theme s)
    (history s) (history_index s) (clipboard_path s) (full_entry_list s)
    (items s) b.

Definition set_animation (duration type : json) (s : Filey) : Filey :=
  mkFiley (current_path s) duration type (current_theme s) (history s)
    (history_index s) (clipboard_path s) (full_entry_list s) (items s)
    (has_parent s).

(** [FileyWindow.open_animation_settings].  The constructor of the dialog
    passes [anim_type] to [setCurrentText], which raises when it is neither
    a [str] nor [None]; [anim_duration] is only formatted into a text.
    [duration] and [type] are what [AnimationSettingsDialog.get_settings]
    returns: the number in the text of the first combo box and the text of
    the second. *)
Definition open_animation_settings (accepted : bool) (duration : Z)
    (type : string) (s : Filey) : result :=
  match setCurrentText (anim_type s) with
  | Some e => Raise e s []
  | None =>
      if accepted then
        let s' := set_animation (JInt duration) (JStr type) s in
        Ok s' [SaveSettings (session_data s')]
      else Ok s []
  end.

Inductive ui_event :=
| EvActivate (item : option Item)
| EvBack
| EvForward
| EvSearch (query : string)
| EvCreateFolder (name : string) (ok : bool) (mkdir : os_result)
| EvCreateFile (name : string) (ok : bool) (open_w : os_result)
| EvDelete (item : option Item) (yes : bool) (rm : os_result)
| EvRename (item : option Item) (new_name : string) (ok : bool)
    (rename : os_result)
| EvCopy (item : option Item)
| EvPaste (fuel : nat) (copy : os_result)
| EvDrop (urls : list (string * os_result)) (target_item : option Item)
| EvLoadFinished (entries : list Entry) (animate : bool)
| EvFadeOutFinished (entries : list Entry)
| EvSlideOutFinished (entries : list Entry)
| EvAnimationSettings (accepted : bool) (duration : Z) (type : string).

Definition ok_of (r : Filey * list effect) : result := Ok r.1 r.2.

(** The slot that an event runs, on the file system [fs] of that moment;
    [None] when the loop of [unique_path] has not ended. *)
Definition handle {U : Py.Unicode} (fs : FS) (ev : ui_event) (s : Filey)
  : option result :=
  match ev with
  | EvActivate item => Some (ok_of (item_activated item s))
  | EvBack => Some (go_back s)
  | EvForward => Some (go_forward s)
  | EvSearch query => Some (ok_of (search_items query s))
  | EvCreateFolder name ok mkdir => Some (ok_of (create_folder name ok mkdir s))
  | EvCreateFile name ok open_w =>
      Some (ok_of (create_file fs name ok open_w s))
  | EvDelete item yes rm => Some (ok_of (delete_item item yes rm s))
  | EvRename item new_name ok rename =>
      Some (ok_of (rename_item fs item new_name ok rename s))
  | EvCopy item => Some (ok_of (copy_item item s))
  | EvPaste fuel copy => ok_of <$> paste_item fs fuel copy s
  | EvDrop urls target_item => Some (ok_of (dropEvent fs urls target_item s))
  | EvLoadFinished entries animate =>
      Some (_on_load_finished entries animate s)
  | EvFadeOutFinished entries => Some (_after_fade_out entries s)
  | EvSlideOutFinished entries => Some (_after_slide_out entries s)
  | EvAnimationSettings accepted duration type =>
      Some (open_animation_settings accepted duration type s)
  end.

(** The events of a session in order, each with the file system it meets;
    an exception ends the session. *)
Fixpoint session {U : Py.Unicode} (evs : list (FS * ui_event)) (s : Filey)
  : option result :=
  match evs with
  | [] => Some (Ok s [])
  | (fs, ev) :: evs' =>
      match handle fs ev s with
      | Some (Ok s' tr) =>
          match session evs' s' with
          | Some (Ok s'' tr') => Some (Ok s'' (tr ++ tr'))
          | Some (Raise e s'' tr') => Some (Raise e s'' (tr ++ tr'))
          | None => None
          end
      | r => r
      end
  end.

(** The history, the cursor and the shown path are the same in two
    states. *)
Definition same_place (s s' : Filey) : Prop :=
  history s' = history s ∧ history_index s' = history_index s ∧
  current_path s' = current_path s.

(** The path under the cursor is the path that is shown. *)
Definition shows_cursor (s : Filey) : Prop :=
  Py.index (history s) (history_index s) = Some (current_path s).

(** ** The window: [FileyWindow] *)











(** ** Sample sessions for the examples *)

(** The widget that [__init__] constructs without a settings file, once the
    window has taken it. *)
Definition started (home : string) : Filey :=
  match init home None with
  | Created s _ => set_has_parent true s
  | _ => fresh home
  end.

(** The same widget as [__init__] returns it, before the window takes
    it. *)
Definition fresh_started (home : string) : Filey :=
  match init home None with
  | Created s _ => s
  | _ => fresh home
  end.

Definition docs_item : Item := mkItem "Docs" true "/home/u/Docs" true.
Definition a_txt_item : Item := mkItem "a.txt (1.5 KB)" false "/home/u/a.txt" false.

(** The first scan arrives, a folder is opened, back, forward, back, a
    folder is made, and a file is copied and pasted. *)
Definition sample_events : list (FS * ui_event) :=
  [ (sample_fs, EvLoadFinished (Worker.run sample_fs "/home/u") false);
    (sample_fs, EvActivate (Some docs_item));
    (sample_fs, EvBack);
    (sample_fs, EvForward);
    (sample_fs, EvBack);
    (sample_fs, EvCreateFolder "new" true Success);
    (sample_fs, EvCopy (Some a_txt_item));
    (sample_fs, EvPaste 2 Success) ].

Definition sample_result : result :=
  match session sample_events (started "/home/u") with
  | Some r => r
  | None => Ok (started "/home/u") []
  end.

(** The widget after a folder was opened from the start folder. *)
Definition in_docs : Filey :=
  (load_path "/home/u/Docs" true true (started "/home/u")).1.

(** The effects of a slot that the window reacts to carry the path and the
    button states of the state the slot leaves. *)
Definition follows (s' : Filey) (tr : list effect) : Prop :=
  ∀ e, e ∈ tr →
    match e with
    | PathChanged p => p = current_path s'
    | UpdateNavButtons _ _ => e = update_nav_buttons s'
    | _ => True
    end.






(** The kind of an effect, for the statements about traces. *)
Definition is_warning (e : effect) : bool :=
  match e with MessageBox Warning _ _ => true | _ => false end.

Definition is_os (e : effect) : bool :=
  match e with Os _ => true | _ => false end.

Definition is_scan (e : effect) : bool :=
  match e with StartScan _ _ => true | _ => false end.

(** The text that ends in the message of the exception. *)
Definition ends_with (suffix s : string) : Prop := ∃ pre, s = pre +:+ suffix.

(** A name without a separator, as [os.listdir] returns them:
    [name.rfind('/') == -1]. *)
Definition no_sep (name : string) : Prop := Py.rfind OsPath.sep name = -1.

(** ** The tool tip: [Filey.event] *)

(** The names that the preview shows: [c.startswith('.')] is false. *)
Definition visible (c : string) : Prop := String.prefix "." c = false.

(** The text of the preview: the first five visible names, joined, with
    dots when there are more. *)
Definition preview_text (content : list string) : string :=
  let content := filter visible content in
  String.concat ", " (take 5 content) +:+
  (if (5 <? length content)%nat then ", ..." else "").

(** [Filey.event] on a tool tip event over the row [item]: the text that
    [QToolTip.showText] is called with, or [None] when the slot calls
    [QToolTip.hideText]. *)
Definition tooltip (fs : FS) (item : option Item) : option string :=
  match item with
  | Some it =>
      if isdir fs (data256 it) then
        match listdir fs (data256 it) with
        | Some content => Some (preview_text content)
        | None => None
        end
      else None
  | None => None
  end.
(** ** What a slot leaves alone *)

(** The events that set the clipboard, deliver a scan, change the filter
    text, and accept the animation dialog. *)
Definition is_copy (ev : ui_event) : bool :=
  match ev with EvCopy (Some _) => true | _ => false end.

Definition delivers (ev : ui_event) : bool :=
  match ev with
  | EvLoadFinished _ _ | EvFadeOutFinished _ | EvSlideOutFinished _ => true
  | _ => false
  end.

Definition is_search (ev : ui_event) : bool :=
  match ev with EvSearch _ => true | _ => false end.

Definition is_settings (ev : ui_event) : bool :=
  match ev with EvAnimationSettings true _ _ => true | _ => false end.

(** The animation settings are values that Qt accepts: [setDuration] takes
    the duration, and the constructor of the dialog takes the type. *)
Definition valid_animation (s : Filey) : Prop :=
  setDuration (anim_duration s) = None ∧
  setCurrentText (anim_type s) = None.

(** What the accepted animation dialog can answer: an entry of each of its
    two combo boxes, which are not editable. *)
Definition dialog_answer (ev : ui_event) : Prop :=
  match ev with
  | EvAnimationSettings true duration type =>
      duration ∈ [100; 200; 400; 800] ∧ type ∈ ["Fade"; "Slide"; "None"]
  | _ => True
  end.

(** The clipboard, the stored scan, the rows and the animation settings are
    the same in two states. *)
Definition same_view (s s' : Filey) : Prop :=
  clipboard_path s' = clipboard_path s ∧
  full_entry_list s' = full_entry_list s ∧
  items s' = items s ∧
  anim_duration s' = anim_duration s ∧
  anim_type s' = anim_type s.

(** A folder whose listing holds names that differ only in case, listed in
    two orders that agree on the names of equal lower-case form. *)
Definition tie_fs (listing : list string) : FS :=
  {| listdir p := if String.eqb p "/t" then Some listing else None;
     isdir p := String.eqb p "/t/lib";
     isfile p := negb (String.eqb p "/t/lib");
     getsize p := None;
     exists_ p := true;
     abspath p := p |}.

Definition tie_listing : list string := ["b.txt"; "lib"; "B.txt"; "a.txt"].
Definition tie_listing' : list string := ["a.txt"; "b.txt"; "lib"; "B.txt"].

(** The row of [note.txt], and a session on the widget that has it on its
    clipboard: a paste, the deletion of the file, a second paste, and a
    folder that cannot be made. *)
Definition note_item : Item :=
  mkItem "note.txt (12.0 B)" false "/home/u/note.txt" false.

Definition frame_events : list (FS * ui_event) :=
  [ (note_fs, EvPaste 2 Success);
    (note_fs, EvDelete (Some note_item) true Success);
    (fs_with_file "/home/u/note - Copy1.txt" note_fs, EvPaste 2 Success);
    (note_fs, EvCreateFolder "new" true (Failure "denied")) ].

Definition frame_result : result :=
  match session frame_events note_widget with
  | Some r => r
  | None => Ok note_widget []
  end.

Definition copied_note : Filey :=
  (copy_item (Some note_item) (fresh "/home/u")).1.

(** * Properties *)

(** An effect of one kind is not in a trace made of effects of other
    kinds. *)
Ltac not_in_trace :=
  let H := fresh "H" in
  intros H;
  repeat (apply elem_of_cons in H as [H|H]; [discriminate H|]);
  by apply elem_of_nil in H.

(** ** Python built-ins *)

Lemma slice_to_nonneg {A} (l : list A) (k : Z) :
  0 <= k → Py.slice_to l k = take (Z.to_nat k) l.
Proof.
  intros Hk. unfold Py.slice_to.
  destruct (Z.ltb_spec k 0); [lia | reflexivity].
Qed.

Lemma index_in_range {A} (l : list A) (i : Z) :
  0 <= i < Z.of_nat (length l) → Py.index l i = l !! Z.to_nat i.
Proof.
  intros Hi. unfold Py.index.
  destruct (Z.ltb_spec i 0); [lia | reflexivity].
Qed.

Lemma index_is_Some {A} (l : list A) (i : Z) :
  0 <= i < Z.of_nat (length l) → is_Some (Py.index l i).
Proof.
  intros Hi. rewrite index_in_range by done.
  apply lookup_lt_is_Some. lia.
Qed.

(** ** The navigation history *)

Section History.
Implicit Types (s : Filey) (p : string).

Lemma load_path_no_history p animate s :
  history (load_path p false animate s).1 = history s ∧
  history_index (load_path p false animate s).1 = history_index s ∧
  current_path (load_path p false animate s).1 = p.
Proof. done. Qed.

Lemma push_history p animate s :
  -1 <= history_index s →
  history (load_path p true animate s).1 =
    take (Z.to_nat (history_index s + 1)) (history s) ++ [p] ∧
  history_index (load_path p true animate s).1 = history_index s + 1 ∧
  current_path (load_path p true animate s).1 = p.
Proof.
  intros Hi. cbn. rewrite slice_to_nonneg by lia. done.
Qed.

Lemma push_cursor_in_range p animate s :
  history_wf s → cursor_in_range (load_path p true animate s).1.
Proof.
  intros Hwf. unfold cursor_in_range.
  destruct (push_history p animate s) as (-> & -> & _).
  { destruct Hwf as [[_ ->] | ?]; [lia | unfold cursor_in_range in *; lia]. }
  rewrite length_app, length_take. cbn.
  destruct Hwf as [[Hh Hi] | Hr].
  - rewrite Hh, Hi. cbn. lia.
  - unfold cursor_in_range in Hr. lia.
Qed.

Lemma go_back_at_start s :
  history_index s <= 0 → go_back s = Ok s [].
Proof.
  intros Hi. unfold go_back.
  destruct (Z.ltb_spec 0 (history_index s)); [lia | done].
Qed.

Lemma go_back_moves s :
  0 < history_index s < Z.of_nat (length (history s)) →
  ∃ p s' tr,
    history s !! Z.to_nat (history_index s - 1) = Some p ∧
    go_back s = Ok s' tr ∧
    history s' = history s ∧
    history_index s' = history_index s - 1 ∧
    current_path s' = p.
Proof.
  intros Hi. unfold go_back.
  destruct (Z.ltb_spec 0 (history_index s)); [|lia].
  cbn. rewrite index_in_range by lia.
  destruct (lookup_lt_is_Some_2 (history s) (Z.to_nat (history_index s - 1)))
    as [p Hp]; [lia|].
  rewrite Hp. eexists p, _, _. done.
Qed.

Lemma go_forward_at_end s :
  Z.of_nat (length (history s)) - 1 <= history_index s →
  go_forward s = Ok s [].
Proof.
  intros Hi. unfold go_forward.
  destruct (Z.ltb_spec (history_index s) (Z.of_nat (length (history s)) - 1));
    [lia | done].
Qed.

Lemma go_forward_moves s :
  -1 <= history_index s < Z.of_nat (length (history s)) - 1 →
  ∃ p s' tr,
    history s !! Z.to_nat (history_index s + 1) = Some p ∧
    go_forward s = Ok s' tr ∧
    history s' = history s ∧
    history_index s' = history_index s + 1 ∧
    current_path s' = p.
Proof.
  intros Hi. unfold go_forward.
  destruct (Z.ltb_spec (history_index s) (Z.of_nat (length (history s)) - 1));
    [|lia].
  cbn. rewrite index_in_range by lia.
  destruct (lookup_lt_is_Some_2 (history s) (Z.to_nat (history_index s + 1)))
    as [p Hp]; [lia|].
  rewrite Hp. eexists p, _, _. done.
Qed.

(** Every operation keeps a well-formed history well-formed, raises
    nothing, and leaves the cursor in range once it was. *)
Lemma nav_step_wf op s :
  history_wf s →
  ∃ s' tr, nav_step op s = Ok s' tr ∧ history_wf s' ∧
           (cursor_in_range s ∨ is_push op = true → cursor_in_range s').
Proof.
  intros Hwf. destruct op as [p a| |]; cbn [nav_step is_push].
  - pose proof (push_cursor_in_range p a s Hwf) as Hr.
    destruct (load_path p true a s) as [s' tr] eqn:E. cbn in Hr.
    exists s', tr. split; [done|]. split; [by right | done].
  - destruct (Z.le_gt_cases (history_index s) 0) as [Hle|Hgt].
    + rewrite go_back_at_start by done. exists s, []. intuition discriminate.
    + destruct Hwf as [[_ Hi]|Hr]; [lia|].
      destruct (go_back_moves s) as (p & s' & tr & _ & -> & Hh & Hi & _).
      { unfold cursor_in_range in Hr. lia. }
      exists s', tr. split; [done|].
      assert (cursor_in_range s') as Hr'.
      { unfold cursor_in_range in *. rewrite Hh, Hi. lia. }
      split; [by right | done].
  - destruct (Z.le_gt_cases (Z.of_nat (length (history s)) - 1)
                (history_index s)) as [Hle|Hgt].
    + rewrite go_forward_at_end by done. exists s, []. intuition discriminate.
    + destruct (go_forward_moves s) as (p & s' & tr & _ & -> & Hh & Hi & _).
      { destruct Hwf as [[_ Hi]|Hr]; [lia|].
        unfold cursor_in_range in Hr. lia. }
      exists s', tr. split; [done|].
      assert (cursor_in_range s') as Hr'.
      { unfold cursor_in_range. rewrite Hh, Hi.
        destruct Hwf as [[_ Hi']|Hr]; [lia|].
        unfold cursor_in_range in Hr. lia. }
      split; [by right | done].
Qed.

Lemma nav_run_wf ops s :
  history_wf s →
  ∃ s' tr, nav_run ops s = Ok s' tr ∧ history_wf s' ∧
           (cursor_in_range s ∨ existsb is_push ops = true →
            cursor_in_range s').
Proof.
  revert s. induction ops as [|op ops IH]; intros s Hwf; cbn [nav_run existsb].
  - exists s, []. intuition discriminate.
  - destruct (nav_step_wf op s Hwf) as (s1 & tr1 & -> & Hwf1 & Hr1).
    destruct (IH s1 Hwf1) as (s2 & tr2 & -> & Hwf2 & Hr2).
    exists s2, (tr1 ++ tr2). split; [done|]. split; [done|].
    intros [Hr | Hp]; apply Hr2.
    + left. apply Hr1. by left.
    + apply orb_true_iff in Hp as [Hp|Hp]; [left; apply Hr1; by right | by right].
Qed.
End History.

(** C1. Whatever navigation operations have run since the history was
    empty: a push keeps the entries up to the cursor, appends the path and
    moves the cursor one up; back does nothing at cursor 0 (or below) and
    otherwise moves the cursor one down and loads the path found there;
    forward does nothing at the last index and otherwise moves the cursor one
    up and loads the path found there; neither back nor forward changes the
    entries.  Pushing [a], [b], [c], going back twice and pushing [d] leaves
    the entries [[a; d]] with the cursor at 1, where forward does nothing. *)
Theorem history_operations (s0 : Filey) (ops : list nav_op) :
  empty_history s0 →
  ∃ s tr, nav_run ops s0 = Ok s tr ∧
    (∀ p animate,
       let s' := (load_path p true animate s).1 in
       history s' = take (Z.to_nat (history_index s + 1)) (history s) ++ [p] ∧
       history_index s' = history_index s + 1 ∧
       current_path s' = p) ∧
    (history_index s <= 0 → go_back s = Ok s []) ∧
    (0 < history_index s →
       ∃ p s' tr',
         history s !! Z.to_nat (history_index s - 1) = Some p ∧
         go_back s = Ok s' tr' ∧
         history s' = history s ∧
         history_index s' = history_index s - 1 ∧
         current_path s' = p) ∧
    (history_index s = Z.of_nat (length (history s)) - 1 →
       go_forward s = Ok s []) ∧
    (history_index s ≠ Z.of_nat (length (history s)) - 1 →
       ∃ p s' tr',
         history s !! Z.to_nat (history_index s + 1) = Some p ∧
         go_forward s = Ok s' tr' ∧
         history s' = history s ∧
         history_index s' = history_index s + 1 ∧
         current_path s' = p) ∧
    (∀ a b c d an1 an2 an3 an4,
       ∃ s4 tr4,
         nav_run [Push a an1; Push b an2; Push c an3; Back; Back; Push d an4] s0
           = Ok s4 tr4 ∧
         history s4 = [a; d] ∧
         history_index s4 = 1 ∧
         go_forward s4 = Ok s4 []).
Proof.
  intros Hempty.
  destruct (nav_run_wf ops s0) as (s & tr & Hrun & Hwf & _); [by left|].
  exists s, tr. split; [done|].
  assert (-1 <= history_index s < Z.of_nat (length (history s))) as Hi.
  { destruct Hwf as [[Hh Hi]|Hr]; [rewrite Hh, Hi; cbn; lia|].
    unfold cursor_in_range in Hr. lia. }
  split; [intros p animate; apply push_history; lia|].
  split; [apply go_back_at_start|].
  split; [intros ?; apply go_back_moves; lia|].
  split; [intros ?; apply go_forward_at_end; lia|].
  split; [intros ?; apply go_forward_moves; lia|].
  intros a b c d an1 an2 an3 an4.
  destruct s0 as [cp ad aty th h i cb fl its hp].
  destruct Hempty as [Hh Hidx]. cbn in Hh, Hidx. subst h i.
  cbv -[session_data].
  eexists _, _. repeat split; reflexivity.
Qed.

Lemma history_operations_witness :
  ∃ s tr, nav_run [Push "/home/u/docs" true; Back] (fresh "/home/u") = Ok s tr ∧
    (∀ p animate,
       let s' := (load_path p true animate s).1 in
       history s' = take (Z.to_nat (history_index s + 1)) (history s) ++ [p] ∧
       history_index s' = history_index s + 1 ∧
       current_path s' = p) ∧
    (history_index s <= 0 → go_back s = Ok s []) ∧
    (0 < history_index s →
       ∃ p s' tr',
         history s !! Z.to_nat (history_index s - 1) = Some p ∧
         go_back s = Ok s' tr' ∧
         history s' = history s ∧
         history_index s' = history_index s - 1 ∧
         current_path s' = p) ∧
    (history_index s = Z.of_nat (length (history s)) - 1 →
       go_forward s = Ok s []) ∧
    (history_index s ≠ Z.of_nat (length (history s)) - 1 →
       ∃ p s' tr',
         history s !! Z.to_nat (history_index s + 1) = Some p ∧
         go_forward s = Ok s' tr' ∧
         history s' = history s ∧
         history_index s' = history_index s + 1 ∧
         current_path s' = p) ∧
    (∀ a b c d an1 an2 an3 an4,
       ∃ s4 tr4,
         nav_run [Push a an1; Push b an2; Push c an3; Back; Back; Push d an4]
           (fresh "/home/u") = Ok s4 tr4 ∧
         history s4 = [a; d] ∧
         history_index s4 = 1 ∧
         go_forward s4 = Ok s4 []).
Proof.
  apply (history_operations (fresh "/home/u") [Push "/home/u/docs" true; Back]).
  split; reflexivity.
Defined.

(** C2. Once a navigation has occurred the cursor is an index into the
    entries: the first push on an empty history establishes
    [0 <= cursor < length entries], every operation (push, back, forward)
    on a state that satisfies it yields a state that satisfies it, and so
    does every further sequence of operations. *)
Theorem cursor_invariant (s : Filey) (op : nav_op) (ops : list nav_op) :
  (empty_history s ∧ is_push op = true) ∨ cursor_in_range s →
  ∃ s' tr,
    nav_step op s = Ok s' tr ∧ cursor_in_range s' ∧
    ∃ s'' tr', nav_run ops s' = Ok s'' tr' ∧ cursor_in_range s''.
Proof.
  intros H.
  destruct (nav_step_wf op s) as (s' & tr & Hstep & Hwf' & Hr').
  { destruct H as [[? _]|?]; [by left | by right]. }
  assert (cursor_in_range s') as Hr.
  { apply Hr'. destruct H as [[_ ?]|?]; [by right | by left]. }
  exists s', tr. split; [done|]. split; [done|].
  destruct (nav_run_wf ops s' Hwf') as (s'' & tr' & Hrun & _ & Hr'').
  exists s'', tr'. split; [done|]. apply Hr''. by left.
Qed.

Lemma cursor_invariant_witness :
  ∃ s' tr,
    nav_step (Push "/home/u" false) (fresh "/home/u") = Ok s' tr ∧
    cursor_in_range s' ∧
    ∃ s'' tr',
      nav_run [Push "/home/u/docs" true; Back; Back; Forward] s' = Ok s'' tr' ∧
      cursor_in_range s''.
Proof.
  apply (cursor_invariant (fresh "/home/u") (Push "/home/u" false)).
  left. split; [split|]; reflexivity.
Defined.

(** ** Sorting by a key *)

Section SortByFacts.
Variable key : string → string.

Lemma leb_refl (a : string) : String.leb a a = true.
Proof.
  apply Is_true_true. change (String.le a a). reflexivity.
Qed.

Lemma leb_trans (a b c : string) :
  String.leb a b = true → String.leb b c = true → String.leb a c = true.
Proof.
  intros Hab Hbc. apply Is_true_true.
  change (String.le a c). transitivity b; apply Is_true_true; assumption.
Qed.

Lemma leb_false_flip (a b : string) :
  String.leb a b = false → String.leb b a = true.
Proof.
  intros Hab. destruct (String.leb_total a b) as [H|H]; congruence.
Qed.

Lemma insert_by_Permutation (x : string) (l : list string) :
  insert_by key x l ≡ₚ x :: l.
Proof.
  induction l as [|y l IH]; cbn; [done|].
  destruct (String.leb (key x) (key y)); [done|].
  rewrite IH. apply Permutation_swap.
Qed.

Lemma sort_by_Permutation (l : list string) : sort_by key l ≡ₚ l.
Proof.
  induction l as [|x l IH]; cbn; [done|].
  by rewrite insert_by_Permutation, IH.
Qed.

Lemma insert_by_StronglySorted (x : string) (l : list string) :
  StronglySorted (le_key key) l → StronglySorted (le_key key) (insert_by key x l).
Proof.
  induction 1 as [|y l Hs IH Hall]; cbn.
  - repeat constructor.
  - destruct (String.leb (key x) (key y)) eqn:E.
    + constructor; [by constructor|].
      constructor; [done|].
      eapply Forall_impl; [exact Hall|].
      intros z Hz. unfold le_key in *. by eapply leb_trans.
    + constructor; [done|].
      rewrite insert_by_Permutation. constructor; [|done].
      by apply leb_false_flip.
Qed.

Lemma sort_by_StronglySorted (l : list string) :
  StronglySorted (le_key key) (sort_by key l).
Proof.
  induction l as [|x l IH]; cbn; [constructor|].
  by apply insert_by_StronglySorted.
Qed.

(** Stability: the elements of one key keep their order. *)
Lemma insert_by_stable (k x : string) (l : list string) :
  filter (λ a, key a = k) (insert_by key x l) =
  filter (λ a, key a = k) (x :: l).
Proof.
  induction l as [|y l IH]; cbn; [done|].
  destruct (String.leb (key x) (key y)) eqn:E; [done|].
  rewrite !filter_cons in *.
  destruct (decide (key y = k)) as [Hy|Hy];
    destruct (decide (key x = k)) as [Hx|Hx]; rewrite IH; try done.
  rewrite Hx, <- Hy, leb_refl in E. done.
Qed.

Lemma sort_by_stable (k : string) (l : list string) :
  filter (λ a, key a = k) (sort_by key l) = filter (λ a, key a = k) l.
Proof.
  induction l as [|x l IH]; cbn; [done|].
  rewrite insert_by_stable, !filter_cons, IH. done.
Qed.
End SortByFacts.

(** ** The size formatter *)

Lemma round_half_even_le (a b : Z) : round_half_even a b <= a / b + 1.
Proof.
  unfold round_half_even.
  destruct (2 * (a mod b) <? b), (b <? 2 * (a mod b)), (Z.even (a / b)); lia.
Qed.

Lemma float_of_int_is_Some (n : Z) :
  Z.abs n < 2 ^ 1023 → is_Some (float_of_int n).
Proof.
  intros Hn. unfold float_of_int.
  set (a := Z.abs n) in *.
  set (bits := if a =? 0 then 0 else Z.log2 a + 1).
  assert (2 ^ 1024 = 2 * 2 ^ 1023) as Hpow by (by rewrite <- Z.pow_succ_r).
  destruct (bits <=? 53) eqn:Hb.
  - destruct (Z.ltb_spec a (2 ^ 1024)); [by eexists | lia].
  - apply Z.leb_gt in Hb.
    assert (0 < a) as Ha.
    { subst bits. destruct (Z.eqb_spec a 0); lia. }
    assert (bits = Z.log2 a + 1) as Hbits.
    { subst bits. destruct (Z.eqb_spec a 0); lia. }
    set (sh := bits - 53).
    assert (0 < 2 ^ sh) as Hpos by (apply Z.pow_pos_nonneg; lia).
    assert (2 ^ sh <= a) as Hsh.
    { transitivity (2 ^ Z.log2 a); [|apply Z.log2_spec; lia].
      apply Z.pow_le_mono_r; lia. }
    pose proof (round_half_even_le a (2 ^ sh)) as Hr.
    pose proof (Z.mul_div_le a (2 ^ sh) Hpos) as Hd.
    assert (round_half_even a (2 ^ sh) * 2 ^ sh < 2 ^ 1024) as Hlt by nia.
    destruct (Z.ltb_spec (round_half_even a (2 ^ sh) * 2 ^ sh) (2 ^ 1024));
      [by eexists | lia].
Qed.

Lemma sizeof_loop_Float_is_Some (us : list string) (m e : Z) (suffix : string) :
  is_Some (sizeof_loop us (Float m e) suffix).
Proof.
  revert e. induction us as [|unit us IH]; intros e; cbn.
  - by eexists.
  - destruct (Z.abs m <? 1024 * 2 ^ e); [by eexists | apply IH].
Qed.

(** The sizes that [os.path.getsize] can return are formatted without an
    exception. *)
Lemma sizeof_fmt_is_Some (n : Z) :
  Z.abs n < 2 ^ 1023 → is_Some (sizeof_fmt n).
Proof.
  intros Hn. destruct (float_of_int_is_Some n Hn) as [m Hm].
  unfold sizeof_fmt, units.
  change (is_Some
    (if abs_lt_1024 (Int n)
     then t ← format_1f (Int n); Some (t +:+ " " +:+ "" +:+ "B")
     else x' ← div_1024 (Int n);
          sizeof_loop ["K"; "M"; "G"; "T"; "P"; "E"; "Z"] x' "B")).
  unfold format_1f, div_1024. rewrite Hm.
  destruct (abs_lt_1024 (Int n)); [by eexists|].
  apply sizeof_loop_Float_is_Some.
Qed.

Example sizeof_fmt_examples :
  sizeof_fmt 0 = Some "0.0 B" ∧
  sizeof_fmt 1023 = Some "1023.0 B" ∧
  sizeof_fmt 1536 = Some "1.5 KB" ∧
  sizeof_fmt 1048575 = Some "1024.0 KB" ∧
  sizeof_fmt (2 ^ 63 - 1) = Some "8.0 EB".
Proof. repeat split; vm_compute; reflexivity. Qed.

(** ** The directory scanner *)

Section Scanner.
Context {U : Py.Unicode}.
Variable fs : FS.
Variable path : string.

Lemma run_listed (entries : list string) :
  listdir fs path = Some entries →
  Worker.run fs path =
    (Worker.folder_entry path <$>
       sort_by Py.lower (Worker.folders_of fs path entries)) ++
    (Worker.file_entry fs path <$>
       sort_by Py.lower (Worker.files_of fs path entries)).
Proof. intros H. unfold Worker.run. by rewrite H. Qed.

Lemma run_failed : listdir fs path = None → Worker.run fs path = [].
Proof. intros H. unfold Worker.run. by rewrite H. Qed.

Lemma elem_of_sorted_folders (entries : list string) (e : string) :
  e ∈ sort_by Py.lower (Worker.folders_of fs path entries) ↔
  e ∈ entries ∧ isdir fs (OsPath.join path e) = true.
Proof.
  rewrite sort_by_Permutation. unfold Worker.folders_of.
  by rewrite list_elem_of_filter, (comm and).
Qed.

Lemma elem_of_sorted_files (entries : list string) (e : string) :
  e ∈ sort_by Py.lower (Worker.files_of fs path entries) ↔
  e ∈ entries ∧ isdir fs (OsPath.join path e) = false ∧
  isfile fs (OsPath.join path e) = true.
Proof.
  rewrite sort_by_Permutation. unfold Worker.files_of.
  rewrite list_elem_of_filter. tauto.
Qed.
End Scanner.

Lemma length_filter_split {A} (P Q : A → Prop)
    `{!∀ x, Decision (P x)} `{!∀ x, Decision (Q x)} (l : list A) :
  (∀ x, P x ↔ ¬ Q x) →
  length l = (length (filter P l) + length (filter Q l))%nat.
Proof.
  intros HPQ. induction l as [|x l IH]; [done|].
  rewrite !filter_cons.
  destruct (decide (P x)) as [HP|HP], (decide (Q x)) as [HQ|HQ]; cbn;
    try lia.
  - by apply HPQ in HP.
  - destruct HP. by apply HPQ.
Qed.

Lemma name_folder_entry (path : string) (l : list string) :
  name <$> (Worker.folder_entry path <$> l) = l.
Proof. induction l as [|x l IH]; cbn; [done | by rewrite IH]. Qed.

Lemma name_file_entry (fs : FS) (path : string) (l : list string) :
  name <$> (Worker.file_entry fs path <$> l) = l.
Proof. induction l as [|x l IH]; cbn; [done | by rewrite IH]. Qed.

Lemma filter_file_entry (fs : FS) (path : string) (P : string → Prop)
    `{!∀ x, Decision (P x)} (l : list string) :
  filter (λ x, P (full_path x)) (Worker.file_entry fs path <$> l) =
  Worker.file_entry fs path <$> filter (λ f, P (OsPath.join path f)) l.
Proof.
  induction l as [|f l IH]; [done|].
  rewrite fmap_cons, !filter_cons, IH. cbn [Worker.file_entry full_path].
  by destruct (decide _).
Qed.

(** C3. When the directory can be listed, the result of the scanner is a
    list of folder entries followed by a list of file entries.  The folder
    entries are, one each, the listed names that [os.path.isdir] accepts,
    and the file entries the other listed names that [os.path.isfile]
    accepts; the names of each group are in the order of [str.lower], the
    key of the sort.  With N listed files whose size can be read and K
    whose size cannot, the file entries are N+K, of which N have a size
    that can be read and K have not; the size text of a file whose size
    cannot be read is empty, and the size text of a file whose size can be
    read is the formatted size. *)
Theorem scan_order {U : Py.Unicode} (fs : FS) (path : string)
    (entries : list string) :
  listdir fs path = Some entries →
  ∃ folders files : list Entry,
    Worker.run fs path = folders ++ files ∧
    Forall (λ x, is_folder x = true ∧ size_text x = "") folders ∧
    Forall (λ x, is_folder x = false) files ∧
    Forall (λ x, full_path x = OsPath.join path (name x)) (folders ++ files) ∧
    name <$> folders ≡ₚ
      filter (λ e, isdir fs (OsPath.join path e) = true) entries ∧
    name <$> files ≡ₚ
      filter (λ e, isdir fs (OsPath.join path e) = false ∧
                   isfile fs (OsPath.join path e) = true) entries ∧
    StronglySorted le_lower (name <$> folders) ∧
    StronglySorted le_lower (name <$> files) ∧
    length (filter (λ x, is_Some (getsize fs (full_path x))) files) =
      length (filter (λ e, (isdir fs (OsPath.join path e) = false ∧
                            isfile fs (OsPath.join path e) = true) ∧
                           is_Some (getsize fs (OsPath.join path e)))
                     entries) ∧
    length (filter (λ x, getsize fs (full_path x) = None) files) =
      length (filter (λ e, (isdir fs (OsPath.join path e) = false ∧
                            isfile fs (OsPath.join path e) = true) ∧
                           getsize fs (OsPath.join path e) = None)
                     entries) ∧
    length files =
      (length (filter (λ x, is_Some (getsize fs (full_path x))) files) +
       length (filter (λ x, getsize fs (full_path x) = None) files))%nat ∧
    (∀ x, x ∈ files →
       getsize fs (full_path x) = None → size_text x = "") ∧
    (∀ x n, x ∈ files →
       getsize fs (full_path x) = Some n →
       0 <= n < 2 ^ 63 →
       sizeof_fmt n = Some (size_text x)).
Proof.
  intros Hls.
  set (F := sort_by Py.lower (Worker.folders_of fs path entries)).
  set (G := sort_by Py.lower (Worker.files_of fs path entries)).
  exists (Worker.folder_entry path <$> F), (Worker.file_entry fs path <$> G).
  rewrite name_folder_entry, name_file_entry.
  assert (∀ (P : string → Prop)
            (H1 : ∀ x : Entry, Decision (P (full_path x)))
            (H2 : ∀ e : string,
                    Decision ((isdir fs (OsPath.join path e) = false ∧
                               isfile fs (OsPath.join path e) = true) ∧
                              P (OsPath.join path e))),
            length (@filter _ _ _ (λ x, P (full_path x)) H1
                      (Worker.file_entry fs path <$> G)) =
            length (@filter _ _ _
                      (λ e, (isdir fs (OsPath.join path e) = false ∧
                             isfile fs (OsPath.join path e) = true) ∧
                            P (OsPath.join path e)) H2 entries)) as Hcount.
  { intros P H1 H2.
    assert (∀ p, Decision (P p)) as HP.
    { intros p. destruct (H1 (mkEntry "" p false "")); [by left | by right]. }
    trans (length (@filter _ _ _ (λ x, P (full_path x))
                     (λ x, HP (full_path x))
                     (Worker.file_entry fs path <$> G))).
    { f_equal; by apply list_filter_iff. }
    rewrite (filter_file_entry fs path P), length_fmap.
    unfold G. rewrite sort_by_Permutation. unfold Worker.files_of.
    rewrite list_filter_filter. f_equal. apply list_filter_iff. tauto. }
  split_and!.
  - by apply run_listed.
  - apply Forall_fmap, Forall_true. done.
  - apply Forall_fmap, Forall_true. done.
  - apply Forall_app. split; apply Forall_fmap, Forall_true; done.
  - apply sort_by_Permutation.
  - apply sort_by_Permutation.
  - apply sort_by_StronglySorted.
  - apply sort_by_StronglySorted.
  - apply (Hcount (λ p, is_Some (getsize fs p))).
  - apply (Hcount (λ p, getsize fs p = None)).
  - apply length_filter_split.
    intros x. destruct (getsize fs (full_path x)); split;
      [intros _ ?; done | by eexists | by intros [? ?] | by intros []].
  - intros x (f & -> & _)%list_elem_of_fmap Hsz. cbn in *.
    unfold Worker.size_text_of. by rewrite Hsz.
  - intros x n (f & -> & _)%list_elem_of_fmap Hsz Hn. cbn in *.
    unfold Worker.size_text_of. rewrite Hsz.
    destruct (sizeof_fmt_is_Some n) as [t Ht].
    { assert (2 ^ 63 < 2 ^ 1023) by (apply Z.pow_lt_mono_r; lia). lia. }
    by rewrite Ht.
Qed.

Lemma scan_order_witness :
  ∃ folders files : list Entry,
    Worker.run sample_fs "/home/u" = folders ++ files ∧
    Forall (λ x, is_folder x = true ∧ size_text x = "") folders ∧
    Forall (λ x, is_folder x = false) files ∧
    Forall (λ x, full_path x = OsPath.join "/home/u" (name x))
           (folders ++ files) ∧
    name <$> folders ≡ₚ
      filter (λ e, isdir sample_fs (OsPath.join "/home/u" e) = true)
             ["b.txt"; "Docs"; "a.txt"; "link"; "apps"] ∧
    name <$> files ≡ₚ
      filter (λ e, isdir sample_fs (OsPath.join "/home/u" e) = false ∧
                   isfile sample_fs (OsPath.join "/home/u" e) = true)
             ["b.txt"; "Docs"; "a.txt"; "link"; "apps"] ∧
    StronglySorted le_lower (name <$> folders) ∧
    StronglySorted le_lower (name <$> files) ∧
    length (filter (λ x, is_Some (getsize sample_fs (full_path x))) files) =
      length (filter (λ e, (isdir sample_fs (OsPath.join "/home/u" e) = false ∧
                            isfile sample_fs (OsPath.join "/home/u" e) = true) ∧
                           is_Some (getsize sample_fs (OsPath.join "/home/u" e)))
                     ["b.txt"; "Docs"; "a.txt"; "link"; "apps"]) ∧
    length (filter (λ x, getsize sample_fs (full_path x) = None) files) =
      length (filter (λ e, (isdir sample_fs (OsPath.join "/home/u" e) = false ∧
                            isfile sample_fs (OsPath.join "/home/u" e) = true) ∧
                           getsize sample_fs (OsPath.join "/home/u" e) = None)
                     ["b.txt"; "Docs"; "a.txt"; "link"; "apps"]) ∧
    length files =
      (length (filter (λ x, is_Some (getsize sample_fs (full_path x))) files) +
       length (filter (λ x, getsize sample_fs (full_path x) = None) files))%nat ∧
    (∀ x, x ∈ files →
       getsize sample_fs (full_path x) = None → size_text x = "") ∧
    (∀ x n, x ∈ files →
       getsize sample_fs (full_path x) = Some n →
       0 <= n < 2 ^ 63 →
       sizeof_fmt n = Some (size_text x)).
Proof.
  apply (scan_order sample_fs "/home/u"
           ["b.txt"; "Docs"; "a.txt"; "link"; "apps"]).
  reflexivity.
Defined.

(** The scan of the sample directory, evaluated. *)
Example scan_sample :
  Worker.run sample_fs "/home/u" =
    [ mkEntry "apps" "/home/u/apps" true "";
      mkEntry "Docs" "/home/u/Docs" true "";
      mkEntry "a.txt" "/home/u/a.txt" false "1.5 KB";
      mkEntry "b.txt" "/home/u/b.txt" false "" ].
Proof. vm_compute. reflexivity. Qed.

(** C10. A listed name that is neither a directory nor a regular file is
    not in the result of the scan; every entry of the result is a listed
    name classified as a folder (it is a directory) or as a file (it is not
    a directory and is a regular file). *)
Theorem scan_omits_other {U : Py.Unicode} (fs : FS) (path : string)
    (entries : list string) (e : string) :
  listdir fs path = Some entries →
  isdir fs (OsPath.join path e) = false →
  isfile fs (OsPath.join path e) = false →
  (e ∉ name <$> Worker.run fs path) ∧
  ∀ x, x ∈ Worker.run fs path →
    name x ∈ entries ∧
    full_path x = OsPath.join path (name x) ∧
    if is_folder x then isdir fs (full_path x) = true
    else isdir fs (full_path x) = false ∧ isfile fs (full_path x) = true.
Proof.
  intros Hls Hd Hf. rewrite (run_listed _ _ _ Hls). split.
  - rewrite fmap_app, <- !list_fmap_compose, elem_of_app.
    intros [H|H]; apply list_elem_of_fmap in H as (y & -> & Hy); cbn in *.
    + apply elem_of_sorted_folders in Hy as [_ Hy]. congruence.
    + apply elem_of_sorted_files in Hy as (_ & _ & Hy). congruence.
  - intros x [H|H]%elem_of_app;
      apply list_elem_of_fmap in H as (y & -> & Hy); cbn.
    + apply elem_of_sorted_folders in Hy as [? ?]. done.
    + apply elem_of_sorted_files in Hy as (? & ? & ?). done.
Qed.

Lemma scan_omits_other_witness :
  ("link" ∉ name <$> Worker.run sample_fs "/home/u") ∧
  ∀ x, x ∈ Worker.run sample_fs "/home/u" →
    name x ∈ ["b.txt"; "Docs"; "a.txt"; "link"; "apps"] ∧
    full_path x = OsPath.join "/home/u" (name x) ∧
    if is_folder x then isdir sample_fs (full_path x) = true
    else isdir sample_fs (full_path x) = false ∧
         isfile sample_fs (full_path x) = true.
Proof.
  apply (scan_omits_other sample_fs "/home/u"
           ["b.txt"; "Docs"; "a.txt"; "link"; "apps"] "link");
    reflexivity.
Defined.

(** C6. When the directory cannot be listed, the worker emits the empty
    list; the slot that receives it stores the empty list and shows no
    message, and neither does [load_path]; the widget ends in the very state
    that the scan of a directory without entries leaves. *)
Theorem scan_failure_is_empty {U : Py.Unicode} (fs : FS) (path : string)
    (animate : bool) (s : Filey) :
  listdir fs path = None →
  Worker.run fs path = [] ∧
  full_entry_list (state_of (scan fs path animate s)) = [] ∧
  (∀ kind title body,
     (MessageBox kind title body ∉ trace_of (scan fs path animate s)) ∧
     ∀ add_history,
       MessageBox kind title body ∉ (load_path path add_history animate s).2) ∧
  (∀ fs', listdir fs' path = Some [] →
          scan fs' path animate s = scan fs path animate s).
Proof.
  intros Hls. pose proof (run_failed fs path Hls) as Hrun.
  split; [done|]. unfold scan. rewrite Hrun.
  split.
  { unfold _on_load_finished, animate_file_list_reload, start_phase.
    destruct animate; [|done].
    cbn. repeat case_match; done. }
  split.
  - intros kind title body. split.
    + unfold _on_load_finished, animate_file_list_reload, start_phase.
      destruct animate; [|cbn; not_in_trace].
      cbn. repeat case_match; cbn; not_in_trace.
    + intros add_history. unfold load_path. cbn.
      destruct (has_parent _); cbn; not_in_trace.
  - intros fs' Hls'. by rewrite (run_listed fs' path [] Hls').
Qed.

Lemma scan_failure_is_empty_witness :
  Worker.run sample_fs "/gone" = [] ∧
  full_entry_list (state_of (scan sample_fs "/gone" true (fresh "/home/u")))
    = [] ∧
  (∀ kind title body,
     (MessageBox kind title body ∉
        trace_of (scan sample_fs "/gone" true (fresh "/home/u"))) ∧
     ∀ add_history,
       MessageBox kind title body ∉
         (load_path "/gone" add_history true (fresh "/home/u")).2) ∧
  (∀ fs', listdir fs' "/gone" = Some [] →
          scan fs' "/gone" true (fresh "/home/u") =
          scan sample_fs "/gone" true (fresh "/home/u")).
Proof.
  apply (scan_failure_is_empty sample_fs "/gone" true (fresh "/home/u")).
  reflexivity.
Defined.

(** ** The search filter *)

Lemma app_cons (c : ascii) (a b : string) :
  String c a +:+ b = String c (a +:+ b).
Proof. reflexivity. Qed.

Lemma prefix_app (a b : string) :
  String.prefix a b = true ↔ ∃ post, b = a +:+ post.
Proof.
  revert b. induction a as [|c a IH]; intros b.
  - split; [intros _; by exists b | by destruct b].
  - destruct b as [|d b]; cbn; [split; [done | by intros [? ?]]|].
    destruct (ascii_dec c d) as [->|Hne].
    + rewrite IH. split; intros [post H]; exists post;
        rewrite ?app_cons in *; congruence.
    + split; [done|]. intros [post H]. rewrite app_cons in H. congruence.
Qed.

(** [Py.contains] is the substring test. *)
Lemma contains_spec (sub s : string) :
  Py.contains sub s = true ↔ ∃ pre post, s = pre +:+ sub +:+ post.
Proof.
  induction s as [|c s IH]; cbn [Py.contains].
  - rewrite orb_false_r, prefix_app. split.
    + intros [post H]. by exists "", post.
    + intros ([|? pre] & post & H); [by exists post | done].
  - rewrite orb_true_iff, prefix_app, IH. split.
    + intros [[post H] | (pre & post & H)].
      * by exists "", post.
      * exists (String c pre), post. by rewrite app_cons, H.
    + intros ([|d pre] & post & H).
      * left. by exists post.
      * right. exists pre, post. rewrite app_cons in H. congruence.
Qed.

Lemma contains_empty (s : string) : Py.contains "" s = true.
Proof. apply contains_spec. by exists "", s. Qed.

(** What [search_items] shows, whatever the text. *)
Lemma filter_empty_needle (needle : string) (key : Entry → string)
    (l : list Entry) :
  needle = "" → filter (λ e, Py.contains needle (key e) = true) l = l.
Proof.
  intros ->. induction l as [|e l IH]; [done|].
  rewrite filter_cons, IH.
  destruct (decide _) as [|Hc]; [done|]. by rewrite contains_empty in Hc.
Qed.

Lemma search_items_shown {U : Py.Unicode} (query : string) (s : Filey) :
  search_items query s =
    (set_items
       (item_of <$>
          filter (λ e, Py.contains (Py.lower (Py.strip query))
                                   (Py.lower (name e)) = true)
                 (full_entry_list s)) s, []).
Proof.
  unfold search_items.
  destruct (Py.lower (Py.strip query)) eqn:Hn; cbn [Py.truthy_str negb];
    [|done].
  unfold _rebuild_file_list. by rewrite filter_empty_needle.
Qed.

(** On ASCII text the needle and the lower-case names are those of the
    ASCII functions. *)
Lemma needle_ascii {U : Py.Unicode} (q : string) :
  Py.is_ascii q = true → Py.is_ascii (Py.ascii_strip q) = true →
  Py.lower (Py.strip q) = Py.ascii_lower (Py.ascii_strip q).
Proof.
  intros Hq Hq'. by rewrite (Py.strip_ascii q Hq), Py.lower_ascii.
Qed.

Lemma filter_names_ascii {U : Py.Unicode} (needle : string) (l : list Entry) :
  Forall (λ e, Py.is_ascii (name e) = true) l →
  filter (λ e, Py.contains needle (Py.lower (name e)) = true) l =
  filter (λ e, Py.contains needle (Py.ascii_lower (name e)) = true) l.
Proof.
  induction 1 as [|e l He Hl IH]; [done|].
  rewrite !filter_cons, IH, (Py.lower_ascii _ He). done.
Qed.

(** The claim C5 as it is worded, with the text taken as typed: it fails on
    a text that ends in a blank.  Of the names [a b] and [ab] only the first
    contains the text [a ] (an [a] and a blank), but the widget shows both
    rows, since it strips the text first. *)
Lemma search_filter_unstripped_counterexample :
  items (search_items "a " (listed "/home/u" blank_entries)).1 ≠
  item_of <$>
    filter (λ e, Py.contains (Py.lower "a ") (Py.lower (name e)) = true)
           (full_entry_list (listed "/home/u" blank_entries)).
Proof. vm_compute. discriminate. Qed.

(** C5, amended. With [needle] the filter text stripped of the whitespace
    around it and put in lower case, filtering rebuilds the rows from the
    entries of the last scan whose lower-case name contains [needle], in
    their order and with their fields, starts no scan and leaves the stored
    scan result as it is; an empty [needle] shows every entry.  Filtering
    [Apps], [app.txt], [readme.md] on [app] shows [Apps] and [app.txt]. *)
Theorem search_filter {U : Py.Unicode} (query : string) (s : Filey) :
  let needle := Py.lower (Py.strip query) in
  let shown :=
    filter (λ e, Py.contains needle (Py.lower (name e)) = true)
           (full_entry_list s) in
  search_items query s = (set_items (item_of <$> shown) s, []) ∧
  sublist shown (full_entry_list s) ∧
  (∀ e, e ∈ shown ↔
        e ∈ full_entry_list s ∧
        ∃ pre post, Py.lower (name e) = pre +:+ needle +:+ post) ∧
  (needle = "" → shown = full_entry_list s) ∧
  full_entry_list (search_items query s).1 = full_entry_list s ∧
  items (search_items "" s).1 = item_of <$> full_entry_list s ∧
  text <$> items (search_items "app" (listed "/home/u" search_entries)).1 =
    ["Apps"; "app.txt (1.5 KB)"] ∧
  data257 <$> items (search_items "app" (listed "/home/u" search_entries)).1 =
    [true; false] ∧
  text <$> items (search_items "" (listed "/home/u" search_entries)).1 =
    ["Apps"; "app.txt (1.5 KB)"; "readme.md (2.0 KB)"].
Proof.
  intros needle shown.
  split; [apply search_items_shown|].
  split; [apply sublist_filter|].
  split.
  { intros e. subst shown. rewrite list_elem_of_filter, contains_spec. tauto. }
  split; [apply filter_empty_needle|].
  split; [by rewrite search_items_shown|].
  split.
  { rewrite search_items_shown. cbn [fst items set_items].
    rewrite filter_empty_needle; [done|].
    by rewrite needle_ascii. }
  assert (∀ q, Py.is_ascii q = true → Py.is_ascii (Py.ascii_strip q) = true →
            items (search_items q (listed "/home/u" search_entries)).1 =
            item_of <$>
              filter (λ e, Py.contains (Py.ascii_lower (Py.ascii_strip q))
                                       (Py.ascii_lower (name e)) = true)
                     search_entries) as Hex.
  { intros q Hq Hq'. rewrite search_items_shown. cbn [fst items set_items].
    rewrite needle_ascii by done.
    change (full_entry_list (listed "/home/u" search_entries))
      with search_entries.
    rewrite filter_names_ascii; [done|]. by repeat constructor. }
  rewrite !Hex by reflexivity.
  repeat split; vm_compute; reflexivity.
Qed.

Lemma search_filter_witness :
  search_items " App " (listed "/home/u" search_entries) =
    (set_items
       (item_of <$>
          filter (λ e, Py.contains "app" (Py.lower (name e)) = true)
                 search_entries)
       (listed "/home/u" search_entries), []) ∧
  ("" = "" →
   filter (λ e, Py.contains "" (Py.lower (name e)) = true) search_entries =
     search_entries).
Proof.
  split.
  - exact (proj1 (search_filter " App " (listed "/home/u" search_entries))).
  - exact (proj1 (proj2 (proj2 (proj2
             (search_filter "  " (listed "/home/u" search_entries)))))).
Defined.

(** ** The paste collision policy *)

Lemma str_of_int_inj (i j : Z) : Py.str_of_int i = Py.str_of_int j → i = j.
Proof.
  unfold Py.str_of_int. intros H.
  apply to_int_inj.
  assert (Some (Z.to_int i) = Some (Z.to_int j)) as [= ->]; [|done].
  by rewrite <- !NilEmpty.isi, H.
Qed.

Lemma length_app_str (a b : string) :
  String.length (a +:+ b) = (String.length a + String.length b)%nat.
Proof. induction a as [|c a IH]; [done|]. rewrite app_cons. cbn. by rewrite IH. Qed.

Lemma app_inj_r (a b t : string) : a +:+ t = b +:+ t → a = b.
Proof.
  revert b. induction a as [|c a IH]; intros [|d b] H; [done| | |].
  - apply (f_equal String.length) in H.
    rewrite !length_app_str in H. cbn in H. lia.
  - apply (f_equal String.length) in H.
    rewrite !length_app_str in H. cbn in H. lia.
  - rewrite !app_cons in H. injection H as -> H. f_equal. by apply IH.
Qed.

Lemma copy_name_inj (base ext : string) (i j : Z) :
  copy_name base ext i = copy_name base ext j → i = j.
Proof.
  unfold copy_name. intros H.
  apply (inj (String.app base)), (inj (String.app " - Copy")) in H.
  by apply app_inj_r, str_of_int_inj in H.
Qed.

Section UniqueLoop.
Variables (fs : FS) (base ext : string).

Lemma unique_loop_least (fuel : nat) (i N : Z) :
  i <= N < i + Z.of_nat fuel →
  exists_ fs (copy_name base ext N) = false →
  (∀ j, i <= j < N → exists_ fs (copy_name base ext j) = true) →
  unique_loop fs fuel base ext i = Some (copy_name base ext N).
Proof.
  revert i. induction fuel as [|fuel IH]; intros i Hi Hfree Hused; [lia|].
  cbn [unique_loop].
  destruct (Z.eq_dec i N) as [->|Hne].
  - by rewrite Hfree.
  - rewrite Hused by lia. cbn. apply IH; [lia | done |].
    intros j Hj. apply Hused. lia.
Qed.

Lemma unique_loop_None (fuel : nat) (i : Z) :
  unique_loop fs fuel base ext i = None →
  ∀ j, i <= j < i + Z.of_nat fuel →
       exists_ fs (copy_name base ext j) = true.
Proof.
  revert i. induction fuel as [|fuel IH]; intros i H j Hj; [lia|].
  cbn [unique_loop] in H.
  destruct (exists_ fs (copy_name base ext i)) eqn:E; [|done].
  destruct (Z.eq_dec j i) as [->|Hne]; [done|].
  apply (IH (i + 1)); [done | lia].
Qed.

Lemma unique_loop_Some (fuel : nat) (i : Z) (p : string) :
  unique_loop fs fuel base ext i = Some p →
  ∃ N, i <= N < i + Z.of_nat fuel ∧ p = copy_name base ext N ∧
       exists_ fs (copy_name base ext N) = false ∧
       ∀ j, i <= j < N → exists_ fs (copy_name base ext j) = true.
Proof.
  revert i. induction fuel as [|fuel IH]; intros i H; [done|].
  cbn [unique_loop] in H.
  destruct (exists_ fs (copy_name base ext i)) eqn:E; cbn in H.
  - destruct (IH _ H) as (N & HN & -> & Hfree & Hused).
    exists N. split; [lia|]. split; [done|]. split; [done|].
    intros j Hj. destruct (Z.eq_dec j i) as [->|Hne]; [done|].
    apply Hused. lia.
  - injection H as <-. exists i. split; [lia|]. split; [done|].
    split; [done|]. intros j Hj. lia.
Qed.

(** On a file system with finitely many paths the loop ends: among the
    first [length existing + 1] names one is unused. *)
Lemma unique_loop_finite (existing : list string) :
  (∀ p, exists_ fs p = true → p ∈ existing) →
  is_Some (unique_loop fs (S (length existing)) base ext 1).
Proof.
  intros Hfin.
  destruct (unique_loop fs (S (length existing)) base ext 1) eqn:E;
    [by eexists|].
  exfalso.
  pose proof (unique_loop_None _ _ E) as Hused.
  set (cands := (λ n : nat, copy_name base ext (Z.of_nat n)) <$>
                  seq 1 (S (length existing))).
  assert (NoDup cands) as Hnd.
  { apply NoDup_fmap_2; [|apply NoDup_seq].
    intros n m H. apply copy_name_inj in H. lia. }
  assert (cands ⊆+ existing) as Hsub.
  { apply NoDup_submseteq; [done|].
    intros p (n & -> & Hn)%list_elem_of_fmap.
    apply elem_of_seq in Hn. apply Hfin, Hused. lia. }
  apply submseteq_length in Hsub.
  unfold cands in Hsub. rewrite length_fmap, length_seq in Hsub. lia.
Qed.
End UniqueLoop.

(** C4. When the destination of a paste exists, the name chosen is the base
    of the destination, then [ - Copy] and a number [N], then the extension,
    where [N] is the smallest positive number whose name is unused; the loop
    that looks for it ends whenever the file system holds finitely many
    paths, and the copy is made to that name.  Pasting [note.txt] into the
    folder that holds it copies to [note - Copy1.txt], and pasting once more
    copies to [note - Copy2.txt]. *)
Theorem paste_collision_name (fs : FS) (s : Filey) (src : string)
    (existing : list string) (copy : os_result) :
  clipboard_path s = Some src →
  Py.truthy_str src = true →
  exists_ fs src = true →
  exists_ fs (paste_dest s src) = true →
  (∀ p, exists_ fs p = true → p ∈ existing) →
  ∃ N base ext,
    OsPath.splitext (paste_dest s src) = (base, ext) ∧
    1 <= N <= Z.of_nat (length existing) + 1 ∧
    exists_ fs (copy_name base ext N) = false ∧
    (∀ i, 1 <= i < N → exists_ fs (copy_name base ext i) = true) ∧
    (∀ fuel, (Z.to_nat N <= fuel)%nat →
       unique_path fs fuel (paste_dest s src) = Some (copy_name base ext N) ∧
       ∃ s' tr,
         paste_item fs fuel copy s =
           Some (s', Os (if isdir fs src
                         then Copytree src (copy_name base ext N)
                         else Copy2 src (copy_name base ext N)) :: tr)) ∧
    ∃ s1 tr1 s2 tr2,
      paste_item note_fs 2 Success note_widget =
        Some (s1, Os (Copy2 "/home/u/note.txt" "/home/u/note - Copy1.txt")
                    :: tr1) ∧
      paste_item (fs_with_file "/home/u/note - Copy1.txt" note_fs) 2 Success s1 =
        Some (s2, Os (Copy2 "/home/u/note.txt" "/home/u/note - Copy2.txt")
                    :: tr2).
Proof.
  intros Hclip Hsrc Hexists Hdest Hfin.
  destruct (OsPath.splitext (paste_dest s src)) as [base ext] eqn:Hsplit.
  destruct (unique_loop_finite fs base ext existing Hfin) as [p Hp].
  destruct (unique_loop_Some _ _ _ _ _ _ Hp) as (N & HN & -> & Hfree & Hused).
  exists N, base, ext.
  split; [done|]. split; [lia|]. split; [done|]. split; [done|].
  assert (∀ fuel, (Z.to_nat N <= fuel)%nat →
            unique_path fs fuel (paste_dest s src) =
              Some (copy_name base ext N)) as Huniq.
  { intros fuel Hfuel. unfold unique_path. rewrite Hdest, Hsplit. cbn.
    apply unique_loop_least; [lia | done | done]. }
  split.
  - intros fuel Hfuel. split; [by apply Huniq|].
    unfold paste_item. rewrite Hclip, Hsrc, Hexists, (Huniq fuel Hfuel).
    cbn [andb mbind option_bind].
    destruct copy; [|by eexists _, _].
    destruct (load_path (current_path s) false false s). by eexists _, _.
  - cbv -[session_data DEFAULT_THEMES_Dark].
    eexists _, _, _, _. split; reflexivity.
Qed.

Lemma paste_collision_name_witness :
  ∃ N base ext,
    OsPath.splitext (paste_dest note_widget "/home/u/note.txt") = (base, ext) ∧
    1 <= N <= Z.of_nat (length ["/home/u"; "/home/u/note.txt"]) + 1 ∧
    exists_ note_fs (copy_name base ext N) = false ∧
    (∀ i, 1 <= i < N → exists_ note_fs (copy_name base ext i) = true) ∧
    (∀ fuel, (Z.to_nat N <= fuel)%nat →
       unique_path note_fs fuel (paste_dest note_widget "/home/u/note.txt") =
         Some (copy_name base ext N) ∧
       ∃ s' tr,
         paste_item note_fs fuel Success note_widget =
           Some (s', Os (if isdir note_fs "/home/u/note.txt"
                         then Copytree "/home/u/note.txt" (copy_name base ext N)
                         else Copy2 "/home/u/note.txt" (copy_name base ext N))
                       :: tr)) ∧
    ∃ s1 tr1 s2 tr2,
      paste_item note_fs 2 Success note_widget =
        Some (s1, Os (Copy2 "/home/u/note.txt" "/home/u/note - Copy1.txt")
                    :: tr1) ∧
      paste_item (fs_with_file "/home/u/note - Copy1.txt" note_fs) 2 Success s1 =
        Some (s2, Os (Copy2 "/home/u/note.txt" "/home/u/note - Copy2.txt")
                    :: tr2).
Proof.
  apply (paste_collision_name note_fs note_widget "/home/u/note.txt"
           ["/home/u"; "/home/u/note.txt"] Success);
    try reflexivity.
  intros p Hp. cbn in Hp.
  apply orb_true_iff in Hp as [Hp|Hp]; apply String.eqb_eq in Hp as ->;
    set_solver.
Defined.

(** ** File operations and the re-scan *)

(** What [load_path] does without a history entry: the path becomes the
    current one, the history is untouched, and one scan of the path is
    started, with the animation flag it was called with. *)
Lemma load_path_rescan (path : string) (animate : bool) (s : Filey) :
  (load_path path false animate s).1 = set_current_path path s ∧
  ∃ nav,
    (load_path path false animate s).2 =
      [PathChanged path] ++ nav ++
      [StartScan path animate;
       SaveSettings (session_data (set_current_path path s))] ∧
    ∀ p a, StartScan p a ∉ nav.
Proof.
  split; [done|]. unfold load_path. cbn.
  destruct (has_parent s).
  - eexists [_]. split; [done|]. intros p a. not_in_trace.
  - exists []. split; [done|]. intros p a. not_in_trace.
Qed.

(** The claim C8 as it is worded asks for a synchronous re-scan: the list
    would show the changed directory when the operation returns.  It does
    not: [load_path] starts the worker and returns.  After a folder is made
    in the folder that holds [note.txt], the rows are still those from
    before ([note.txt] alone), though a scan of the directory now yields
    the new folder too; the rows change when the list of the worker reaches
    [_on_load_finished]. *)
Lemma mutations_rescan_synchronous_counterexample :
  items (create_folder "new" true Success note_shown).1 = items note_shown ∧
  items (create_folder "new" true Success note_shown).1 ≠
    items (state_of (scan note_fs_new "/home/u" false
                       (create_folder "new" true Success note_shown).1)).
Proof. split; [reflexivity|]. vm_compute. discriminate. Qed.

(** C8, amended. On its success path each operation that changes the
    directory ends with [load_path] on the current path, without a history
    entry: after the OS call the trace is that of [load_path], which starts
    one scan of the current path on a worker and does not wait for it, so
    that the rows and the stored scan result are those from before when the
    operation returns.  New folder, new file, delete, rename and paste ask
    for the scan without animation; a drop asks for it with animation. *)
Theorem mutations_rescan {U : Py.Unicode} (fs : FS) (s : Filey) :
  let cur := current_path s in
  let plain := load_path cur false false s in
  let animated := load_path cur false true s in
  (∀ name,
     Py.truthy_str (Py.strip name) = true →
     create_folder name true Success s =
       (plain.1, Os (Mkdir (OsPath.join cur (Py.strip name))) :: plain.2)) ∧
  (∀ name,
     Py.truthy_str (Py.strip name) = true →
     exists_ fs (OsPath.join cur (Py.strip name)) = false →
     create_file fs name true Success s =
       (plain.1, Os (CreateFile (OsPath.join cur (Py.strip name))) :: plain.2)) ∧
  (∀ it,
     ∃ ask call,
       delete_item (Some it) true Success s =
         (plain.1, ask :: Os call :: plain.2) ∧
       call = (if data257 it then Rmtree (data256 it) else Remove (data256 it)) ∧
       ∀ p a, ask ≠ StartScan p a) ∧
  (∀ it new_name,
     Py.truthy_str (Py.strip new_name) = true →
     exists_ fs (OsPath.join cur (Py.strip new_name)) = false →
     rename_item fs (Some it) new_name true Success s =
       (plain.1,
        Os (Rename (data256 it) (OsPath.join cur (Py.strip new_name)))
          :: plain.2)) ∧
  (∀ fuel src dest_unique,
     clipboard_path s = Some src →
     Py.truthy_str src = true →
     exists_ fs src = true →
     unique_path fs fuel (paste_dest s src) = Some dest_unique →
     paste_item fs fuel Success s =
       Some (plain.1,
             Os (if isdir fs src then Copytree src dest_unique
                 else Copy2 src dest_unique) :: plain.2)) ∧
  (∀ urls target_item,
     ∃ moves,
       dropEvent fs urls target_item s = (animated.1, moves ++ animated.2) ∧
       ∀ p a, StartScan p a ∉ moves) ∧
  (∀ p a, StartScan p a ∈ plain.2 ↔ p = cur ∧ a = false) ∧
  (∀ p a, StartScan p a ∈ animated.2 ↔ p = cur ∧ a = true) ∧
  history plain.1 = history s ∧ history animated.1 = history s ∧
  items plain.1 = items s ∧ full_entry_list plain.1 = full_entry_list s ∧
  items animated.1 = items s ∧ full_entry_list animated.1 = full_entry_list s.
Proof.
  intros cur plain animated.
  split.
  { intros name Hname. unfold create_folder. by rewrite Hname. }
  split.
  { intros name Hname Hfree. unfold create_file. fold cur.
    by rewrite Hname, Hfree. }
  split.
  { intros it. eexists _, _. split; [done|]. split; [done|]. done. }
  split.
  { intros it new_name Hname Hfree. unfold rename_item. fold cur.
    by rewrite Hname, Hfree. }
  split.
  { intros fuel src dest_unique Hclip Hsrc Hex Huniq. unfold paste_item.
    by rewrite Hclip, Hsrc, Hex, Huniq. }
  split.
  { intros urls target_item. eexists. split; [done|].
    intros p a. generalize (match target_item with
      | Some it => if isdir fs (data256 it) then data256 it
                   else OsPath.dirname (data256 it)
      | None => current_path s end). intros target_path.
    induction urls as [|[src move] urls IH]; [cbn; not_in_trace|].
    rewrite fmap_cons. cbn [concat]. rewrite elem_of_app.
    intros [H|H]; [|done]. revert H. unfold drop_one.
    destruct (String.eqb _ _); [not_in_trace|].
    destruct move; not_in_trace. }
  assert (∀ animate p a,
            StartScan p a ∈ (load_path cur false animate s).2 ↔
            p = cur ∧ a = animate) as Hscan.
  { intros animate p a.
    destruct (load_path_rescan cur animate s) as (_ & nav & -> & Hnav).
    rewrite !elem_of_app, !elem_of_cons, elem_of_nil. split.
    - intros [[H|H] | [H | [H | [H|H]]]]; try done.
      + by apply Hnav in H.
      + by injection H as -> ->.
    - intros [-> ->]. right. right. by left. }
  split; [apply Hscan|]. split; [apply Hscan|]. done.
Qed.

Lemma mutations_rescan_witness :
  create_folder " new " true Success note_widget =
    ((load_path "/home/u" false false note_widget).1,
     Os (Mkdir "/home/u/new") :: (load_path "/home/u" false false note_widget).2) ∧
  paste_item note_fs 1 Success note_widget =
    Some ((load_path "/home/u" false false note_widget).1,
          Os (Copy2 "/home/u/note.txt" "/home/u/note - Copy1.txt")
            :: (load_path "/home/u" false false note_widget).2) ∧
  (StartScan "/home/u" false ∈ (load_path "/home/u" false false note_widget).2).
Proof.
  destruct (mutations_rescan note_fs note_widget)
    as (Hfolder & _ & _ & _ & Hpaste & _ & Hscan & _).
  split; [exact (Hfolder " new " eq_refl)|].
  split.
  - exact (Hpaste 1%nat "/home/u/note.txt" "/home/u/note - Copy1.txt"
             eq_refl eq_refl eq_refl eq_refl).
  - apply Hscan. split; reflexivity.
Defined.

(** ** The theme in the settings store *)

Lemma all_keys_in_present (keys : list string) (theme : gmap string json) :
  (∀ k, k ∈ keys → is_Some (theme !! k)) →
  all_keys_in keys (JObj theme) = Some true.
Proof.
  induction keys as [|k keys IH]; intros Hall; [done|].
  cbn. rewrite bool_decide_eq_true_2 by (apply Hall; left).
  apply IH. intros k' Hk'. apply Hall. by right.
Qed.

Lemma all_keys_in_missing (keys : list string) (theme : gmap string json)
    (k : string) :
  k ∈ keys → theme !! k = None → all_keys_in keys (JObj theme) = Some false.
Proof.
  intros Hk Hnone. induction keys as [|k' keys IH]; [by apply elem_of_nil in Hk|].
  cbn. destruct (bool_decide (is_Some (theme !! k'))) eqn:E; [|done].
  apply elem_of_cons in Hk as [->|Hk]; [|by apply IH].
  apply bool_decide_eq_true_1 in E. rewrite Hnone in E. by destruct E.
Qed.

Lemma theme_colors_present (keys : list string) (theme : gmap string json) :
  (∀ k, k ∈ keys → is_Some (theme !! k)) →
  ∃ colors, theme_colors keys (JObj theme) = inr colors.
Proof.
  induction keys as [|k keys IH]; intros Hall; [by eexists|].
  cbn. destruct (Hall k) as [c ->]; [left|].
  destruct IH as [cs ->]; [|by eexists].
  intros k' Hk'. apply Hall. by right.
Qed.

Lemma init_widget_created (p : string) (duration type : json)
    (theme : gmap string json) :
  (∀ k, k ∈ theme_keys → is_Some (theme !! k)) →
  ∃ s tr,
    init_widget (JStr p) duration type (JObj theme) = Created s tr ∧
    current_theme s = JObj theme ∧ current_path s = p ∧
    anim_duration s = duration ∧ anim_type s = type.
Proof.
  intros Hall. unfold init_widget.
  destruct (theme_colors_present stylesheet_keys theme) as [colors ->].
  { intros k Hk. apply Hall. revert Hk. unfold stylesheet_keys, theme_keys.
    rewrite !elem_of_cons, !elem_of_nil. tauto. }
  by eexists _, _.
Qed.

Lemma dark_has_all_keys (k : string) :
  k ∈ theme_keys →
  is_Some (match DEFAULT_THEMES_Dark with JObj m => m !! k | _ => None end).
Proof.
  unfold theme_keys. rewrite !elem_of_cons, elem_of_nil.
  intros [->|[->|[->|[->|[->|[]]]]]]; vm_compute; by eexists.
Qed.

Lemma session_data_fields (s : Filey) (d1 d2 d3 d4 : json) :
  truthy (session_data s) = true ∧
  json_get "last_path" d1 (session_data s) = Some (JStr (current_path s)) ∧
  json_get "anim_duration" d2 (session_data s) = Some (anim_duration s) ∧
  json_get "anim_type" d3 (session_data s) = Some (anim_type s) ∧
  json_get "theme" d4 (session_data s) = Some (current_theme s).
Proof.
  unfold session_data. split.
  { cbn [truthy]. by rewrite bool_decide_eq_false_2 by apply insert_non_empty. }
  unfold json_get. by simplify_map_eq.
Qed.

(** C9. A session whose theme is a mapping with the five colour keys is
    saved and read back (by a [json.load] that returns the saved document):
    the widget constructed from it has the identical theme.  A settings
    document whose theme is a mapping that lacks one of the five keys yields
    a widget with the default (dark) theme. *)
Theorem theme_round_trip {content : Type} (json_dump : json → content)
    (json_load : content → option json) (home : string) (s : Filey)
    (theme : gmap string json) :
  json_load (json_dump (session_data s)) = Some (session_data s) →
  current_theme s = JObj theme →
  (∀ k, k ∈ theme_keys → is_Some (theme !! k)) →
  (∃ s' tr,
     init home (load_settings json_load
                  (save_settings json_dump (session_data s) Written))
       = Created s' tr ∧
     current_theme s' = JObj theme) ∧
  (∀ file doc partial k,
     json_load file = Some (JObj doc) →
     doc !! "theme" = Some (JObj partial) →
     k ∈ theme_keys → partial !! k = None →
     (∀ v, doc !! "last_path" = Some v → ∃ p, v = JStr p) →
     ∃ s' tr,
       init home (load_settings json_load (Some file)) = Created s' tr ∧
       current_theme s' = DEFAULT_THEMES_Dark).
Proof.
  intros Hrt Htheme Hkeys. split.
  - cbn [save_settings load_settings]. rewrite Hrt.
    unfold init.
    destruct (session_data_fields s (JStr home) (JInt 200) (JStr "Fade")
                DEFAULT_THEMES_Dark) as (-> & -> & -> & -> & ->).
    rewrite Htheme, (all_keys_in_present _ _ Hkeys).
    destruct (init_widget_created (current_path s) (anim_duration s)
                (anim_type s) theme Hkeys) as (s' & tr & -> & ? & _).
    by exists s', tr.
  - intros file doc partial k Hload Hdoc Hk Hnone Hpath.
    cbn [load_settings]. rewrite Hload. unfold init. cbn [truthy].
    rewrite bool_decide_eq_false_2; [|intros ->; by rewrite lookup_empty in Hdoc].
    cbn [negb json_get]. rewrite Hdoc. cbn [from_option id].
    rewrite (all_keys_in_missing _ _ k Hk Hnone).
    assert (∃ p, default (JStr home) (doc !! "last_path") = JStr p) as [p ->].
    { destruct (doc !! "last_path") as [v|] eqn:E; [|by eexists].
      destruct (Hpath v eq_refl) as [p ->]. by eexists. }
    unfold DEFAULT_THEMES_Dark at 1.
    edestruct init_widget_created as (s' & tr & -> & ? & _).
    { apply dark_has_all_keys. }
    by exists s', tr.
Qed.

Lemma theme_round_trip_witness :
  (∃ s' tr,
     init "/home/u"
       (load_settings (λ c : json, Some c)
          (save_settings (λ d : json, d)
             (session_data (set_current_theme DEFAULT_THEMES_Light note_widget))
             Written))
       = Created s' tr ∧
     current_theme s' = DEFAULT_THEMES_Light) ∧
  (∀ file doc partial k,
     Some file = Some (JObj doc) →
     doc !! "theme" = Some (JObj partial) →
     k ∈ theme_keys → partial !! k = None →
     (∀ v, doc !! "last_path" = Some v → ∃ p, v = JStr p) →
     ∃ s' tr,
       init "/home/u" (load_settings (λ c : json, Some c) (Some file))
         = Created s' tr ∧
       current_theme s' = DEFAULT_THEMES_Dark).
Proof.
  apply (theme_round_trip (λ d : json, d) (λ c : json, Some c) "/home/u"
           (set_current_theme DEFAULT_THEMES_Light note_widget) _).
  - reflexivity.
  - reflexivity.
  - unfold theme_keys. intros k.
    rewrite !elem_of_cons, elem_of_nil.
    intros [->|[->|[->|[->|[->|[]]]]]]; vm_compute; by eexists.
Defined.

(** * Further properties *)

(** ** What a slot leaves alone *)

Lemma same_view_refl (s : Filey) : same_view s s.
Proof. by repeat split. Qed.

Lemma load_path_view (p : string) (add_history animate : bool) (s : Filey) :
  same_view s (load_path p add_history animate s).1.
Proof. unfold load_path. cbn [fst]. by destruct add_history. Qed.

Lemma load_path_view_eq (p : string) (add_history animate : bool)
    (s s' : Filey) (tr : list effect) :
  load_path p add_history animate s = (s', tr) → same_view s s'.
Proof.
  intros H. pose proof (load_path_view p add_history animate s) as Hv.
  by rewrite H in Hv.
Qed.

(** A phase of a transition starts or raises; the state is left as it
    is. *)
Lemma start_phase_state (e : effect) (s : Filey) :
  state_of (start_phase e s) = s.
Proof. unfold start_phase. by destruct (setDuration _). Qed.

Lemma start_phase_cases (e : effect) (s : Filey) :
  setDuration (anim_duration s) = None ∧ start_phase e s = Ok s [e] ∨
  ∃ x, setDuration (anim_duration s) = Some x ∧
       (x = TypeError ∨ x = OverflowError) ∧ start_phase e s = Raise x s [].
Proof.
  unfold start_phase, setDuration.
  destruct (anim_duration s) as [| |n| | |]; try (right; by eauto);
    [by left|].
  destruct (_ && _); [by left | right; by eauto].
Qed.

(** The delivery of a scan leaves the state as it is, but for the stored
    entries and the rows; it ends with an exception only when
    [setDuration] raises. *)
Lemma animate_state (entries : list Entry) (s : Filey) :
  let r := animate_file_list_reload entries s in
  (state_of r = s ∨ state_of r = _rebuild_file_list entries s) ∧
  ∀ e s' tr, r = Raise e s' tr →
    (e = TypeError ∨ e = OverflowError) ∧
    setDuration (anim_duration s) = Some e.
Proof.
  unfold animate_file_list_reload.
  assert (∀ start,
            (state_of (start_phase start s) = s ∨
             state_of (start_phase start s) = _rebuild_file_list entries s) ∧
            ∀ e s' tr, start_phase start s = Raise e s' tr →
              (e = TypeError ∨ e = OverflowError) ∧
              setDuration (anim_duration s) = Some e) as Hphase.
  { intros start. split; [left; apply start_phase_state|].
    intros e s' tr H.
    destruct (start_phase_cases start s) as [[_ E]|(x & Hx & Hk & E)];
      rewrite E in H; [done|]. by injection H as <- _ _. }
  destruct (anim_type s) as [| | |t| |]; try (by split; [left|]).
  destruct (String.eqb_spec t "None") as [->|?]; [by split; [right|]|].
  destruct (String.eqb_spec t "Fade") as [->|?]; [apply Hphase|].
  destruct (String.eqb_spec t "Slide") as [->|?]; [apply Hphase|].
  repeat case_match; simplify_eq; by split; [left|].
Qed.

Lemma _on_load_finished_keeps (entries : list Entry) (animate : bool)
    (s : Filey) :
  let r := _on_load_finished entries animate s in
  clipboard_path (state_of r) = clipboard_path s ∧
  anim_duration (state_of r) = anim_duration s ∧
  anim_type (state_of r) = anim_type s ∧
  same_place s (state_of r) ∧
  has_parent (state_of r) = has_parent s ∧
  ∀ e s' tr, r = Raise e s' tr →
    (e = TypeError ∨ e = OverflowError) ∧
    setDuration (anim_duration s) = Some e.
Proof.
  unfold _on_load_finished. destruct animate; [|by split_and!].
  destruct (animate_state entries (set_full_entry_list entries s))
    as [[->| ->] Hr]; by split_and!.
Qed.

Lemma after_phase_keeps (start : effect) (entries : list Entry) (s : Filey) :
  let r := start_phase start (_rebuild_file_list entries s) in
  clipboard_path (state_of r) = clipboard_path s ∧
  anim_duration (state_of r) = anim_duration s ∧
  anim_type (state_of r) = anim_type s ∧
  same_place s (state_of r) ∧
  has_parent (state_of r) = has_parent s ∧
  ∀ e s' tr, r = Raise e s' tr →
    (e = TypeError ∨ e = OverflowError) ∧
    setDuration (anim_duration s) = Some e.
Proof.
  cbn zeta. rewrite start_phase_state. split_and!; try done.
  intros e s' tr H.
  destruct (start_phase_cases start (_rebuild_file_list entries s))
    as [[_ E]|(x & Hx & Hk & E)]; rewrite E in H; [done|].
  by injection H as <- _ _.
Qed.

Lemma open_animation_settings_keeps (accepted : bool) (duration : Z)
    (type : string) (s : Filey) :
  let r := open_animation_settings accepted duration type s in
  clipboard_path (state_of r) = clipboard_path s ∧
  full_entry_list (state_of r) = full_entry_list s ∧
  items (state_of r) = items s ∧
  same_place s (state_of r) ∧
  has_parent (state_of r) = has_parent s ∧
  (accepted = false →
   anim_duration (state_of r) = anim_duration s ∧
   anim_type (state_of r) = anim_type s) ∧
  (∀ s' tr, r = Ok s' tr → accepted = true →
     anim_duration s' = JInt duration ∧ anim_type s' = JStr type) ∧
  ∀ e s' tr, r = Raise e s' tr →
    e = TypeError ∧ setCurrentText (anim_type s) = Some e ∧ s' = s.
Proof.
  unfold open_animation_settings, setCurrentText.
  destruct (anim_type s) eqn:Et; destruct accepted; cbn [state_of];
    split_and!; try done;
    first [ by intros ? ? [= <- _]
          | by intros ? ? ? [= <- <- _]
          | by intros ? ? ? [=]
          | by intros ? ? [=] ].
Qed.

Ltac view :=
  repeat match goal with
    | |- same_view ?s ?s => apply same_view_refl
    | |- same_view ?s (fst (load_path _ _ _ ?s)) => apply load_path_view
    | |- context [let '(_, _) := load_path ?p ?a ?an ?s in _] =>
        let E := fresh "E" in
        destruct (load_path p a an s) as [? ?] eqn:E;
        apply load_path_view_eq in E; cbn [fst snd]
    | |- context [match ?x with _ => _ end] => destruct x; cbn [fst snd]
    end; try done.

(** What each slot leaves alone. *)
Lemma handle_view {U : Py.Unicode} (fs : FS) (ev : ui_event) (s : Filey)
    (r : result) :
  handle fs ev s = Some r →
  let s' := state_of r in
  (is_copy ev = false → clipboard_path s' = clipboard_path s) ∧
  (delivers ev = false → full_entry_list s' = full_entry_list s) ∧
  (delivers ev = false → is_search ev = false → items s' = items s) ∧
  (is_settings ev = false →
   anim_duration s' = anim_duration s ∧ anim_type s' = anim_type s).
Proof.
  assert (∀ s1, same_view s s1 →
            (is_copy ev = false → clipboard_path s1 = clipboard_path s) ∧
            (delivers ev = false → full_entry_list s1 = full_entry_list s) ∧
            (delivers ev = false → is_search ev = false →
             items s1 = items s) ∧
            (is_settings ev = false →
             anim_duration s1 = anim_duration s ∧ anim_type s1 = anim_type s))
    as Hsame.
  { by intros s1 (? & ? & ? & ? & ?). }
  destruct ev; cbn [handle]; intros H.
  - injection H as <-. apply Hsame. unfold item_activated, ok_of. cbn.
    view.
  - injection H as <-. apply Hsame. unfold go_back.
    destruct (0 <? history_index s); [|view].
    destruct (Py.index _ _); [|done].
    cbn [state_of]. view.
  - injection H as <-. apply Hsame. unfold go_forward.
    destruct (_ <? _); [|view].
    destruct (Py.index _ _); [|done].
    cbn [state_of]. view.
  - injection H as <-. unfold search_items, ok_of. cbn [state_of fst].
    destruct (negb _); done.
  - injection H as <-. apply Hsame. unfold create_folder, ok_of. cbn. view.
  - injection H as <-. apply Hsame. unfold create_file, ok_of. cbn. view.
  - injection H as <-. apply Hsame. unfold delete_item, ok_of. cbn. view.
  - injection H as <-. apply Hsame. unfold rename_item, ok_of. cbn. view.
  - injection H as <-. unfold copy_item, ok_of. cbn [state_of fst].
    destruct item; done.
  - destruct (paste_item fs fuel copy s) as [[s1 tr1]|] eqn:E; [|done].
    injection H as <-. apply Hsame. cbn. revert E. unfold paste_item.
    destruct (clipboard_path s); [|by intros [= <- _]].
    destruct (_ && _); [|by intros [= <- _]].
    destruct (unique_path _ _ _); [|done]. cbn [mbind option_bind].
    destruct copy; [|by intros [= <- _]].
    destruct (load_path _ _ _ _) eqn:E. intros [= <- _].
    by apply load_path_view_eq in E.
  - injection H as <-. apply Hsame. unfold dropEvent, ok_of.
    cbn [state_of]. view.
  - injection H as <-. cbn [delivers].
    pose proof (_on_load_finished_keeps entries animate s)
      as (? & ? & ? & _).
    by split_and!.
  - injection H as <-. cbn [delivers]. unfold _after_fade_out.
    pose proof (after_phase_keeps (FinishAnimation "windowOpacity") entries s)
      as (? & ? & ? & _).
    by split_and!.
  - injection H as <-. cbn [delivers]. unfold _after_slide_out.
    pose proof (after_phase_keeps (FinishAnimation "pos") entries s)
      as (? & ? & ? & _).
    by split_and!.
  - injection H as <-.
    pose proof (open_animation_settings_keeps accepted duration type s)
      as (? & ? & ? & _ & _ & Hno & _).
    split_and!; try done.
    destruct accepted; [done|]. intros _. by apply Hno.
Qed.

(** ** Sessions: what every slot keeps *)

Lemma same_place_load_path (s : Filey) (animate : bool) :
  same_place s (load_path (current_path s) false animate s).1.
Proof. done. Qed.

(** Whatever the event, the slot leaves the history, the cursor and the
    shown path alone (and if it raises, it is on an animation setting that
    Qt does not accept), or it is a push, or it is one of the two
    buttons. *)
Lemma handle_moves {U : Py.Unicode} (fs : FS) (ev : ui_event) (s : Filey)
    (r : result) :
  handle fs ev s = Some r →
  (same_place s (state_of r) ∧
   ∀ e s' tr, r = Raise e s' tr →
     (e = TypeError ∨ e = OverflowError) ∧ ¬ valid_animation s) ∨
  (∃ p a, r = ok_of (load_path p true a s)) ∨
  r = go_back s ∨ r = go_forward s.
Proof.
  assert (∀ x : Filey * list effect, same_place s x.1 →
            same_place s (state_of (ok_of x)) ∧
            ∀ e s' tr, ok_of x = Raise e s' tr →
              (e = TypeError ∨ e = OverflowError) ∧ ¬ valid_animation s)
    as Hok by (by intros [? ?] ?).
  destruct ev; cbn [handle]; intros [= <-] || intros H.
  - destruct item as [it|]; cbn; [|left; by apply (Hok (s, []))].
    destruct (data257 it); [right; left; by eexists _, _|].
    left. by apply (Hok (s, [_])).
  - right; right; by left.
  - right; right; by right.
  - left. apply Hok. unfold search_items. by case_match.
  - left. apply Hok. unfold create_folder. repeat case_match;
      unfold load_path in *; simplify_eq; done.
  - left. apply Hok. unfold create_file. repeat case_match;
      unfold load_path in *; simplify_eq; done.
  - left. apply Hok. unfold delete_item. repeat case_match;
      unfold load_path in *; simplify_eq; done.
  - left. apply Hok. unfold rename_item. repeat case_match;
      unfold load_path in *; simplify_eq; done.
  - left. apply Hok. unfold copy_item. by case_match.
  - left. unfold paste_item in H.
    destruct (clipboard_path s) as [src|];
      [|injection H as <-; by apply (Hok (s, [_]))].
    destruct (Py.truthy_str src && exists_ fs src);
      [|injection H as <-; by apply (Hok (s, [_]))].
    destruct (unique_path fs fuel (paste_dest s src)); [|done].
    cbn in H. destruct copy; injection H as <-; by apply (Hok (_, _)).
  - left. apply Hok. unfold dropEvent. done.
  - left.
    pose proof (_on_load_finished_keeps entries animate s)
      as (_ & _ & _ & ? & _ & Hr).
    split; [done|]. intros e s' tr E. destruct (Hr e s' tr E) as [? Hd].
    split; [done|]. intros [Hv _]. congruence.
  - left. unfold _after_fade_out.
    pose proof (after_phase_keeps (FinishAnimation "windowOpacity") entries s)
      as (_ & _ & _ & ? & _ & Hr).
    split; [done|]. intros e s' tr E. destruct (Hr e s' tr E) as [? Hd].
    split; [done|]. intros [Hv _]. congruence.
  - left. unfold _after_slide_out.
    pose proof (after_phase_keeps (FinishAnimation "pos") entries s)
      as (_ & _ & _ & ? & _ & Hr).
    split; [done|]. intros e s' tr E. destruct (Hr e s' tr E) as [? Hd].
    split; [done|]. intros [Hv _]. congruence.
  - left.
    pose proof (open_animation_settings_keeps accepted duration type s)
      as (_ & _ & _ & ? & _ & _ & _ & Hr).
    split; [done|]. intros e s' tr E. destruct (Hr e s' tr E) as (-> & Hd & _).
    split; [by left|]. intros [_ Hv]. congruence.
Qed.

Lemma shows_cursor_same_place (s s' : Filey) :
  same_place s s' → shows_cursor s → shows_cursor s'.
Proof. intros (Hh & Hi & Hp). unfold shows_cursor. by rewrite Hh, Hi, Hp. Qed.

Lemma cursor_in_range_same_place (s s' : Filey) :
  same_place s s' → cursor_in_range s → cursor_in_range s'.
Proof. intros (Hh & Hi & _). unfold cursor_in_range. by rewrite Hh, Hi. Qed.

Lemma push_shows_cursor (p : string) (animate : bool) (s : Filey) :
  history_wf s → shows_cursor (load_path p true animate s).1.
Proof.
  intros Hwf.
  assert (-1 <= history_index s < Z.of_nat (length (history s))) as Hi.
  { destruct Hwf as [[Hh Hi]|Hr]; [rewrite Hh, Hi; cbn; lia|].
    unfold cursor_in_range in Hr. lia. }
  unfold shows_cursor.
  destruct (push_history p animate s) as (-> & -> & ->); [lia|].
  rewrite index_in_range.
  - rewrite lookup_app_r; rewrite length_take; [|lia].
    replace (_ - _)%nat with 0%nat by lia. done.
  - rewrite length_app, length_take. cbn. lia.
Qed.

(** A slot on a state whose cursor is in range and shows the current path
    leaves such a state; it never raises [IndexError]. *)
Lemma handle_keeps {U : Py.Unicode} (fs : FS) (ev : ui_event) (s : Filey)
    (r : result) :
  cursor_in_range s → shows_cursor s →
  handle fs ev s = Some r →
  cursor_in_range (state_of r) ∧ shows_cursor (state_of r) ∧
  ∀ e s' tr, r = Raise e s' tr →
    (e = TypeError ∨ e = OverflowError) ∧ ¬ valid_animation s.
Proof.
  intros Hr Hs H.
  destruct (handle_moves fs ev s r H)
    as [[Hsame Hraise] | [(p & a & ->) | [-> | ->]]].
  - split; [by eapply cursor_in_range_same_place|].
    split; [by eapply shows_cursor_same_place | done].
  - unfold ok_of. cbn [state_of].
    split; [apply push_cursor_in_range; by right|].
    split; [apply push_shows_cursor; by right | done].
  - destruct (Z.le_gt_cases (history_index s) 0) as [Hle|Hgt].
    + rewrite go_back_at_start by done. done.
    + destruct (go_back_moves s) as (p & s' & tr & Hp & -> & Hh & Hi & Hc).
      { unfold cursor_in_range in Hr. lia. }
      cbn [state_of]. unfold cursor_in_range, shows_cursor in *.
      rewrite Hh, Hi, Hc. split; [lia|]. split; [|done].
      rewrite index_in_range by lia. done.
  - destruct (Z.le_gt_cases (Z.of_nat (length (history s)) - 1)
                (history_index s)) as [Hle|Hgt].
    + rewrite go_forward_at_end by done. done.
    + destruct (go_forward_moves s) as (p & s' & tr & Hp & -> & Hh & Hi & Hc).
      { unfold cursor_in_range in Hr. lia. }
      cbn [state_of]. unfold cursor_in_range, shows_cursor in *.
      rewrite Hh, Hi, Hc. split; [lia|]. split; [|done].
      rewrite index_in_range by lia. done.
Qed.

(** Animation settings that Qt accepts stay so: only the dialog changes
    them, to entries of its combo boxes. *)
Lemma handle_valid {U : Py.Unicode} (fs : FS) (ev : ui_event) (s : Filey)
    (r : result) :
  valid_animation s → dialog_answer ev →
  handle fs ev s = Some r →
  valid_animation (state_of r).
Proof.
  intros Hv Hd H.
  destruct (is_settings ev) eqn:E.
  - destruct ev; try done. destruct accepted; [|done].
    injection H as <-.
    pose proof (open_animation_settings_keeps true duration type s)
      as (_ & _ & _ & _ & _ & _ & Hok & Hr).
    destruct (open_animation_settings true duration type s) as [s' tr|e s' tr].
    + destruct (Hok s' tr eq_refl eq_refl) as [Hdur Hty].
      unfold valid_animation. cbn [state_of]. rewrite Hdur, Hty.
      split; [|done]. cbn in Hd. destruct Hd as [Hd _].
      revert Hd. rewrite !elem_of_cons, elem_of_nil.
      intros [->|[->|[->|[->|[]]]]]; reflexivity.
    + destruct (Hr e s' tr eq_refl) as (_ & _ & ->). done.
  - destruct (handle_view fs ev s r H) as (_ & _ & _ & Ha).
    destruct (Ha E) as [Hdur Hty]. unfold valid_animation.
    by rewrite Hdur, Hty.
Qed.

Lemma session_keeps {U : Py.Unicode} (evs : list (FS * ui_event)) (s : Filey)
    (r : result) :
  cursor_in_range s → shows_cursor s →
  session evs s = Some r →
  cursor_in_range (state_of r) ∧ shows_cursor (state_of r) ∧
  (∀ e s' tr, r = Raise e s' tr → e = TypeError ∨ e = OverflowError) ∧
  (valid_animation s → Forall (λ x, dialog_answer x.2) evs →
   ∃ s' tr, r = Ok s' tr).
Proof.
  revert s r. induction evs as [|[fs ev] evs IH]; intros s r Hr Hs H.
  - injection H as <-. split_and!; [done | done | done |].
    intros _ _. by exists s, [].
  - cbn [session] in H.
    destruct (handle fs ev s) as [r1|] eqn:E; [|done].
    destruct (handle_keeps fs ev s r1 Hr Hs E) as (Hr1 & Hs1 & Hraise).
    pose proof (λ Hv Hd, handle_valid fs ev s r1 Hv Hd E) as Hvalid.
    destruct r1 as [s1 tr1|e1 s1 tr1]; cbn [state_of] in *.
    + destruct (session evs s1) as [r2|] eqn:E2; [|done].
      destruct (IH s1 r2 Hr1 Hs1 E2) as (Hr2 & Hs2 & Hraise2 & Hok2).
      assert (state_of r = state_of r2 ∧
              (∀ e s' tr, r = Raise e s' tr → ∃ tr', r2 = Raise e s' tr') ∧
              (∀ s' tr, r2 = Ok s' tr → ∃ tr', r = Ok s' tr'))
        as (-> & Hsame & Hsame').
      { destruct r2; injection H as <-;
          (split_and!; [done | intros ? ? ? Hx | intros ? ? Hx]);
          simplify_eq; by eexists. }
      split_and!; [done | done | |].
      * intros e s' tr Hx. destruct (Hsame e s' tr Hx) as [tr' Hx'].
        by eapply Hraise2.
      * intros Hv [Hd Hds]%Forall_cons.
        destruct Hok2 as (s' & tr & Hx); [by apply Hvalid | done |].
        destruct (Hsame' s' tr Hx) as [tr' ->]. by eexists _, _.
    + injection H as <-. cbn [state_of].
      destruct (Hraise e1 s1 tr1 eq_refl) as [He Hinvalid].
      split_and!; [done | done | by intros ? ? ? [= <- _ _] |].
      intros Hv _. done.
Qed.

(** What [__init__] leaves when it returns: one history entry, the path
    that is shown, with the cursor on it; no parent yet. *)
Lemma init_widget_history (path duration type theme : json) (s : Filey)
    (tr : list effect) :
  init_widget path duration type theme = Created s tr →
  history s = [current_path s] ∧ history_index s = 0 ∧
  path = JStr (current_path s) ∧ anim_duration s = duration ∧
  anim_type s = type ∧ current_theme s = theme ∧
  clipboard_path s = None ∧ full_entry_list s = [] ∧ items s = [] ∧
  has_parent s = false.
Proof.
  unfold init_widget. destruct (theme_colors _ _); [done|].
  destruct path; try done. intros [= <- _]. done.
Qed.

Lemma init_history (home : string) (settings : option json) (s : Filey)
    (tr : list effect) :
  init home settings = Created s tr →
  history s = [current_path s] ∧ history_index s = 0.
Proof.
  unfold init. intros H.
  repeat case_match; try done;
    apply init_widget_history in H; by destruct H as (? & ? & _).
Qed.

(** X1. From the construction of the widget on (with or without the window
    as its parent), whatever events follow, with whatever answers of the
    outside world: the cursor is an index into the history and the entry
    under the cursor is the path that is shown, also in the state that an
    exception leaves.  The history is never indexed out of range: the only
    exceptions that end a session are the [TypeError] and the
    [OverflowError] of an animation duration or type from the settings file
    that Qt does not accept, raised when a transition starts or when the
    animation dialog opens.  When the widget starts with a duration and a
    type that Qt accepts (as the defaults are) and the dialog answers with
    entries of its combo boxes, no slot raises. *)
Theorem session_invariant {U : Py.Unicode} (home : string)
    (settings : option json) (s0 : Filey) (tr0 : list effect) (parent : bool)
    (evs : list (FS * ui_event)) (r : result) :
  init home settings = Created s0 tr0 →
  session evs (set_has_parent parent s0) = Some r →
  0 <= history_index (state_of r)
    < Z.of_nat (length (history (state_of r))) ∧
  Py.index (history (state_of r)) (history_index (state_of r)) =
    Some (current_path (state_of r)) ∧
  (∀ e s tr, r = Raise e s tr → e = TypeError ∨ e = OverflowError) ∧
  (valid_animation s0 → Forall (λ x, dialog_answer x.2) evs →
   ∃ s tr, r = Ok s tr) ∧
  (settings = None → valid_animation s0).
Proof.
  intros Hinit Hrun.
  destruct (init_history _ _ _ _ Hinit) as [Hh Hi].
  destruct (session_keeps evs (set_has_parent parent s0) r)
    as (Hr & Hs & Hraise & Hok); [| |done|].
  - unfold cursor_in_range. cbn. rewrite Hh, Hi. cbn. lia.
  - unfold shows_cursor. cbn. by rewrite Hh, Hi.
  - split_and!; [apply Hr.. | done | done | done |].
    intros ->. cbn in Hinit. unfold init_widget in Hinit.
    destruct (theme_colors _ _); [done|].
    destruct (load_path _ _ _ _) eqn:E. injection Hinit as <- _.
    apply load_path_view_eq in E as (_ & _ & _ & Hd & Ht).
    unfold valid_animation. by rewrite Hd, Ht.
Qed.

Lemma session_invariant_witness :
  0 <= history_index (state_of sample_result)
    < Z.of_nat (length (history (state_of sample_result))) ∧
  Py.index (history (state_of sample_result))
           (history_index (state_of sample_result)) =
    Some (current_path (state_of sample_result)) ∧
  (∀ e s tr, sample_result = Raise e s tr → e = TypeError ∨ e = OverflowError) ∧
  (valid_animation (fresh_started "/home/u") →
   Forall (λ x, dialog_answer x.2) sample_events →
   ∃ s tr, sample_result = Ok s tr) ∧
  (@None json = None → valid_animation (fresh_started "/home/u")).
Proof.
  apply (session_invariant "/home/u" None (fresh_started "/home/u")
           (match init "/home/u" None with
            | Created _ tr => tr | _ => [] end)
           true sample_events).
  - vm_compute. reflexivity.
  - vm_compute. reflexivity.
Defined.

(** ** Back, forward and opening a folder *)

(** Back and forward undo each other (the statement of X2, shared). *)
Lemma back_forward_lemma (s : Filey) :
  cursor_in_range s → shows_cursor s →
  (0 < history_index s →
     ∃ s1 tr1 tr2,
       go_back s = Ok s1 tr1 ∧ history_index s1 = history_index s - 1 ∧
       go_forward s1 = Ok s tr2) ∧
  (history_index s < Z.of_nat (length (history s)) - 1 →
     ∃ s1 tr1 tr2,
       go_forward s = Ok s1 tr1 ∧ history_index s1 = history_index s + 1 ∧
       go_back s1 = Ok s tr2).
Proof.
  intros Hr Hs. unfold cursor_in_range, shows_cursor in *.
  rewrite index_in_range in Hs by lia.
  destruct s as [cp ad aty th h i cb fl its hp]. cbn in *. split.
  - intros Hi. unfold go_back. cbn.
    destruct (Z.ltb_spec 0 i); [|lia].
    rewrite index_in_range by lia.
    destruct (lookup_lt_is_Some_2 h (Z.to_nat (i - 1))) as [p Hp]; [lia|].
    rewrite Hp. cbn. eexists _, _, _. split; [done|]. split; [done|].
    unfold go_forward. cbn.
    destruct (Z.ltb_spec (i - 1) (Z.of_nat (length h) - 1)); [|lia].
    rewrite index_in_range by lia.
    replace (i - 1 + 1) with i by lia. rewrite Hs. cbn. done.
  - intros Hi. unfold go_forward. cbn.
    destruct (Z.ltb_spec i (Z.of_nat (length h) - 1)); [|lia].
    rewrite index_in_range by lia.
    destruct (lookup_lt_is_Some_2 h (Z.to_nat (i + 1))) as [p Hp]; [lia|].
    rewrite Hp. cbn. eexists _, _, _. split; [done|]. split; [done|].
    unfold go_back. cbn.
    destruct (Z.ltb_spec 0 (i + 1)); [|lia].
    rewrite index_in_range by lia.
    replace (i + 1 - 1) with i by lia. rewrite Hs. cbn. done.
Qed.

(** X2. Back and forward undo each other: where the shown path is the
    entry under the cursor, going back (when the cursor is not at the
    start) and then forward leaves the very state one started from, and so
    does going forward (when the cursor is not at the end) and then back. *)
Theorem back_forward_round_trip (s : Filey) :
  cursor_in_range s → shows_cursor s →
  (0 < history_index s →
     ∃ s1 tr1 tr2,
       go_back s = Ok s1 tr1 ∧ history_index s1 = history_index s - 1 ∧
       go_forward s1 = Ok s tr2) ∧
  (history_index s < Z.of_nat (length (history s)) - 1 →
     ∃ s1 tr1 tr2,
       go_forward s = Ok s1 tr1 ∧ history_index s1 = history_index s + 1 ∧
       go_back s1 = Ok s tr2).
Proof.
  intros Hr Hs. unfold cursor_in_range, shows_cursor in *.
  rewrite index_in_range in Hs by lia.
  destruct s as [cp ad aty th h i cb fl its hp]. cbn in *. split.
  - intros Hi. unfold go_back. cbn.
    destruct (Z.ltb_spec 0 i); [|lia].
    rewrite index_in_range by lia.
    destruct (lookup_lt_is_Some_2 h (Z.to_nat (i - 1))) as [p Hp]; [lia|].
    rewrite Hp. cbn. eexists _, _, _. split; [done|]. split; [done|].
    unfold go_forward. cbn.
    destruct (Z.ltb_spec (i - 1) (Z.of_nat (length h) - 1)); [|lia].
    rewrite index_in_range by lia.
    replace (i - 1 + 1) with i by lia. rewrite Hs. cbn. done.
  - intros Hi. unfold go_forward. cbn.
    destruct (Z.ltb_spec i (Z.of_nat (length h) - 1)); [|lia].
    rewrite index_in_range by lia.
    destruct (lookup_lt_is_Some_2 h (Z.to_nat (i + 1))) as [p Hp]; [lia|].
    rewrite Hp. cbn. eexists _, _, _. split; [done|]. split; [done|].
    unfold go_back. cbn.
    destruct (Z.ltb_spec 0 (i + 1)); [|lia].
    rewrite index_in_range by lia.
    replace (i + 1 - 1) with i by lia. rewrite Hs. cbn. done.
Qed.

Lemma back_forward_round_trip_witness :
  (0 < history_index in_docs →
     ∃ s1 tr1 tr2,
       go_back in_docs = Ok s1 tr1 ∧
       history_index s1 = history_index in_docs - 1 ∧
       go_forward s1 = Ok in_docs tr2) ∧
  (history_index in_docs < Z.of_nat (length (history in_docs)) - 1 →
     ∃ s1 tr1 tr2,
       go_forward in_docs = Ok s1 tr1 ∧
       history_index s1 = history_index in_docs + 1 ∧
       go_back s1 = Ok in_docs tr2).
Proof.
  apply (back_forward_round_trip in_docs).
  - vm_compute. split; [discriminate | reflexivity].
  - vm_compute. reflexivity.
Defined.

(** X3. Opening a folder and going back: activating a folder row pushes
    its path, so that the entries after the old cursor are gone, the cursor
    is on the last entry and forward does nothing; back then shows the path
    that was shown before, with the cursor where it was, and forward from
    there opens the folder again.  Activating a file row changes nothing in
    the widget and hands the file to the desktop. *)
Theorem open_folder_then_back (it : Item) (s : Filey) :
  cursor_in_range s → shows_cursor s →
  (data257 it = true →
     ∃ s1 tr1 s2 tr2 tr3,
       item_activated (Some it) s = (s1, tr1) ∧
       current_path s1 = data256 it ∧
       history s1 =
         take (Z.to_nat (history_index s + 1)) (history s) ++ [data256 it] ∧
       history_index s1 = Z.of_nat (length (history s1)) - 1 ∧
       go_forward s1 = Ok s1 [] ∧
       StartScan (data256 it) true ∈ tr1 ∧
       go_back s1 = Ok s2 tr2 ∧
       current_path s2 = current_path s ∧
       history_index s2 = history_index s ∧
       go_forward s2 = Ok s1 tr3) ∧
  (data257 it = false →
     item_activated (Some it) s = (s, [OpenExternal (data256 it)])).
Proof.
  intros Hr Hs. split; [|by intros H; unfold item_activated; rewrite H].
  intros Hfolder. unfold item_activated. rewrite Hfolder.
  set (s1 := (load_path (data256 it) true true s).1).
  assert (history_wf s) as Hwf by (by right).
  pose proof (push_cursor_in_range (data256 it) true s Hwf) as Hr1.
  pose proof (push_shows_cursor (data256 it) true s Hwf) as Hs1.
  destruct (push_history (data256 it) true s) as (Hh & Hi & Hc).
  { unfold cursor_in_range in Hr. lia. }
  fold s1 in Hr1, Hs1, Hh, Hi, Hc.
  assert (history_index s1 = Z.of_nat (length (history s1)) - 1) as Hlast.
  { rewrite Hh, Hi, length_app, length_take. unfold cursor_in_range in Hr.
    cbn. lia. }
  destruct (back_forward_lemma s1 Hr1 Hs1) as [Hback _].
  destruct Hback as (s2 & tr2 & tr3 & Hb & Hi2 & Hf).
  { rewrite Hi. unfold cursor_in_range in Hr. lia. }
  exists s1, (load_path (data256 it) true true s).2, s2, tr2, tr3.
  split; [by destruct (load_path _ _ _ _)|].
  split; [done|]. split; [done|]. split; [done|].
  split; [apply go_forward_at_end; lia|].
  split.
  { unfold load_path. cbn. destruct (has_parent s); cbn; set_solver. }
  split; [done|].
  destruct (go_back_moves s1) as (p & s2' & tr2' & Hp & Hb' & _ & Hi2' & Hc2).
  { rewrite Hi. unfold cursor_in_range in *. lia. }
  rewrite Hb in Hb'. injection Hb' as <- <-.
  split; [|split; [lia | done]].
  rewrite Hc2. unfold shows_cursor in Hs.
  rewrite index_in_range in Hs by done.
  rewrite Hh, Hi, lookup_app_l in Hp.
  - rewrite lookup_take_lt in Hp by (unfold cursor_in_range in Hr; lia).
    replace (history_index s + 1 - 1) with (history_index s) in Hp by lia.
    congruence.
  - rewrite length_take. unfold cursor_in_range in Hr. lia.
Qed.

Lemma open_folder_then_back_witness :
  (data257 docs_item = true →
     ∃ s1 tr1 s2 tr2 tr3,
       item_activated (Some docs_item) (started "/home/u") = (s1, tr1) ∧
       current_path s1 = data256 docs_item ∧
       history s1 =
         take (Z.to_nat (history_index (started "/home/u") + 1))
              (history (started "/home/u")) ++ [data256 docs_item] ∧
       history_index s1 = Z.of_nat (length (history s1)) - 1 ∧
       go_forward s1 = Ok s1 [] ∧
       StartScan (data256 docs_item) true ∈ tr1 ∧
       go_back s1 = Ok s2 tr2 ∧
       current_path s2 = current_path (started "/home/u") ∧
       history_index s2 = history_index (started "/home/u") ∧
       go_forward s2 = Ok s1 tr3) ∧
  (data257 docs_item = false →
     item_activated (Some docs_item) (started "/home/u") =
       (started "/home/u", [OpenExternal (data256 docs_item)])).
Proof.
  apply (open_folder_then_back docs_item (started "/home/u")).
  - vm_compute. split; [discriminate | reflexivity].
  - vm_compute. reflexivity.
Defined.

(** ** The window follows its list *)

Lemma follows_nil (s' : Filey) : follows s' [].
Proof. intros e He. by apply elem_of_nil in He. Qed.

Lemma follows_app (s' : Filey) (tr1 tr2 : list effect) :
  follows s' (tr1 ++ tr2) ↔ follows s' tr1 ∧ follows s' tr2.
Proof.
  unfold follows. split.
  - intros H. split; intros e He; apply H, elem_of_app; [by left | by right].
  - intros [H1 H2] e [He|He]%elem_of_app; [by apply H1 | by apply H2].
Qed.

Lemma follows_cons (s' : Filey) (e : effect) (tr : list effect) :
  follows s' (e :: tr) ↔ follows s' [e] ∧ follows s' tr.
Proof. apply (follows_app s' [e] tr). Qed.




















(** ** Start-up from the settings store *)

Lemma load_path_saves (p : string) (add_history animate : bool) (s : Filey) :
  ∃ tr,
    (load_path p add_history animate s).2 =
      tr ++ [SaveSettings (session_data (load_path p add_history animate s).1)].
Proof.
  unfold load_path. cbn [fst snd].
  set (s2 := if add_history then _ else _).
  exists ([PathChanged p] ++
          (if has_parent s2 then [update_nav_buttons s2] else []) ++
          [StartScan p animate]).
  generalize (session_data s2). intros d.
  destruct (has_parent s2); reflexivity.
Qed.

(** X5. A session survives a restart.  Every [load_path] ends by saving
    the session; when the theme is a mapping with the five keys and the
    saved document is read back as it was written, the widget constructed
    at the next start shows the path that was loaded last and has the same
    animation duration, animation type and theme, with a history that holds
    just that path. *)
Theorem session_restored {content : Type} (json_dump : json → content)
    (json_load : content → option json) (home p : string)
    (add_history animate : bool) (s : Filey) (theme : gmap string json) :
  let s1 := (load_path p add_history animate s).1 in
  json_load (json_dump (session_data s1)) = Some (session_data s1) →
  current_theme s = JObj theme →
  (∀ k, k ∈ theme_keys → is_Some (theme !! k)) →
  (∃ tr, (load_path p add_history animate s).2 =
           tr ++ [SaveSettings (session_data s1)]) ∧
  ∃ s' tr',
    init home (load_settings json_load
                 (save_settings json_dump (session_data s1) Written))
      = Created s' tr' ∧
    current_path s' = p ∧
    anim_duration s' = anim_duration s ∧
    anim_type s' = anim_type s ∧
    current_theme s' = current_theme s ∧
    history s' = [p] ∧ history_index s' = 0.
Proof.
  intros s1 Hrt Htheme Hkeys. split; [apply load_path_saves|].
  cbn [save_settings load_settings]. rewrite Hrt. unfold init.
  destruct (session_data_fields s1 (JStr home) (JInt 200) (JStr "Fade")
              DEFAULT_THEMES_Dark) as (-> & -> & -> & -> & ->).
  assert (current_theme s1 = JObj theme ∧ current_path s1 = p ∧
          anim_duration s1 = anim_duration s ∧ anim_type s1 = anim_type s)
    as (-> & -> & -> & ->) by (subst s1; by destruct add_history).
  rewrite (all_keys_in_present _ _ Hkeys).
  destruct (init_widget_created p (anim_duration s) (anim_type s) theme Hkeys)
    as (s' & tr' & Hinit & Ht & Hp & Hd & Hy).
  exists s', tr'. split; [done|].
  destruct (init_widget_history _ _ _ _ _ _ Hinit) as (Hh & Hi & _).
  rewrite Hh, Hp, Htheme. done.
Qed.

Lemma session_restored_witness :
  (∃ tr, (load_path "/home/u/Docs" true true (started "/home/u")).2 =
           tr ++ [SaveSettings (session_data in_docs)]) ∧
  ∃ s' tr',
    init "/home/u"
      (load_settings (λ c : json, Some c)
         (save_settings (λ d : json, d) (session_data in_docs) Written))
      = Created s' tr' ∧
    current_path s' = "/home/u/Docs" ∧
    anim_duration s' = anim_duration (started "/home/u") ∧
    anim_type s' = anim_type (started "/home/u") ∧
    current_theme s' = current_theme (started "/home/u") ∧
    history s' = ["/home/u/Docs"] ∧ history_index s' = 0.
Proof.
  apply (session_restored (λ d : json, d) (λ c : json, Some c) "/home/u"
           "/home/u/Docs" true true (started "/home/u")
           (match DEFAULT_THEMES_Dark with JObj m => m | _ => ∅ end)).
  - reflexivity.
  - vm_compute. reflexivity.
  - apply dark_has_all_keys.
Defined.



Lemma theme_colors_inr (keys : list string) (theme : json) (cs : list json) :
  theme_colors keys theme = inr cs →
  keys ≠ [] →
  ∃ m, theme = JObj m ∧ ∀ k, k ∈ keys → is_Some (m !! k).
Proof.
  intros H Hne. destruct theme as [| | | | |m];
    try (destruct keys; [done | cbn in H; done]).
  exists m. split; [done|]. clear Hne. revert cs H.
  induction keys as [|k keys IH]; intros cs H k' Hk'.
  - by apply elem_of_nil in Hk'.
  - cbn in H. destruct (m !! k) as [c|] eqn:E; [|done].
    destruct (theme_colors keys (JObj m)) as [|cs'] eqn:E'; [done|].
    apply elem_of_cons in Hk' as [->|Hk']; [by eexists|].
    by eapply IH.
Qed.

Lemma init_widget_theme (path duration type theme : json) (s : Filey)
    (tr : list effect) :
  init_widget path duration type theme = Created s tr →
  ∃ m, current_theme s = JObj m ∧ ∀ k, k ∈ theme_keys → is_Some (m !! k).
Proof.
  intros H. pose proof (init_widget_history _ _ _ _ _ _ H) as Hs.
  destruct Hs as (_ & _ & _ & _ & _ & -> & _).
  unfold init_widget in H.
  destruct (theme_colors stylesheet_keys theme) as [|cs] eqn:E; [done|].
  destruct (theme_colors_inr _ _ _ E) as (m & -> & Hm); [done|].
  exists m. split; [done|]. intros k Hk. apply Hm. revert Hk.
  unfold stylesheet_keys, theme_keys. rewrite !elem_of_cons, !elem_of_nil.
  tauto.
Qed.

(** X7. A widget that [__init__] has constructed has a complete theme:
    whatever the settings document held, the theme is a mapping in which
    each of the five colour keys has a value (the loaded theme when it
    passed the test, the dark theme otherwise); the history holds the
    current path alone, nothing is on the clipboard and the list is
    empty. *)
Theorem created_widget (home : string) (settings : option json) (s : Filey)
    (tr : list effect) :
  init home settings = Created s tr →
  (∃ m, current_theme s = JObj m ∧ ∀ k, k ∈ theme_keys → is_Some (m !! k)) ∧
  history s = [current_path s] ∧ history_index s = 0 ∧
  clipboard_path s = None ∧ full_entry_list s = [] ∧ items s = [] ∧
  StartScan (current_path s) false ∈ tr.
Proof.
  intros H.
  assert (∃ path duration type theme,
            init_widget path duration type theme = Created s tr)
    as (path & duration & type & theme & Hw).
  { unfold init in H. repeat case_match; try done; by eexists _, _, _, _. }
  split; [by eapply init_widget_theme|].
  destruct (init_widget_history _ _ _ _ _ _ Hw)
    as (Hh & Hi & Hp & _ & _ & _ & Hc & Hf & His & _).
  split_and!; try done.
  unfold init_widget in Hw. destruct (theme_colors _ _); [done|].
  destruct path; try done. injection Hw as <- <-. cbn. set_solver.
Qed.

Lemma created_widget_witness :
  (∃ m, current_theme (fresh "/home/u") = JObj m ∧
        ∀ k, k ∈ theme_keys → is_Some (m !! k)) ∧
  history (set_history ["/home/u"] 0 (fresh "/home/u")) =
    [current_path (set_history ["/home/u"] 0 (fresh "/home/u"))] ∧
  history_index (set_history ["/home/u"] 0 (fresh "/home/u")) = 0 ∧
  clipboard_path (set_history ["/home/u"] 0 (fresh "/home/u")) = None ∧
  full_entry_list (set_history ["/home/u"] 0 (fresh "/home/u")) = [] ∧
  items (set_history ["/home/u"] 0 (fresh "/home/u")) = [] ∧
  StartScan (current_path (set_history ["/home/u"] 0 (fresh "/home/u"))) false
    ∈ match init "/home/u" None with Created _ tr => tr | _ => [] end.
Proof.
  apply (created_widget "/home/u" None
           (set_history ["/home/u"] 0 (fresh "/home/u"))
           (match init "/home/u" None with
            | Created _ tr => tr | _ => [] end)).
  vm_compute. reflexivity.
Defined.

(** X8. Settings that end the program at start-up: nothing checks the shape
    of the document that [json.load] returns.  A truthy document that is
    not a mapping (a list, a string, a number, [true]) raises
    [AttributeError] at [settings.get]; a theme that is [null], a boolean
    or a number raises [TypeError] at the key test; a theme that passes the
    key test without being a mapping (a list or a string that contains the
    five key names) raises [TypeError] in [theme_to_stylesheet]; and with
    a usable theme a [last_path] that is neither a string nor [null]
    raises [TypeError] at [path_changed.emit].  A [last_path] that is
    [null] does not end the program: the signal takes [None]. *)
Theorem init_crashes (home : string) (doc : json) :
  (truthy doc = true → (∀ m, doc ≠ JObj m) →
     init home (Some doc) = Crashed AttributeError) ∧
  (∀ m t, doc = JObj m → m !! "theme" = Some t →
     t = JNull ∨ (∃ b, t = JBool b) ∨ (∃ n, t = JInt n) →
     init home (Some doc) = Crashed TypeError) ∧
  (∀ m t, doc = JObj m → m !! "theme" = Some t →
     all_keys_in theme_keys t = Some true → (∀ m', t ≠ JObj m') →
     init home (Some doc) = Crashed TypeError) ∧
  (∀ m v, doc = JObj m → m !! "last_path" = Some v →
     (∀ p, v ≠ JStr p) → v ≠ JNull →
     m !! "theme" = None →
     init home (Some doc) = Crashed TypeError) ∧
  (∀ m, doc = JObj m → m !! "last_path" = Some JNull →
     m !! "theme" = None →
     init home (Some doc) = Pathless).
Proof.
  assert (∀ m v, m !! "last_path" = Some v → m !! "theme" = None →
            init home (Some (JObj m)) =
            match v with
            | JStr p =>
                init_widget (JStr p) (default (JInt 200) (m !! "anim_duration"))
                  (default (JStr "Fade") (m !! "anim_type")) DEFAULT_THEMES_Dark
            | JNull => Pathless
            | _ => Crashed TypeError
            end) as Hpath.
  { intros m v Hm Hnone. unfold init. cbn [truthy].
    rewrite bool_decide_eq_false_2
      by (intros ->; by rewrite lookup_empty in Hm).
    cbn [negb json_get]. rewrite Hm, Hnone. cbn [from_option id].
    replace (all_keys_in theme_keys DEFAULT_THEMES_Dark) with (Some true)
      by (vm_compute; reflexivity).
    unfold init_widget.
    replace (theme_colors stylesheet_keys DEFAULT_THEMES_Dark)
      with (inr (B:=list json) [JStr "#1e1e1e"; JStr "#dddddd"; JStr "#1e1e1e";
                  JStr "#007acc"; JStr "#094771"; JStr "#333333";
                  JStr "#dddddd"] : exn + list json)
      by (vm_compute; reflexivity).
    by destruct v. }
  split; [|split; [|split; [|split]]].
  - intros Ht Hno. unfold init. rewrite Ht.
    destruct doc; try done. by destruct (Hno m).
  - intros m t -> Hm Ht. unfold init. cbn [truthy].
    rewrite bool_decide_eq_false_2
      by (intros ->; by rewrite lookup_empty in Hm).
    cbn [negb json_get]. rewrite Hm. cbn [from_option id].
    by destruct Ht as [->|[[b ->]|[n ->]]].
  - intros m t -> Hm Hall Hno. unfold init. cbn [truthy].
    rewrite bool_decide_eq_false_2
      by (intros ->; by rewrite lookup_empty in Hm).
    cbn [negb json_get]. rewrite Hm. cbn [from_option id]. rewrite Hall.
    unfold init_widget. destruct t; try done. by destruct (Hno m0).
  - intros m v -> Hm Hv Hnull Hnone. rewrite (Hpath m v Hm Hnone).
    destruct v; try done. by destruct (Hv s).
  - intros m -> Hm Hnone. by rewrite (Hpath m JNull Hm Hnone).
Qed.

Lemma init_crashes_witness :
  init "/home/u" (Some (JList [JInt 1])) = Crashed AttributeError ∧
  init "/home/u" (Some (JObj {["theme" := JInt 5]})) = Crashed TypeError ∧
  init "/home/u" (Some (JObj {["last_path" := JInt 5]})) = Crashed TypeError ∧
  init "/home/u" (Some (JObj {["last_path" := JNull]})) = Pathless.
Proof.
  split; [|split; [|split]].
  - apply (proj1 (init_crashes "/home/u" (JList [JInt 1]))); done.
  - apply (proj1 (proj2 (init_crashes "/home/u" (JObj {["theme" := JInt 5]})))
             {["theme" := JInt 5]} (JInt 5)); [done | done |].
    right. right. by exists 5.
  - apply (proj1 (proj2 (proj2 (proj2
             (init_crashes "/home/u" (JObj {["last_path" := JInt 5]})))))
             {["last_path" := JInt 5]} (JInt 5)); done.
  - apply (proj2 (proj2 (proj2 (proj2
             (init_crashes "/home/u" (JObj {["last_path" := JNull]})))))
             {["last_path" := JNull]}); done.
Defined.

(** ** File operations: what they never do *)

Lemma unique_path_unused (fs : FS) (fuel : nat) (path d : string) :
  unique_path fs fuel path = Some d → exists_ fs d = false.
Proof.
  unfold unique_path. destruct (exists_ fs path) eqn:E; cbn.
  - destruct (OsPath.splitext path) as [base ext]. intros H.
    by destruct (unique_loop_Some _ _ _ _ _ _ H) as (N & _ & -> & ? & _).
  - by intros [= <-].
Qed.

(** X9. Nothing is overwritten.  Whatever the inputs, [create_file] opens
    a file for writing only at a path that does not exist, [rename_item]
    renames only to a path that does not exist, and [paste_item] copies
    only from a source that exists to a destination that does not; each of
    them makes at most this one OS call. *)
Theorem never_overwrites {U : Py.Unicode} (fs : FS) (s : Filey) :
  (∀ name ok open_w c,
     Os c ∈ (create_file fs name ok open_w s).2 →
     ∃ p, c = CreateFile p ∧ exists_ fs p = false ∧
          p = OsPath.join (current_path s) (Py.strip name)) ∧
  (∀ item new_name ok rename c,
     Os c ∈ (rename_item fs item new_name ok rename s).2 →
     ∃ it p, item = Some it ∧ c = Rename (data256 it) p ∧
             exists_ fs p = false ∧
             p = OsPath.join (current_path s) (Py.strip new_name)) ∧
  (∀ fuel copy r c,
     paste_item fs fuel copy s = Some r → Os c ∈ r.2 →
     ∃ src d, clipboard_path s = Some src ∧
              (c = Copy2 src d ∨ c = Copytree src d) ∧
              exists_ fs src = true ∧ exists_ fs d = false).
Proof.
  split; [|split].
  - intros name ok open_w c. unfold create_file.
    destruct (ok && _); [|intros H; by apply elem_of_nil in H].
    destruct (exists_ fs _) eqn:E; [not_in_trace|].
    destruct open_w; cbn [snd].
    + unfold load_path. cbn.
      intros [[= ->]|H]%elem_of_cons; [by eexists|].
      revert H. destruct (has_parent s); cbn; not_in_trace.
    + intros [[= ->]|H]%elem_of_cons; [by eexists|]. revert H. not_in_trace.
  - intros item new_name ok rename c. unfold rename_item.
    destruct item as [it|]; [|not_in_trace].
    destruct (ok && _); [|intros H; by apply elem_of_nil in H].
    destruct (exists_ fs _) eqn:E; [not_in_trace|].
    destruct rename; cbn [snd].
    + unfold load_path. cbn.
      intros [[= ->]|H]%elem_of_cons; [by eexists _, _|].
      revert H. destruct (has_parent s); cbn; not_in_trace.
    + intros [[= ->]|H]%elem_of_cons; [by eexists _, _|].
      revert H. not_in_trace.
  - intros fuel copy r c. unfold paste_item.
    destruct (clipboard_path s) as [src|]; [|intros [= <-]; not_in_trace].
    destruct (Py.truthy_str src && exists_ fs src) eqn:E;
      [|intros [= <-]; not_in_trace].
    apply andb_true_iff in E as [_ Hsrc].
    destruct (unique_path fs fuel (paste_dest s src)) as [d|] eqn:Hd; [|done].
    apply unique_path_unused in Hd. cbn.
    assert (∀ tr, Os c ∈ Os (if isdir fs src then Copytree src d
                             else Copy2 src d) :: tr →
                  (∀ c', Os c' ∉ tr) →
                  ∃ src0 d0, Some src = Some src0 ∧
                    (c = Copy2 src0 d0 ∨ c = Copytree src0 d0) ∧
                    exists_ fs src0 = true ∧ exists_ fs d0 = false) as Hcase.
    { intros tr [[= ->]|H]%elem_of_cons Hno; [|by apply Hno in H].
      exists src, d. destruct (isdir fs src); auto. }
    destruct copy; intros [= <-]; cbn [snd]; intros Hc;
      apply (Hcase _ Hc); intros c'.
    + unfold load_path. cbn. destruct (has_parent s); cbn; not_in_trace.
    + not_in_trace.
Qed.

Lemma never_overwrites_witness :
  (Os (CreateFile "/home/u/new.txt")
     ∈ (create_file note_fs "new.txt" true Success note_widget).2 →
   ∃ p, CreateFile "/home/u/new.txt" = CreateFile p ∧
        exists_ note_fs p = false ∧
        p = OsPath.join (current_path note_widget) (Py.strip "new.txt")) ∧
  (Os (CreateFile "/home/u/note.txt")
     ∉ (create_file note_fs "note.txt" true Success note_widget).2).
Proof.
  destruct (never_overwrites note_fs note_widget) as (Hcreate & _ & _).
  split.
  - apply Hcreate.
  - intros H. destruct (Hcreate _ _ _ _ H) as (p & [= <-] & Hp & _).
    vm_compute in Hp. discriminate.
Defined.

Lemma app_assoc_str (a b c : string) : (a +:+ b) +:+ c = a +:+ b +:+ c.
Proof. induction a as [|x a IH]; [done|]. rewrite !app_cons. by rewrite IH. Qed.

(** X10. A failed operation changes nothing in the widget.  When the OS
    call of new folder, new file, delete, rename or paste raises, the slot
    leaves the state of the widget as it was, starts no scan (the list is
    not refreshed), and the last thing it does is to show one warning
    titled [Error] whose text ends in the text of the exception. *)
Theorem failure_leaves_state {U : Py.Unicode} (fs : FS) (s : Filey)
    (e : string) :
  let failed (r : Filey * list effect) :=
    r.1 = s ∧ filter is_scan r.2 = [] ∧
    (∀ c, Os c ∈ r.2 →
       ∃ tr body, r.2 = tr ++ [MessageBox Warning "Error" body] ∧
                  ends_with e body ∧ filter is_warning tr = []) in
  (∀ name ok, failed (create_folder name ok (Failure e) s)) ∧
  (∀ name ok, failed (create_file fs name ok (Failure e) s)) ∧
  (∀ item yes, failed (delete_item item yes (Failure e) s)) ∧
  (∀ item new_name ok, failed (rename_item fs item new_name ok (Failure e) s)) ∧
  (∀ fuel r, paste_item fs fuel (Failure e) s = Some r → failed r).
Proof.
  intros failed. unfold failed.
  assert (∀ (pre : list effect) (c0 : os_call) (msg : string),
            filter is_warning pre = [] →
            ∀ c, Os c ∈ pre ++ [Os c0; MessageBox Warning "Error"
                                         (msg +:+ nl +:+ e)] →
            ∃ tr body,
              pre ++ [Os c0; MessageBox Warning "Error" (msg +:+ nl +:+ e)] =
                tr ++ [MessageBox Warning "Error" body] ∧
              ends_with e body ∧ filter is_warning tr = []) as Hwarn.
  { intros pre c0 msg Hpre c _. exists (pre ++ [Os c0]), (msg +:+ nl +:+ e).
    split; [by rewrite <- app_assoc|]. split.
    - exists (msg +:+ nl). by rewrite app_assoc_str.
    - by rewrite filter_app, Hpre. }
  split; [|split; [|split; [|split]]].
  - intros name ok. unfold create_folder.
    destruct (ok && _); [|split_and!; [done | done | intros ?; not_in_trace]].
    split_and!; [done | done |]. apply (Hwarn []). done.
  - intros name ok. unfold create_file.
    destruct (ok && _); [|split_and!; [done | done | intros ?; not_in_trace]].
    destruct (exists_ fs _); [split_and!; [done | done | intros ?; not_in_trace]|].
    split_and!; [done | done |]. apply (Hwarn []). done.
  - intros item yes. unfold delete_item.
    destruct item as [it|]; [|split_and!; [done | done | intros ?; not_in_trace]].
    destruct yes; [|split_and!; [done | done | intros ?; not_in_trace]].
    split_and!; [done | done |]. apply (Hwarn [_]). done.
  - intros item new_name ok. unfold rename_item.
    destruct item as [it|]; [|split_and!; [done | done | intros ?; not_in_trace]].
    destruct (ok && _); [|split_and!; [done | done | intros ?; not_in_trace]].
    destruct (exists_ fs _); [split_and!; [done | done | intros ?; not_in_trace]|].
    split_and!; [done | done |]. apply (Hwarn []). done.
  - intros fuel r. unfold paste_item.
    destruct (clipboard_path s) as [src|];
      [|intros [= <-]; split_and!; [done | done | intros ?; not_in_trace]].
    destruct (Py.truthy_str src && exists_ fs src);
      [|intros [= <-]; split_and!; [done | done | intros ?; not_in_trace]].
    destruct (unique_path fs fuel (paste_dest s src)) as [d|]; [|done].
    cbn. intros [= <-]. split_and!; [done | done |]. apply (Hwarn []). done.
Qed.

Lemma failure_leaves_state_witness :
  (create_folder "new" true (Failure "disk full") note_widget).1 = note_widget ∧
  filter is_scan (create_folder "new" true (Failure "disk full") note_widget).2
    = [] ∧
  (∀ c, Os c ∈ (create_folder "new" true (Failure "disk full") note_widget).2 →
     ∃ tr body,
       (create_folder "new" true (Failure "disk full") note_widget).2 =
         tr ++ [MessageBox Warning "Error" body] ∧
       ends_with "disk full" body ∧ filter is_warning tr = []).
Proof.
  exact (proj1 (failure_leaves_state note_fs note_widget "disk full")
           "new" true).
Defined.

(** X11. Nothing is deleted without a row and a confirmation: whatever the
    inputs, the only OS call of [delete_item] is [shutil.rmtree] on the
    path of the current row when the row is a folder, and [os.remove] on
    it otherwise, and it is made only after the answer [Yes]; without a
    current row only the note [No item selected.] is shown. *)
Theorem delete_needs_confirmation (item : option Item) (yes : bool)
    (rm : os_result) (s : Filey) :
  (∀ c, Os c ∈ (delete_item item yes rm s).2 →
     yes = true ∧
     ∃ it, item = Some it ∧
           c = (if data257 it then Rmtree (data256 it)
                else Remove (data256 it))) ∧
  (item = None →
     delete_item item yes rm s =
       (s, [MessageBox Information "Delete" "No item selected."])) ∧
  (yes = false → (delete_item item yes rm s).1 = s ∧
                 filter is_scan (delete_item item yes rm s).2 = []).
Proof.
  split; [|split].
  - intros c. unfold delete_item. destruct item as [it|]; [|not_in_trace].
    destruct yes; [|not_in_trace].
    destruct rm; cbn [snd].
    + unfold load_path. cbn.
      intros [[=]|[[= ->]|H]%elem_of_cons]%elem_of_cons; [by eauto|].
      revert H. destruct (has_parent s); cbn; not_in_trace.
    + intros [[=]|[[= ->]|H]%elem_of_cons]%elem_of_cons; [by eauto|].
      revert H. not_in_trace.
  - by intros ->.
  - intros ->. unfold delete_item. by destruct item.
Qed.

Lemma delete_needs_confirmation_witness :
  delete_item None true Success note_widget =
    (note_widget, [MessageBox Information "Delete" "No item selected."]) ∧
  (delete_item (Some a_txt_item) false Success note_widget).1 = note_widget ∧
  filter is_scan (delete_item (Some a_txt_item) false Success note_widget).2
    = [].
Proof.
  split.
  - exact (proj1 (proj2
             (delete_needs_confirmation None true Success note_widget))
             eq_refl).
  - exact (proj2 (proj2
             (delete_needs_confirmation (Some a_txt_item) false Success
                note_widget)) eq_refl).
Defined.

(** ** Paths: the base name of a joined path *)

Lemma rfind_from_range (c : ascii) (s : string) (i last : Z) :
  Py.rfind_from c s i last = last ∨ i <= Py.rfind_from c s i last.
Proof.
  revert i last. induction s as [|d s IH]; intros i last; cbn; [by left|].
  destruct (IH (i + 1) (if Ascii.eqb d c then i else last)) as [->|H].
  - destruct (Ascii.eqb d c); [right; lia | by left].
  - right. lia.
Qed.

Lemma rfind_from_absent (c : ascii) (s : string) (i : Z) :
  0 <= i → Py.rfind_from c s i (-1) = -1 →
  ∀ j last, Py.rfind_from c s j last = last.
Proof.
  revert i. induction s as [|d s IH]; intros i Hi H j last; cbn in *; [done|].
  destruct (Ascii.eqb d c).
  - destruct (rfind_from_range c s (i + 1) i); lia.
  - by apply (IH (i + 1)); [lia|].
Qed.

Lemma rfind_from_app_absent (c : ascii) (x n : string) (i last : Z) :
  (∀ j l, Py.rfind_from c n j l = l) →
  Py.rfind_from c (x +:+ n) i last = Py.rfind_from c x i last.
Proof.
  intros Hn. revert i last. induction x as [|d x IH]; intros i last.
  - apply Hn.
  - rewrite app_cons. cbn. apply IH.
Qed.

Lemma rfind_from_snoc (c : ascii) (y : string) (i last : Z) :
  Py.rfind_from c (y +:+ String c "") i last =
    i + Z.of_nat (String.length y).
Proof.
  revert i last. induction y as [|d y IH]; intros i last.
  - change ("" +:+ String c "") with (String c "").
    cbn [Py.rfind_from String.length]. rewrite Ascii.eqb_refl. lia.
  - rewrite app_cons. cbn [Py.rfind_from String.length]. rewrite IH. lia.
Qed.

Lemma substring_all (s : string) : String.substring 0 (String.length s) s = s.
Proof. induction s as [|a s IH]; [done|]. cbn. by rewrite IH. Qed.

Lemma str_drop_app (x n : string) :
  Py.str_drop (Z.of_nat (String.length x)) (x +:+ n) = n.
Proof.
  unfold Py.str_drop. rewrite Nat2Z.id, length_app_str.
  replace (String.length x + String.length n - String.length x)%nat
    with (String.length n) by lia.
  induction x as [|a x IH]; [apply substring_all|].
  rewrite app_cons. cbn. apply IH.
Qed.

Lemma endswith_sep_snoc (a : string) :
  OsPath.endswith_sep a = true → ∃ y, a = y +:+ String OsPath.sep "".
Proof.
  induction a as [|c a IH]; [done|]. cbn.
  destruct a as [|d a'].
  - intros H%Ascii.eqb_eq. subst c. by exists "".
  - intros H. destruct (IH H) as [y ->]. by exists (String c y).
Qed.

(** [os.path.basename(os.path.join(a, name)) == name] for a name without a
    separator. *)
Lemma basename_join (a name : string) :
  no_sep name → OsPath.basename (OsPath.join a name) = name.
Proof.
  intros Hn.
  pose proof (rfind_from_absent _ _ 0 ltac:(lia) Hn) as Habs.
  assert (OsPath.startswith_sep name = false) as Hstart.
  { destruct name as [|c name]; [done|]. cbn.
    destruct (Ascii.eqb c OsPath.sep) eqn:E; [|done].
    unfold no_sep, Py.rfind in Hn. cbn in Hn. rewrite E in Hn.
    destruct (rfind_from_range OsPath.sep name (0 + 1) 0); lia. }
  assert (∀ y, OsPath.basename ((y +:+ String OsPath.sep "") +:+ name) = name)
    as Hslash.
  { intros y. unfold OsPath.basename, Py.rfind.
    rewrite rfind_from_app_absent, rfind_from_snoc by done.
    replace (0 + Z.of_nat (String.length y) + 1)
      with (Z.of_nat (String.length (y +:+ String OsPath.sep "")))
      by (rewrite length_app_str; cbn; lia).
    apply str_drop_app. }
  unfold OsPath.join. rewrite Hstart.
  destruct a as [|c a].
  - cbn [Py.truthy_str negb orb]. change ("" +:+ name) with name.
    unfold OsPath.basename. unfold no_sep in Hn. rewrite Hn.
    apply (str_drop_app "" name).
  - cbn [Py.truthy_str negb orb].
    destruct (OsPath.endswith_sep (String c a)) eqn:E.
    + destruct (endswith_sep_snoc _ E) as [y ->]. apply Hslash.
    + rewrite <- (Hslash (String c a)) at 2. f_equal.
      by rewrite app_assoc_str.
Qed.

(** ** Drops *)

(** X12. Dropping rows of the shown folder on the empty part of the list
    moves nothing: each dropped path is the current path joined with a
    name, so its destination is the path itself, and the slot only starts
    the animated re-scan, without an OS call and without a message.  In
    any drop, the only OS calls are moves of a dropped path to a
    destination with a different absolute path. *)
Theorem drop_on_own_folder (fs : FS) (s : Filey)
    (urls : list (string * os_result)) :
  (∀ src move, (src, move) ∈ urls →
     ∃ name, no_sep name ∧ src = OsPath.join (current_path s) name) →
  dropEvent fs urls None s = load_path (current_path s) false true s ∧
  ∀ urls' target_item c,
    Os c ∈ (dropEvent fs urls' target_item s).2 →
    ∃ src dst, c = Move src dst ∧ src ∈ urls'.*1 ∧
               abspath fs src ≠ abspath fs dst.
Proof.
  intros Hown. split.
  - unfold dropEvent.
    replace (concat (drop_one fs (current_path s) <$> urls)) with (@nil effect).
    { by destruct (load_path _ _ _ _). }
    symmetry. induction urls as [|[src move] urls IH]; [done|].
    rewrite fmap_cons. cbn [concat]. rewrite IH.
    + destruct (Hown src move) as (name & Hname & ->); [left|].
      unfold drop_one. rewrite basename_join by done.
      by rewrite String.eqb_refl.
    + intros src' move' H. apply (Hown src' move'). by right.
  - intros urls' target_item c. unfold dropEvent.
    generalize (match target_item with
      | Some it => if isdir fs (data256 it) then data256 it
                   else OsPath.dirname (data256 it)
      | None => current_path s end). intros target_path.
    destruct (load_path (current_path s) false true s) as [s' tr] eqn:E.
    cbn [snd]. rewrite elem_of_app. intros [H|H].
    + induction urls' as [|[src move] urls' IH]; [by apply elem_of_nil in H|].
      rewrite fmap_cons in H. cbn [concat] in H.
      apply elem_of_app in H as [H|H].
      * unfold drop_one in H.
        destruct (String.eqb _ _) eqn:Eq; [by apply elem_of_nil in H|].
        apply String.eqb_neq in Eq.
        exists src, (OsPath.join target_path (OsPath.basename src)).
        split; [|split; [left | done]].
        destruct move; revert H; rewrite !elem_of_cons, elem_of_nil;
          intros; naive_solver.
      * destruct (IH H) as (src' & dst & -> & Hin & Hne).
        exists src', dst. split; [done|]. split; [by right | done].
    + exfalso. unfold load_path in E. injection E as <- <-. revert H.
      cbn. destruct (has_parent s); cbn; not_in_trace.
Qed.

Lemma drop_on_own_folder_witness :
  dropEvent sample_fs
    [("/home/u/a.txt", Success); ("/home/u/Docs", Failure "busy")] None
    (started "/home/u")
  = load_path (current_path (started "/home/u")) false true (started "/home/u") ∧
  ∀ urls' target_item c,
    Os c ∈ (dropEvent sample_fs urls' target_item (started "/home/u")).2 →
    ∃ src dst, c = Move src dst ∧ src ∈ urls'.*1 ∧
               abspath sample_fs src ≠ abspath sample_fs dst.
Proof.
  apply (drop_on_own_folder sample_fs (started "/home/u")
           [("/home/u/a.txt", Success); ("/home/u/Docs", Failure "busy")]).
  intros src move Hin.
  apply elem_of_cons in Hin as [[= -> ->]|Hin].
  { exists "a.txt". split; reflexivity. }
  apply elem_of_cons in Hin as [[= -> ->]|Hin].
  { exists "Docs". split; reflexivity. }
  by apply elem_of_nil in Hin.
Defined.

(** ** Delivery of a scan result and the transition *)

(** X13. The two phases of a reload.  Without animation, or with the
    animation type [None], the rows are rebuilt from the delivered entries
    at once.  With [Fade] or [Slide] the entries are stored first; then,
    when [setDuration] accepts the animation duration, the first phase
    starts while the rows still show the old list, and when it ends the
    rows are rebuilt, the second phase starts, and the widget is in the
    state that a reload without animation would have left; when
    [setDuration] does not accept the duration (the settings file is not
    checked for it), the delivery ends with its exception, no animation
    starts and the rows stay the old ones.  With any other animation type
    an animated reload stores the entries and never rebuilds the rows; the
    stored entries show up at the next change of the filter text. *)
Theorem reload_phases {U : Py.Unicode} (entries : list Entry) (s : Filey) :
  let stored := set_full_entry_list entries s in
  let plain := set_items (item_of <$> entries) stored in
  let phases (property : string) (after : list Entry → Filey → result) :=
    match setDuration (anim_duration s) with
    | None =>
        _on_load_finished entries true s =
          Ok stored [StartAnimation property entries] ∧
        after entries stored = Ok plain [FinishAnimation property]
    | Some e =>
        _on_load_finished entries true s = Raise e stored [] ∧
        (e = TypeError ∨ e = OverflowError)
    end in
  _on_load_finished entries false s = Ok plain [] ∧
  (anim_type s = JStr "None" →
     _on_load_finished entries true s = Ok plain []) ∧
  (anim_type s = JStr "Fade" → phases "windowOpacity" _after_fade_out) ∧
  (anim_type s = JStr "Slide" → phases "pos" _after_slide_out) ∧
  (anim_type s ≠ JStr "None" → anim_type s ≠ JStr "Fade" →
   anim_type s ≠ JStr "Slide" →
     _on_load_finished entries true s = Ok stored [] ∧
     (search_items "" stored).1 = plain) ∧
  items stored = items s ∧
  (∀ n, anim_duration s = JInt n → 0 <= n < 2 ^ 31 →
     setDuration (anim_duration s) = None) ∧
  (∀ t, anim_duration s = JStr t →
     setDuration (anim_duration s) = Some TypeError).
Proof.
  intros stored plain phases.
  assert (∀ property after start finish,
            (∀ l x, after l x = start_phase finish (_rebuild_file_list l x)) →
            start = StartAnimation property entries →
            finish = FinishAnimation property →
            _on_load_finished entries true s = start_phase start stored →
            phases property after) as Hphases.
  { intros property after start finish Hafter -> -> Hload.
    unfold phases. rewrite Hload, Hafter. unfold start_phase.
    change (anim_duration (_rebuild_file_list entries stored))
      with (anim_duration s).
    change (anim_duration stored) with (anim_duration s).
    destruct (start_phase_cases (StartAnimation property entries) s)
      as [[-> _]|(x & -> & Hx & _)]; done. }
  split; [done|].
  unfold _on_load_finished, animate_file_list_reload.
  cbn [anim_type set_full_entry_list]. fold stored.
  split; [by intros ->|].
  split.
  { intros Ht. eapply Hphases; [done | done | done |].
    unfold _on_load_finished, animate_file_list_reload.
    cbn [anim_type set_full_entry_list]. by rewrite Ht. }
  split.
  { intros Ht. eapply Hphases; [done | done | done |].
    unfold _on_load_finished, animate_file_list_reload.
    cbn [anim_type set_full_entry_list]. by rewrite Ht. }
  split.
  { intros H1 H2 H3. split.
    - destruct (anim_type s) as [| | |t| |]; try done.
      destruct (String.eqb_spec t "None") as [->|?]; [done|].
      destruct (String.eqb_spec t "Fade") as [->|?]; [done|].
      destruct (String.eqb_spec t "Slide") as [->|?]; [done|].
      repeat case_match; simplify_eq; done.
    - rewrite search_items_shown. cbn [fst].
      rewrite filter_empty_needle; [done|]. by rewrite needle_ascii. }
  split; [done|]. split.
  - intros n -> Hn. cbn [setDuration].
    destruct (Z.leb_spec (- 2 ^ 31) n), (Z.ltb_spec n (2 ^ 31)); cbn;
      (done || lia).
  - by intros t ->.
Qed.

Lemma reload_phases_witness :
  _on_load_finished search_entries true (started "/home/u") =
    Ok (set_full_entry_list search_entries (started "/home/u"))
       [StartAnimation "windowOpacity" search_entries] ∧
  _after_fade_out search_entries
    (set_full_entry_list search_entries (started "/home/u")) =
    Ok (set_items (item_of <$> search_entries)
          (set_full_entry_list search_entries (started "/home/u")))
       [FinishAnimation "windowOpacity"].
Proof.
  apply (proj1 (proj2 (proj2 (reload_phases search_entries (started "/home/u"))))).
  vm_compute. reflexivity.
Defined.

(** ** The filter text *)

Lemma contains_trans (a b c : string) :
  Py.contains a b = true → Py.contains b c = true → Py.contains a c = true.
Proof.
  rewrite !contains_spec.
  intros (p1 & q1 & ->) (p2 & q2 & ->).
  exists (p2 +:+ p1), (q1 +:+ q2). by rewrite !app_assoc_str.
Qed.

Lemma sublist_filter_impl {A} (P Q : A → Prop)
    `{!∀ x, Decision (P x)} `{!∀ x, Decision (Q x)} (l : list A) :
  (∀ x, P x → Q x) → sublist (filter P l) (filter Q l).
Proof.
  intros HPQ. induction l as [|x l IH]; [done|].
  rewrite !filter_cons.
  destruct (decide (P x)) as [HP|HP], (decide (Q x)) as [HQ|HQ].
  - by constructor.
  - by destruct HQ; apply HPQ.
  - by constructor.
  - done.
Qed.

(** X14. Typing narrows the list, and filters do not pile up.  When the
    needle of one filter text (the text stripped and in lower case) occurs
    in the needle of another, the rows shown for the second are among the
    rows shown for the first, in the same order.  The rows depend on the
    last scan and the present text only: filtering after an earlier filter
    gives what filtering alone gives, so repeating a filter changes
    nothing. *)
Theorem search_narrows {U : Py.Unicode} (q1 q2 : string) (s : Filey) :
  Py.contains (Py.lower (Py.strip q1)) (Py.lower (Py.strip q2)) = true →
  sublist (items (search_items q2 s).1) (items (search_items q1 s).1) ∧
  search_items q2 (search_items q1 s).1 = search_items q2 s ∧
  search_items q1 (search_items q1 s).1 = search_items q1 s.
Proof.
  intros Hsub.
  assert (∀ q, search_items q s =
            (set_items (item_of <$>
               filter (λ e, Py.contains (Py.lower (Py.strip q))
                                        (Py.lower (name e)) = true)
                      (full_entry_list s)) s, [])) as Hs.
  { intros q. unfold search_items.
    destruct (Py.lower (Py.strip q)) eqn:E; cbn [Py.truthy_str negb]; [|done].
    unfold _rebuild_file_list. f_equal. f_equal. f_equal. symmetry.
    induction (full_entry_list s) as [|e l IH]; [done|].
    rewrite filter_cons, IH.
    destruct (decide _) as [|Hc]; [done|]. by rewrite contains_empty in Hc. }
  assert (∀ q q', search_items q' (search_items q s).1 = search_items q' s)
    as Hagain.
  { intros q q'. rewrite (Hs q). cbn [fst]. unfold search_items.
    cbn [full_entry_list set_items]. by repeat case_match. }
  split; [|split; apply Hagain].
  rewrite !Hs. cbn [fst items set_items].
  apply fmap_sublist, sublist_filter_impl.
  intros e He. by eapply contains_trans.
Qed.

Lemma search_narrows_witness :
  sublist (items (search_items " App " (listed "/home/u" search_entries)).1)
          (items (search_items "p" (listed "/home/u" search_entries)).1) ∧
  search_items " App " (search_items "p" (listed "/home/u" search_entries)).1 =
    search_items " App " (listed "/home/u" search_entries) ∧
  search_items "p" (search_items "p" (listed "/home/u" search_entries)).1 =
    search_items "p" (listed "/home/u" search_entries).
Proof.
  apply (search_narrows "p" " App " (listed "/home/u" search_entries)).
  vm_compute. reflexivity.
Defined.

(** ** The rows of a scan *)

Lemma truthy_app_r (a b : string) :
  Py.truthy_str b = true → Py.truthy_str (a +:+ b) = true.
Proof. destruct a; [done|]. by rewrite app_cons. Qed.

Lemma sizeof_loop_nonempty (us : list string) (x : num) (suffix t : string) :
  Py.truthy_str suffix = true →
  sizeof_loop us x suffix = Some t → Py.truthy_str t = true.
Proof.
  intros Hs. revert x. induction us as [|unit us IH]; intros x; cbn.
  - destruct (format_1f x) as [f|]; [|done]. cbn. intros [= <-].
    by apply truthy_app_r.
  - destruct (abs_lt_1024 x).
    + destruct (format_1f x) as [f|]; [|done]. cbn. intros [= <-].
      by apply truthy_app_r.
    + destruct (div_1024 x) as [x'|]; [|done]. cbn. apply IH.
Qed.

(** X15. The rows that a scan puts on the screen.  After the delivery of a
    scan without animation there is one row per entry of the scan.  A
    listed name that is a directory has a row with the folder icon whose
    text is the name alone; a listed regular file whose size cannot be
    read has a row with the file icon whose text is the name alone; and a
    listed regular file of size [k] has a row whose text is the name
    followed by the formatted size in parentheses.  Each row carries the
    path joined from the scanned path and the name. *)
Theorem scan_rows {U : Py.Unicode} (fs : FS) (path : string)
    (entries : list string) (s : Filey) (n : string) :
  listdir fs path = Some entries →
  n ∈ entries →
  let rows := items (state_of (scan fs path false s)) in
  let p := OsPath.join path n in
  length rows = length (Worker.run fs path) ∧
  (isdir fs p = true → mkItem n true p true ∈ rows) ∧
  (isdir fs p = false → isfile fs p = true → getsize fs p = None →
     mkItem n false p false ∈ rows) ∧
  (∀ k, isdir fs p = false → isfile fs p = true → getsize fs p = Some k →
        0 <= k < 2 ^ 63 →
        ∃ t, sizeof_fmt k = Some t ∧
             mkItem (n +:+ " (" +:+ t +:+ ")") false p false ∈ rows).
Proof.
  intros Hls Hn rows p.
  assert (rows = item_of <$> Worker.run fs path) as -> by done.
  rewrite length_fmap. split; [done|].
  rewrite (run_listed _ _ _ Hls), fmap_app, <- !list_fmap_compose.
  split; [|split].
  - intros Hd. apply elem_of_app. left. apply list_elem_of_fmap.
    exists n. split; [done|]. by apply elem_of_sorted_folders.
  - intros Hd Hf Hsz. apply elem_of_app. right. apply list_elem_of_fmap.
    exists n. split; [|by apply elem_of_sorted_files].
    unfold compose, item_of, Worker.file_entry, Worker.size_text_of.
    cbn [name full_path is_folder size_text]. fold p. by rewrite Hsz.
  - intros k Hd Hf Hsz Hk.
    destruct (sizeof_fmt_is_Some k) as [t Ht].
    { assert (2 ^ 63 < 2 ^ 1023) by (apply Z.pow_lt_mono_r; lia). lia. }
    exists t. split; [done|]. apply elem_of_app. right.
    apply list_elem_of_fmap.
    exists n. split; [|by apply elem_of_sorted_files].
    unfold compose, item_of, Worker.file_entry, Worker.size_text_of.
    cbn [name full_path is_folder size_text]. fold p. rewrite Hsz, Ht.
    cbn [from_option id].
    by rewrite (sizeof_loop_nonempty units (Int k) "B" t eq_refl Ht).
Qed.

Lemma scan_rows_witness :
  length (items (state_of (scan sample_fs "/home/u" false (started "/home/u")))) =
    length (Worker.run sample_fs "/home/u") ∧
  (isdir sample_fs (OsPath.join "/home/u" "a.txt") = true →
     mkItem "a.txt" true (OsPath.join "/home/u" "a.txt") true
       ∈ items (state_of (scan sample_fs "/home/u" false (started "/home/u")))) ∧
  (isdir sample_fs (OsPath.join "/home/u" "a.txt") = false →
   isfile sample_fs (OsPath.join "/home/u" "a.txt") = true →
   getsize sample_fs (OsPath.join "/home/u" "a.txt") = None →
     mkItem "a.txt" false (OsPath.join "/home/u" "a.txt") false
       ∈ items (state_of (scan sample_fs "/home/u" false (started "/home/u")))) ∧
  (∀ k, isdir sample_fs (OsPath.join "/home/u" "a.txt") = false →
        isfile sample_fs (OsPath.join "/home/u" "a.txt") = true →
        getsize sample_fs (OsPath.join "/home/u" "a.txt") = Some k →
        0 <= k < 2 ^ 63 →
        ∃ t, sizeof_fmt k = Some t ∧
             mkItem ("a.txt" +:+ " (" +:+ t +:+ ")") false
                    (OsPath.join "/home/u" "a.txt") false
               ∈ items (state_of (scan sample_fs "/home/u" false (started "/home/u")))).
Proof.
  apply (scan_rows sample_fs "/home/u"
           ["b.txt"; "Docs"; "a.txt"; "link"; "apps"] (started "/home/u")
           "a.txt").
  - reflexivity.
  - set_solver.
Defined.

(** ** The tool tip *)

(** X16. The preview of a folder.  A tool tip is shown exactly over a row
    whose path is a directory that can be listed.  Its text is decided by
    the first six names of the listing that do not start with a dot:
    names that start with a dot make no difference, nor does anything
    after the sixth visible name; a folder with at most five visible names
    shows them all, joined by commas, and a folder without visible names
    shows the empty text. *)
Theorem tooltip_preview (fs : FS) (item : option Item) (content : list string) :
  (is_Some (tooltip fs item) ↔
     ∃ it, item = Some it ∧ isdir fs (data256 it) = true ∧
           is_Some (listdir fs (data256 it))) ∧
  preview_text content = preview_text (filter visible content) ∧
  preview_text content = preview_text (take 6 (filter visible content)) ∧
  ((length (filter visible content) <= 5)%nat →
     preview_text content = String.concat ", " (filter visible content)) ∧
  (filter visible content = [] → preview_text content = "").
Proof.
  split; [|split; [|split; [|split]]].
  - unfold tooltip. split.
    + destruct item as [it|]; [|by intros []].
      destruct (isdir fs (data256 it)) eqn:E; [|by intros []].
      destruct (listdir fs (data256 it)) eqn:E'; [|by intros []].
      intros _. exists it. by rewrite E, E'.
    + intros (it & -> & -> & [l ->]). by eexists.
  - unfold preview_text. by rewrite list_filter_filter_l.
  - unfold preview_text.
    assert (filter visible (take 6 (filter visible content)) =
            take 6 (filter visible content)) as ->.
    { generalize 6%nat. intros k. revert k.
      induction content as [|c content IH]; intros k; [by destruct k|].
      rewrite filter_cons. destruct (decide (visible c)) as [Hc|Hc]; [|apply IH].
      destruct k as [|k]; [done|]. cbn [take]. rewrite filter_cons.
      destruct (decide (visible c)); [|done]. by rewrite IH. }
    generalize (filter visible content). intros l.
    rewrite take_take, length_take. f_equal.
    destruct (Nat.ltb_spec 5 (length l)), (Nat.ltb_spec 5 (6 `min` length l));
      try done; lia.
  - intros Hlen. unfold preview_text.
    rewrite take_ge by lia.
    destruct (Nat.ltb_spec 5 (length (filter visible content))); [lia|].
    generalize (String.concat ", " (filter visible content)). intros t.
    induction t as [|a t IH]; [done|]. rewrite app_cons. by rewrite IH.
  - intros H. unfold preview_text. by rewrite H.
Qed.

Lemma tooltip_preview_witness :
  preview_text [".git"; "a"; "b"] = String.concat ", " (filter visible [".git"; "a"; "b"]).
Proof.
  apply (proj1 (proj2 (proj2 (proj2
           (tooltip_preview sample_fs None [".git"; "a"; "b"]))))).
  vm_compute. repeat constructor.
Defined.
(** ** The size formatter in closed form *)

Lemma float_of_int_exact (n : Z) :
  0 <= n < 2 ^ 53 → float_of_int n = Some n.
Proof.
  intros Hn. unfold float_of_int. rewrite Z.abs_eq by lia.
  assert ((if n =? 0 then 0 else Z.log2 n + 1) <= 53) as Hbits.
  { destruct (Z.eqb_spec n 0); [lia|].
    assert (Z.log2 n < 53) by (apply Z.log2_lt_pow2; lia). lia. }
  destruct (Z.leb_spec (if n =? 0 then 0 else Z.log2 n + 1) 53); [|lia].
  assert (2 ^ 53 < 2 ^ 1024) by (apply Z.pow_lt_mono_r; lia).
  destruct (Z.ltb_spec n (2 ^ 1024)); [|lia].
  f_equal. destruct (Z.eq_dec n 0) as [->|]; [done|].
  rewrite Z.sgn_pos by lia. lia.
Qed.

Lemma sizeof_loop_skip (unit : string) (us : list string) (m e : Z)
    (suffix : string) :
  1024 * 2 ^ e <= Z.abs m →
  sizeof_loop (unit :: us) (Float m e) suffix =
    sizeof_loop us (Float m (e + 10)) suffix.
Proof.
  intros H. cbn [sizeof_loop abs_lt_1024].
  destruct (Z.ltb_spec (Z.abs m) (1024 * 2 ^ e)); [lia | done].
Qed.

Lemma sizeof_loop_hit (unit : string) (us : list string) (m e : Z)
    (suffix : string) :
  0 <= m < 1024 * 2 ^ e →
  sizeof_loop (unit :: us) (Float m e) suffix =
    Some ((Py.str_of_int (round_half_even (10 * m) (2 ^ e) / 10) +:+ "." +:+
           Py.str_of_int (round_half_even (10 * m) (2 ^ e) mod 10)) +:+
          " " +:+ unit +:+ suffix).
Proof.
  intros H. cbn [sizeof_loop abs_lt_1024 format_1f].
  rewrite Z.abs_eq by lia.
  destruct (Z.ltb_spec m (1024 * 2 ^ e)); [|lia].
  destruct (Z.ltb_spec m 0); [lia|]. done.
Qed.

Lemma sizeof_loop_skip_int (unit : string) (us : list string) (n : Z)
    (suffix : string) :
  1024 <= n < 2 ^ 53 →
  sizeof_loop (unit :: us) (Int n) suffix =
    sizeof_loop us (Float n 10) suffix.
Proof.
  intros H. cbn [sizeof_loop abs_lt_1024 div_1024].
  rewrite Z.abs_eq by lia.
  destruct (Z.ltb_spec n 1024); [lia|].
  rewrite float_of_int_exact by lia. reflexivity.
Qed.

Lemma sizeof_loop_closed (n : Z) (suffix : string) (k : nat) :
  ∀ (us : list string) (e : Z) (unit : string),
    us !! k = Some unit → 0 <= e → 0 <= n →
    (k = 0%nat ∨ 1024 * 2 ^ (e + 10 * (Z.of_nat k - 1)) <= n) →
    n < 1024 * 2 ^ (e + 10 * Z.of_nat k) →
    sizeof_loop us (Float n e) suffix =
      Some ((Py.str_of_int
               (round_half_even (10 * n) (2 ^ (e + 10 * Z.of_nat k)) / 10)
             +:+ "." +:+
             Py.str_of_int
               (round_half_even (10 * n) (2 ^ (e + 10 * Z.of_nat k)) mod 10))
            +:+ " " +:+ unit +:+ suffix).
Proof.
  induction k as [|k IH]; intros us e unit Hunit He Hn Hlow Hhigh.
  - destruct us as [|u us]; [done|]. injection Hunit as ->.
    replace (e + 10 * Z.of_nat 0) with e in * by lia.
    by apply sizeof_loop_hit.
  - destruct us as [|u us]; [done|]. cbn in Hunit.
    destruct Hlow as [?|Hlow]; [done|].
    rewrite sizeof_loop_skip.
    + replace (e + 10 * Z.of_nat (S k)) with (e + 10 + 10 * Z.of_nat k) in *
        by lia.
      apply IH; [done | lia | done | | done].
      destruct k as [|k]; [by left|]. right.
      replace (e + 10 + 10 * (Z.of_nat (S k) - 1))
        with (e + 10 * (Z.of_nat (S (S k)) - 1)) by lia. done.
    + rewrite Z.abs_eq by done.
      assert (2 ^ e <= 2 ^ (e + 10 * (Z.of_nat (S k) - 1)))
        by (apply Z.pow_le_mono_r; lia).
      lia.
Qed.

Lemma pow_1024 (x : Z) : 0 <= x → 1024 ^ x = 2 ^ (10 * x).
Proof. intros Hx. by rewrite Z.pow_mul_r by lia. Qed.

(** X17. [sizeof_fmt] in closed form, for the sizes below 2^53 (which a
    float holds exactly).  A size below 1024 is printed as the number with
    [.0 B].  A size [n] with [1024^j <= n < 1024^(j+1)] is printed with the
    [j]-th unit of K, M, G, T, P: the number printed is [n / 1024^j]
    rounded to one decimal place, ties to the even digit, so that a size
    just below the next power of 1024 is printed as [1024.0]. *)
Theorem sizeof_fmt_closed (n : Z) (j : nat) (unit : string) :
  0 <= n < 2 ^ 53 →
  units !! j = Some unit →
  (j = 0%nat ∨ 1024 ^ Z.of_nat j <= n) →
  n < 1024 ^ (Z.of_nat j + 1) →
  let q := round_half_even (10 * n) (1024 ^ Z.of_nat j) in
  sizeof_fmt n =
    Some ((Py.str_of_int (q / 10) +:+ "." +:+ Py.str_of_int (q mod 10)) +:+
          " " +:+ unit +:+ "B") ∧
  (j = 0%nat → sizeof_fmt n = Some ((Py.str_of_int n +:+ ".0") +:+ " B")).
Proof.
  intros Hn Hunit Hlow Hhigh q.
  assert (j = 0%nat → sizeof_fmt n = Some ((Py.str_of_int n +:+ ".0") +:+ " B"))
    as Hzero.
  { intros ->. unfold sizeof_fmt, units.
    cbn [sizeof_loop abs_lt_1024 format_1f].
    rewrite Z.abs_eq by lia. change (1024 ^ (Z.of_nat 0 + 1)) with 1024 in Hhigh.
    destruct (Z.ltb_spec n 1024); [|lia].
    rewrite float_of_int_exact by done. cbn [mbind option_bind].
    destruct (Z.ltb_spec n 0); [lia|]. by rewrite Z.abs_eq by lia. }
  split; [|done].
  destruct j as [|j].
  { rewrite Hzero by done. injection Hunit as <-. subst q.
    change (1024 ^ Z.of_nat 0) with 1.
    unfold round_half_even. rewrite Z.div_1_r, Z.mod_1_r.
    change (2 * 0 <? 1) with true. cbv iota.
    rewrite (Z.mul_comm 10 n), Z.div_mul, Z.mod_mul by lia. done. }
  destruct Hlow as [?|Hlow]; [done|].
  assert (1024 <= 1024 ^ Z.of_nat (S j)) as H1024.
  { change 1024 with (1024 ^ 1) at 1. apply Z.pow_le_mono_r; lia. }
  assert (sizeof_fmt n = sizeof_loop ["K"; "M"; "G"; "T"; "P"; "E"; "Z"]
                           (Float n 10) "B") as ->.
  { unfold sizeof_fmt, units. apply sizeof_loop_skip_int. lia. }
  subst q. rewrite !pow_1024 in * by lia.
  replace (10 * Z.of_nat (S j)) with (10 + 10 * Z.of_nat j) in * by lia.
  apply (sizeof_loop_closed n "B" j); [done | lia | lia | |].
  - destruct j as [|j]; [by left|]. right.
    replace (10 + 10 * (Z.of_nat (S j) - 1)) with (10 * Z.of_nat (S j)) by lia.
    replace (1024 * 2 ^ (10 * Z.of_nat (S j)))
      with (2 ^ (10 + 10 * Z.of_nat (S j))); [done|].
    rewrite Z.pow_add_r by lia. done.
  - replace (1024 * 2 ^ (10 + 10 * Z.of_nat j))
      with (2 ^ (10 * (Z.of_nat (S j) + 1))); [done|].
    replace (10 * (Z.of_nat (S j) + 1)) with (10 + (10 + 10 * Z.of_nat j))
      by lia.
    rewrite (Z.pow_add_r 2 10) by lia. done.
Qed.

Lemma sizeof_fmt_closed_witness :
  sizeof_fmt 1048575 =
    Some ((Py.str_of_int (round_half_even (10 * 1048575) (1024 ^ Z.of_nat 1) / 10)
           +:+ "." +:+
           Py.str_of_int (round_half_even (10 * 1048575) (1024 ^ Z.of_nat 1) mod 10))
          +:+ " " +:+ "K" +:+ "B") ∧
  (1%nat = 0%nat →
   sizeof_fmt 1048575 = Some ((Py.str_of_int 1048575 +:+ ".0") +:+ " B")).
Proof.
  apply (sizeof_fmt_closed 1048575 1 "K").
  - lia.
  - reflexivity.
  - right. vm_compute. discriminate.
  - vm_compute. reflexivity.
Defined.

(** ** What a session leaves alone *)

(** X18. What the slots leave alone, over a whole session.  The clipboard
    is changed by nothing but a copy of a row: no paste, whether it succeeds
    or fails, and no deletion or move of the source clears it.  The stored
    scan is changed by nothing but the delivery of a scan, and the rows by
    nothing but a delivery or a change of the filter text: a file operation
    or a navigation only starts a scan, and until its list arrives the rows
    of the earlier scan stay on the screen.  The animation settings are
    changed by nothing but the accepted dialog. *)
Theorem session_frame {U : Py.Unicode} (evs : list (FS * ui_event))
    (s : Filey) (r : result) :
  session evs s = Some r →
  let s' := state_of r in
  (Forall (λ e, is_copy e.2 = false) evs →
   clipboard_path s' = clipboard_path s) ∧
  (Forall (λ e, delivers e.2 = false) evs →
   full_entry_list s' = full_entry_list s) ∧
  (Forall (λ e, delivers e.2 = false ∧ is_search e.2 = false) evs →
   items s' = items s) ∧
  (Forall (λ e, is_settings e.2 = false) evs →
   anim_duration s' = anim_duration s ∧ anim_type s' = anim_type s).
Proof.
  revert s r. induction evs as [|[fs ev] evs IH]; intros s r H.
  { injection H as <-. by split_and!. }
  cbn [session] in H.
  destruct (handle fs ev s) as [r1|] eqn:E; [|done].
  pose proof (handle_view fs ev s r1 E) as (Hc & Hf & Hi & Ha).
  destruct r1 as [s1 tr1|e1 s1 tr1]; cbn [state_of] in *.
  - destruct (session evs s1) as [r2|] eqn:E2; [|done].
    pose proof (IH s1 r2 E2) as (Hc2 & Hf2 & Hi2 & Ha2).
    assert (state_of r = state_of r2) as -> by (destruct r2; by injection H as <-).
    split_and!.
    + intros [? ?]%Forall_cons. rewrite Hc2, Hc; done.
    + intros [? ?]%Forall_cons. rewrite Hf2, Hf; done.
    + intros [[? ?] HF]%Forall_cons. rewrite Hi2, Hi; [done..|].
      done.
    + intros [? ?]%Forall_cons.
      destruct Ha2 as [-> ->]; [done|]. by apply Ha.
  - injection H as <-. cbn [state_of]. split_and!.
    + intros [? ?]%Forall_cons. by apply Hc.
    + intros [? ?]%Forall_cons. by apply Hf.
    + intros [[? ?] _]%Forall_cons. by apply Hi.
    + intros [? ?]%Forall_cons. by apply Ha.
Qed.

Lemma session_frame_witness :
  (Forall (λ e, is_copy e.2 = false) frame_events →
   clipboard_path (state_of frame_result) = clipboard_path note_widget) ∧
  (Forall (λ e, delivers e.2 = false) frame_events →
   full_entry_list (state_of frame_result) = full_entry_list note_widget) ∧
  (Forall (λ e, delivers e.2 = false ∧ is_search e.2 = false) frame_events →
   items (state_of frame_result) = items note_widget) ∧
  (Forall (λ e, is_settings e.2 = false) frame_events →
   anim_duration (state_of frame_result) = anim_duration note_widget ∧
   anim_type (state_of frame_result) = anim_type note_widget).
Proof.
  apply (session_frame frame_events note_widget frame_result).
  vm_compute. reflexivity.
Defined.

(** ** The order of the rows does not depend on the order of the listing *)

Section SortedClasses.
Variable key : string → string.

(** Two sorted lists with the same elements of each key, in the same order,
    are the same list. *)
Lemma sorted_classes_eq (s t : list string) :
  StronglySorted (le_key key) s → StronglySorted (le_key key) t →
  (∀ k, filter (λ a, key a = k) s = filter (λ a, key a = k) t) →
  s = t.
Proof.
  revert t. induction s as [|x s IH]; intros [|y t] Hs Ht H.
  - done.
  - specialize (H (key y)). rewrite filter_nil, filter_cons_True in H; done.
  - specialize (H (key x)). rewrite filter_nil, filter_cons_True in H; done.
  - apply StronglySorted_inv in Hs as [Hs Hx].
    apply StronglySorted_inv in Ht as [Ht Hy].
    assert (key x = key y) as Hk.
    { apply String.leb_antisym.
      - pose proof (H (key y)) as Hy'.
        rewrite (filter_cons_True _ y) in Hy' by done.
        assert (y ∈ x :: s) as [->|Hin]%elem_of_cons.
        { eapply (list_elem_of_filter (λ a, key a = key y)).
          rewrite Hy'. left. }
        + apply leb_refl.
        + rewrite Forall_forall in Hx. by apply Hx.
      - pose proof (H (key x)) as Hx'.
        rewrite (filter_cons_True _ x) in Hx' by done.
        assert (x ∈ y :: t) as [->|Hin]%elem_of_cons.
        { eapply (list_elem_of_filter (λ a, key a = key x)).
          rewrite <- Hx'. left. }
        + apply leb_refl.
        + rewrite Forall_forall in Hy. by apply Hy. }
    pose proof (H (key x)) as H0.
    rewrite (filter_cons_True _ x), (filter_cons_True _ y) in H0 by done.
    injection H0 as -> H0. f_equal. apply IH; [done | done |].
    intros k. destruct (decide (key y = k)) as [<-|Hne]; [done|].
    specialize (H k). by rewrite !filter_cons_False in H.
Qed.

Lemma sort_by_classes (l l' : list string) :
  (∀ k, filter (λ a, key a = k) l' = filter (λ a, key a = k) l) →
  sort_by key l' = sort_by key l.
Proof.
  intros H. apply sorted_classes_eq; [apply sort_by_StronglySorted..|].
  intros k. by rewrite !sort_by_stable.
Qed.
End SortedClasses.

Lemma filter_classes (P : string → Prop) `{!∀ a, Decision (P a)}
    (key : string → string) (l l' : list string) :
  (∀ k, filter (λ a, key a = k) l' = filter (λ a, key a = k) l) →
  ∀ k, filter (λ a, key a = k) (filter P l') =
       filter (λ a, key a = k) (filter P l).
Proof.
  intros Hc k.
  trans (filter P (filter (λ a, key a = k) l')).
  { rewrite !list_filter_filter. apply list_filter_iff. tauto. }
  rewrite Hc, !list_filter_filter. apply list_filter_iff. tauto.
Qed.

(** X19. The rows do not depend on the order in which the directory is
    listed, except between names of the same lower-case form.  The names of
    a scan that have one lower-case form are the folders among them and
    then the files, each in the order of the listing (the sort is stable).
    Hence two listings of the same names that agree on the order of the
    names of each lower-case form (as any two do when no two names differ
    in case only) give the same scan. *)
Theorem scan_order_independent {U : Py.Unicode} (fs fs' : FS) (path : string)
    (l l' : list string) :
  listdir fs path = Some l →
  listdir fs' path = Some l' →
  (∀ p, isdir fs' p = isdir fs p) →
  (∀ p, isfile fs' p = isfile fs p) →
  (∀ p, getsize fs' p = getsize fs p) →
  (∀ k, filter (λ a, Py.lower a = k) l' = filter (λ a, Py.lower a = k) l) →
  Worker.run fs' path = Worker.run fs path ∧
  ∀ k, filter (λ a, Py.lower a = k) (name <$> Worker.run fs path) =
       filter (λ a, Py.lower a = k) (Worker.folders_of fs path l) ++
       filter (λ a, Py.lower a = k) (Worker.files_of fs path l).
Proof.
  intros Hl Hl' Hd Hf Hg Hc. split.
  - rewrite (run_listed _ _ _ Hl), (run_listed _ _ _ Hl').
    assert (Worker.folders_of fs' path l' =
            filter (λ e, isdir fs (OsPath.join path e) = true) l') as ->.
    { unfold Worker.folders_of. apply list_filter_iff. intros e.
      by rewrite Hd. }
    assert (Worker.files_of fs' path l' =
            filter (λ e, isdir fs (OsPath.join path e) = false ∧
                         isfile fs (OsPath.join path e) = true) l') as ->.
    { unfold Worker.files_of. apply list_filter_iff. intros e.
      by rewrite Hd, Hf. }
    unfold Worker.folders_of, Worker.files_of.
    rewrite (sort_by_classes Py.lower _ _ (filter_classes _ Py.lower l l' Hc)).
    rewrite (sort_by_classes Py.lower _ _
               (filter_classes
                  (λ e, isdir fs (OsPath.join path e) = false ∧
                        isfile fs (OsPath.join path e) = true)
                  Py.lower l l' Hc)).
    f_equal. apply list_fmap_ext. intros _ f _.
    unfold Worker.file_entry, Worker.size_text_of. by rewrite Hg.
  - intros k. rewrite (run_listed _ _ _ Hl), fmap_app, <- !list_fmap_compose.
    rewrite filter_app.
    assert (∀ g (xs : list string), (∀ x, name (g x) = x) →
              (name ∘ g) <$> xs = xs) as Hid.
    { intros g xs Hgx. induction xs as [|x xs IH]; [done|].
      cbn. by rewrite Hgx, IH. }
    rewrite !Hid by done. by rewrite !sort_by_stable.
Qed.

Lemma scan_order_independent_witness :
  Worker.run (tie_fs tie_listing') "/t" = Worker.run (tie_fs tie_listing) "/t" ∧
  ∀ k, filter (λ a, Py.lower a = k)
         (name <$> Worker.run (tie_fs tie_listing) "/t") =
       filter (λ a, Py.lower a = k)
         (Worker.folders_of (tie_fs tie_listing) "/t" tie_listing) ++
       filter (λ a, Py.lower a = k)
         (Worker.files_of (tie_fs tie_listing) "/t" tie_listing).
Proof.
  apply (scan_order_independent (tie_fs tie_listing) (tie_fs tie_listing')
           "/t" tie_listing tie_listing'); try reflexivity.
  intros k. unfold tie_listing, tie_listing'.
  rewrite !filter_cons, !filter_nil.
  change (Py.lower "b.txt") with "b.txt".
  change (Py.lower "B.txt") with "b.txt".
  change (Py.lower "a.txt") with "a.txt".
  change (Py.lower "lib") with "lib".
  repeat case_decide; simplify_eq; done.
Defined.

(** ** Copy and paste in one folder *)

Lemma join_nonempty (a name : string) :
  name ≠ "" → Py.truthy_str (OsPath.join a name) = true.
Proof.
  intros Hn. unfold OsPath.join.
  assert (Py.truthy_str name = true) by (by destruct name).
  destruct (OsPath.startswith_sep name); [done|].
  destruct (_ || _); by apply truthy_app_r.
Qed.

(** X20. A row that is copied and pasted in the folder that shows it is
    duplicated, never overwritten: the destination that [paste_item]
    computes for it is the path of the row itself, which exists, so the
    copy goes to [base - CopyN.ext] for the least [N >= 1] whose name is
    unused: a path that does not exist, and another one than the
    source. *)
Theorem copy_paste_in_place (fs : FS) (s : Filey) (it : Item) (name : string)
    (existing : list string) (copy : os_result) :
  no_sep name → name ≠ "" →
  data256 it = OsPath.join (current_path s) name →
  exists_ fs (data256 it) = true →
  (∀ p, exists_ fs p = true → p ∈ existing) →
  let s1 := (copy_item (Some it) s).1 in
  paste_dest s1 (data256 it) = data256 it ∧
  ∃ N base ext,
    OsPath.splitext (data256 it) = (base, ext) ∧
    1 <= N <= Z.of_nat (length existing) + 1 ∧
    exists_ fs (copy_name base ext N) = false ∧
    (∀ i, 1 <= i < N → exists_ fs (copy_name base ext i) = true) ∧
    copy_name base ext N ≠ data256 it ∧
    ∀ fuel, (Z.to_nat N <= fuel)%nat →
      ∃ s' tr,
        paste_item fs fuel copy s1 =
          Some (s', Os (if isdir fs (data256 it)
                        then Copytree (data256 it) (copy_name base ext N)
                        else Copy2 (data256 it) (copy_name base ext N)) :: tr) ∧
        ∀ c, Os c ∉ tr.
Proof.
  intros Hsep Hne Hrow Hex Hfin s1.
  assert (paste_dest s1 (data256 it) = data256 it) as Hdest.
  { unfold paste_dest, s1. cbn. by rewrite Hrow, basename_join. }
  split; [done|].
  destruct (OsPath.splitext (data256 it)) as [base ext] eqn:Hsplit.
  destruct (unique_loop_finite fs base ext existing Hfin) as [p Hp].
  destruct (unique_loop_Some _ _ _ _ _ _ Hp) as (N & HN & -> & Hfree & Hused).
  exists N, base, ext.
  split; [done|]. split; [lia|]. split; [done|]. split; [done|].
  split; [congruence|].
  intros fuel Hfuel. unfold paste_item.
  assert (clipboard_path s1 = Some (data256 it)) as -> by done.
  rewrite Hex, Hdest.
  assert (Py.truthy_str (data256 it) = true) as ->
    by (rewrite Hrow; by apply join_nonempty).
  unfold unique_path. rewrite Hex, Hsplit.
  cbn [andb negb].
  rewrite (unique_loop_least fs base ext fuel 1 N) by (done || lia).
  cbn [mbind option_bind].
  destruct copy.
  - destruct (load_path (current_path s1) false false s1) as [s' tr] eqn:E.
    exists s', tr. split; [done|]. intros c.
    apply (f_equal snd) in E. cbn [snd] in E. subst tr.
    unfold load_path. cbn. destruct (has_parent _); cbn; not_in_trace.
  - eexists _, _. split; [done|]. intros c. not_in_trace.
Qed.

Lemma copy_paste_in_place_witness :
  paste_dest copied_note (data256 note_item) = data256 note_item ∧
  ∃ N base ext,
    OsPath.splitext (data256 note_item) = (base, ext) ∧
    1 <= N <= Z.of_nat (length ["/home/u"; "/home/u/note.txt"]) + 1 ∧
    exists_ note_fs (copy_name base ext N) = false ∧
    (∀ i, 1 <= i < N → exists_ note_fs (copy_name base ext i) = true) ∧
    copy_name base ext N ≠ data256 note_item ∧
    ∀ fuel, (Z.to_nat N <= fuel)%nat →
      ∃ s' tr,
        paste_item note_fs fuel Success copied_note =
          Some (s', Os (if isdir note_fs (data256 note_item)
                        then Copytree (data256 note_item) (copy_name base ext N)
                        else Copy2 (data256 note_item) (copy_name base ext N))
                      :: tr) ∧
        ∀ c, Os c ∉ tr.
Proof.
  apply (copy_paste_in_place note_fs (fresh "/home/u") note_item "note.txt"
           ["/home/u"; "/home/u/note.txt"] Success).
  - reflexivity.
  - discriminate.
  - reflexivity.
  - reflexivity.
  - intros p Hp. cbn in Hp.
    apply orb_true_iff in Hp as [Hp|Hp]; apply String.eqb_eq in Hp as ->;
      set_solver.
Defined.
